(* ===== verification/_CoqProject ===== *)
-Q . S2P
Prelude.v
PyRuntime.v
Prometheus.v
Collector.v
Exposition.v
Concurrency.v
Backend.v
App.v
Scrape.v
