(* ===== verification/Prelude.v ===== *)
(** * RED metrics demo service: a verification development

    This library models the Flask service of [src/src/main.py] (the demo of
    RED metrics, i.e. Rate/Errors/Duration, with the Prometheus Python
    client) and proves what its request handling does to the process-wide
    latency metrics.

    ** The program and how its parts interact

    - [MetricCollector] (main.py 10-50) owns three metric objects of
      [prometheus_client]: a Summary of the service's own request latency
      (labels path, method, status_code), a Histogram of the simulated
      database latency (labels status_code, sql_state; buckets .1 .. 2.5)
      and a Summary of the simulated audit-service latency (label
      status_code).  [newCollector] builds and registers them in the
      client's default registry.
    - The mock backend (main.py 86-133): [work_with_db] and
      [work_with_third_party] read their parameters from the request,
      time a [mocked_call] (sleep, then maybe raise [RuntimeError]) and
      record the outcome in the collector before re-raising.
    - The routes (main.py 57-83, 155-169): [/hello], [/world],
      [/complex] (database then audit, 503 on the first failure) and
      [/metrics] (multiprocess exposition).
    - The request interceptor (main.py 136-152): a before hook stores the
      start time on the request, an after hook records the request's
      latency unless the path is exactly ["/metrics"].

    ** Files

    - [Prelude] (this file): the [PyM] state/exception monad that models
      Python code which mutates process state and raises exceptions
      (exceptions do not roll back earlier mutations), its notation in
      [pym_scope], the hint database [pym] and the rewrite database
      [pym_run], and shared lemmas on [Q], lists and strings.
    - [PyRuntime]: the Python values the code handles ([pyval], floats
      with infinities and NaN), [str()] and truthiness, and the
      [PyParse] interface for [float()] and [ast.literal_eval] with a
      concrete instance on the literal forms the service documents.
    - [Prometheus]: the part of [prometheus_client] the service calls
      (modelled from the library's documented behaviour): metric
      families with labelled children kept in insertion order, Summary
      and Histogram [observe], [labels] with its name check, the
      constructors' validation and the registry's duplicate check.
    - [Collector]: the process state [World] (a heap of metric objects
      shared by reference between the registry and the collector, the
      wall clock, the environment), [MetricCollector] and its methods.
    - [Exposition]: the classic text format [generate_latest] writes for
      the registered metrics ([MetricCollector.get_latest], main.py
      23-24): HELP and TYPE lines, the samples of every child with
      sorted, escaped labels, the [_created] gauge; the value printing
      is the interface [GoFloat] (with an instance [GoDecimal] that
      prints like [floatToGoString] on integers); and a reader of the
      format, the reference against which the output is checked.
    - [Concurrency]: the requests' [observe_myself] and [observe_db]
      calls (main.py 12-18) as threads running the client's critical
      sections ([labels] get-or-create, then [_count.inc] and
      [_sum.inc] on a Summary, [_sum.inc] and the bucket's [inc] on a
      Histogram) interleaved with a scraper that reads [_count] then
      [_sum]: the step relation [cstep], an executable scheduler
      [cexec], the invariant [cinv].
    - [Backend]: [mocked_call], [call_db], [call_external],
      [work_with_db], [work_with_third_party].
    - [App]: the routes, the interceptor and the Flask request pipeline
      (routing, automatic HEAD/OPTIONS, 404/405, 500 on an unhandled
      exception), and sequences of requests ([serve], and
      [run_service] for [get_app] then [app.run], main.py 181-184).
    - [Scrape]: the composition of [App] with [Exposition]: what a
      scrape of the running service shows.

    ** Time

    [time.time()] is a wall clock: each reading consumes the next
    adjustment of [w_ticks] (the time that passed since the previous
    reading, possibly negative when the wall clock is set back) and
    [time.sleep(d)] advances the clock by exactly [d].  Durations are
    rationals [Q]: the rounding of IEEE doubles is not modelled, nor are
    counters beyond 2^53.

    ** What the theorems show

    - The [/complex] endpoint ([App], C1-C3, C13, C14): on every outcome
      of the two simulated dependencies, the response (200
      ["Success!"], or 503 with the failing dependency's message) and
      the exact sequence of observations recorded, in order and with
      their labels; the short-circuit after a database failure; the 500
      answer with no dependency observation when [db_sleep] or
      [is_db_error] do not parse or [time.sleep] overflows; and, with a
      clock never set back, the latency bounds.
    - The interceptor and the other routes ([App], C4, C15-C19): [/metrics]
      is never observed and changes no metric; ["/metrics/"] is
      observed; without [PROMETHEUS_MULTIPROC_DIR] the metrics route
      answers 500; the recorded latency is a difference of wall-clock
      readings (so it may be negative); paths no rule matches (routing
      follows werkzeug: [request.path] without repeated leading slashes,
      Flask's static rule, [merge_slashes] redirects) are observed under
      their own label with 404; [/hello] and [/world].
    - The rate and errors ([App], C5): after [get_app] and any sequence
      of requests every request is answered, and the self summary's
      count under a label tuple is the number of requests (those to
      [/metrics] apart) with that path, method and response status.
    - Concurrent requests ([Concurrency], C6, C7, C10, C24): no update
      is lost in any interleaving, on a Summary or a Histogram (the
      invariant [cinv], by induction on the reachable states); a
      completed interleaving has the counts and sums of the sequential
      run; and a scrape can read a [_count]/[_sum] pair that no set of
      completed observations explains, on the self Summary and on the
      database Histogram.
    - Scrapes ([Scrape], C8, C9, C11, C23): the text [get_latest]
      returns after any run reads back as exactly the lines written
      (labels holding quotes, backslashes and newlines included); it
      shows one [_count] line per label tuple whose value is the number
      of requests, and for the database histogram one [_bucket] line
      per bound whose value is the number of recorded database
      latencies at most the bound; every sample belongs to the metric
      the registry maps its name to and carries that metric's label
      names.
    - The metric state ([Collector], [App], C12, C20): the invariant
      [inv] (well-formed metric objects, and counts, sums and histogram
      buckets equal to those the observation log determines) holds
      after [get_app] and is preserved by every request; hence the
      refinement of the aggregates by the log.
    - Construction ([Collector], C21): the default registry refuses a
      second [newCollector] in the same process.
    - The library ([Prometheus], C22): the cumulative [_bucket] samples
      computed from the non-cumulative counters count the observations
      at most each bound.

    Every theorem with hypotheses has a witness that applies it at a
    concrete input: the application built by [get_app] with the decimal
    instance of [PyParse], or two [GET /hello] requests and a scrape
    ([Concurrency.demo_schedule]).  Recursion is structural except the
    label reader [Exposition.parse_labels], whose fuel is the length of
    the text it reads (each round consumes at least one character, so
    that fuel is enough: [parse_labels_render]); [serve] and the
    schedules handle finite lists.

    ** Findings

    The theorems C7, C13, C15, C16, C17, C18, C21 and C24 state
    behaviour that departs from the specification: a scrape can read a
    torn [_count]/[_sum] pair (of a Summary or of a Histogram); a
    too-large sleep is an [OverflowError] that skips the database
    observation; ["/metrics/"] is observed; the metrics route fails in
    single-process mode; the hooks use a non-monotonic clock; label
    values of the self summary are chosen by clients; the metrics live
    in the global registry.

    ** Not modelled

    Werkzeug's HTML error bodies and redirect headers (the model keeps
    their status line); static files (the repository has no static
    folder, so Flask's static view answers 404);
    the WSGI server's sockets ([app.run] is modelled as serving a list
    of requests one after the other, and the threads of concurrent
    requests only for the updates of one metric, in [Concurrency],
    where the scraper reads a Histogram's buckets in one step); the text
    of the per-process files and their merge by [MultiProcessCollector]
    when its directory is configured (the merged text is a parameter
    [merged_text]); the printing of non-integral floats (the [GoFloat]
    interface states only that it has no newline); the default
    collectors (process, platform, GC) that [prometheus_client]
    registers at import, which the model's registry leaves out. *)

From stdpp Require Import base list strings.
From Stdlib Require Import QArith Lqa.

(** ** Python exceptions and the [PyM] monad *)

Inductive exn :=
| ValueError (msg : string)
| RuntimeError (msg : string)
| OverflowError (msg : string)
| SyntaxError (msg : string).

#[export] Instance exn_eq_dec : EqDecision exn.
Proof. solve_decision. Defined.

Inductive outcome (A : Type) :=
| Ret (a : A)
| Raise (e : exn).
Arguments Ret {A} a.
Arguments Raise {A} e.

(** A computation on the process state [S]: it returns or raises, and in
    both cases the state it leaves is kept. *)
Definition PyM (S A : Type) : Type := S -> outcome A * S.

Section Monad.
Context {S : Type}.

Definition ret {A} (a : A) : PyM S A := fun s => (Ret a, s).

Definition bind {A B} (m : PyM S A) (k : A -> PyM S B) : PyM S B :=
  fun s =>
    match m s with
    | (Ret a, s') => k a s'
    | (Raise e, s') => (Raise e, s')
    end.

Definition raise {A} (e : exn) : PyM S A := fun s => (Raise e, s).

Definition gets {A} (f : S -> A) : PyM S A := fun s => (Ret (f s), s).

Definition modify (f : S -> S) : PyM S unit := fun s => (Ret tt, f s).

Definition lift {A} (o : outcome A) : PyM S A := fun s => (o, s).

(** [try: m except E as e: h e] where [catches e] says whether [e] is
    an instance of [E]. *)
Definition try_except {A} (catches : exn -> bool) (m : PyM S A)
    (h : exn -> PyM S A) : PyM S A :=
  fun s =>
    match m s with
    | (Raise e, s') => if catches e then h e s' else (Raise e, s')
    | r => r
    end.
End Monad.

Definition is_runtime_error (e : exn) : bool :=
  match e with RuntimeError _ => true | _ => false end.

Declare Scope pym_scope.
Delimit Scope pym_scope with pym.
Notation "x <- m ;; k" := (bind m (fun x => k))
  (at level 100, m at next level, right associativity) : pym_scope.
Notation "m ;; k" := (bind m (fun _ => k))
  (at level 100, k at level 200, right associativity) : pym_scope.

Create HintDb pym discriminated.
Create Rewrite HintDb pym_run.

Section MonadLaws.
Context {S : Type}.

Lemma bind_ret_l {A B} (a : A) (k : A -> PyM S B) s :
  bind (ret a) k s = k a s.
Proof. reflexivity. Qed.

Lemma bind_Ret {A B} (m : PyM S A) (k : A -> PyM S B) s a s' :
  m s = (Ret a, s') -> bind m k s = k a s'.
Proof. intros H. unfold bind. by rewrite H. Qed.

Lemma bind_Raise {A B} (m : PyM S A) (k : A -> PyM S B) s e s' :
  m s = (Raise e, s') -> bind m k s = (Raise e, s').
Proof. intros H. unfold bind. by rewrite H. Qed.

Lemma bind_assoc {A B C} (m : PyM S A) (k : A -> PyM S B)
    (k' : B -> PyM S C) s :
  bind (bind m k) k' s = bind m (fun a => bind (k a) k') s.
Proof. unfold bind. destruct (m s) as [[a|e] s']; reflexivity. Qed.

Lemma bind_lift_Ret {A B} (a : A) (k : A -> PyM S B) s :
  bind (lift (Ret a)) k s = k a s.
Proof. reflexivity. Qed.

Lemma bind_Ret_inv {A B} (m : PyM S A) (k : A -> PyM S B) s b s' :
  bind m k s = (Ret b, s') -> exists a s1, m s = (Ret a, s1) /\ k a s1 = (Ret b, s').
Proof. unfold bind. destruct (m s) as [[a|e] s1]; [eauto|done]. Qed.

Lemma try_except_Ret {A} c (m : PyM S A) h s a s' :
  m s = (Ret a, s') -> try_except c m h s = (Ret a, s').
Proof. intros H. unfold try_except. by rewrite H. Qed.

Lemma try_except_caught {A} c (m : PyM S A) h s e s' :
  m s = (Raise e, s') -> c e = true -> try_except c m h s = h e s'.
Proof. intros H Hc. unfold try_except. by rewrite H, Hc. Qed.

Lemma try_except_uncaught {A} c (m : PyM S A) h s e s' :
  m s = (Raise e, s') -> c e = false -> try_except c m h s = (Raise e, s').
Proof. intros H Hc. unfold try_except. by rewrite H, Hc. Qed.
End MonadLaws.

#[export] Hint Rewrite @bind_ret_l : pym_run.

(** A computation preserves [P] when every run from a state satisfying
    [P] ends, returning or raising, in a state satisfying [P]. *)
Definition preserves {S A} (P : S -> Prop) (m : PyM S A) : Prop :=
  forall s, P s -> P (snd (m s)).

Section Preserves.
Context {S : Type} (P : S -> Prop).

Lemma preserves_ret {A} (a : A) : preserves P (ret a).
Proof. by intros s Hs. Qed.

Lemma preserves_raise {A} e : preserves P (@raise S A e).
Proof. by intros s Hs. Qed.

Lemma preserves_gets {A} (f : S -> A) : preserves P (gets f).
Proof. by intros s Hs. Qed.

Lemma preserves_lift {A} (o : outcome A) : preserves P (lift o).
Proof. by intros s Hs. Qed.

Lemma preserves_bind {A B} (m : PyM S A) (k : A -> PyM S B) :
  preserves P m -> (forall a, preserves P (k a)) -> preserves P (bind m k).
Proof.
  intros Hm Hk s Hs. unfold bind. specialize (Hm s Hs).
  destruct (m s) as [[a|e] s']; simpl in *; auto. apply Hk, Hm.
Qed.

Lemma preserves_try_except {A} c (m : PyM S A) h :
  preserves P m -> (forall e, preserves P (h e)) ->
  preserves P (try_except c m h).
Proof.
  intros Hm Hh s Hs. unfold try_except. specialize (Hm s Hs).
  destruct (m s) as [[a|e] s']; simpl in *; auto.
  destruct (c e); simpl; auto. apply Hh, Hm.
Qed.
End Preserves.

#[export] Hint Resolve preserves_ret preserves_raise preserves_gets preserves_lift : pym.

(** ** Rationals *)

(** Syntactic equality of rationals (not [Qeq]). *)
#[export] Instance Q_eq_dec : EqDecision Q.
Proof.
  intros [a b] [c d].
  destruct (decide (a = c)), (decide (b = d)); [left; by subst|right; congruence..].
Defined.

Lemma Qle_bool_false (x y : Q) : Qle_bool x y = false <-> y < x.
Proof.
  split.
  - intros H. apply Qnot_le_lt. intros Hle.
    apply Qle_bool_iff in Hle. congruence.
  - intros H. destruct (Qle_bool x y) eqn:E; [|done].
    apply Qle_bool_iff in E. exfalso. apply (Qlt_not_le y x H E).
Qed.

Lemma Qle_bool_true (x y : Q) : Qle_bool x y = true <-> x <= y.
Proof. apply Qle_bool_iff. Qed.

#[export] Instance Qle_decision : RelDecision Qle.
Proof.
  intros x y. destruct (Qle_bool x y) eqn:E; [left; by apply Qle_bool_true|].
  right. by apply Qle_bool_false, Qlt_not_le in E.
Defined.

(** Sums of a list of durations. *)
Definition Qsum (l : list Q) : Q := fold_right Qplus 0 l.

Lemma Qsum_app (l1 l2 : list Q) : Qsum (l1 ++ l2) == Qsum l1 + Qsum l2.
Proof.
  induction l1 as [|x l1 IH]; simpl.
  - lra.
  - rewrite IH. lra.
Qed.

Lemma Qsum_nonneg (l : list Q) : Forall (Qle 0) l -> 0 <= Qsum l.
Proof. induction 1; simpl; lra. Qed.

Lemma Qsum_perm (l1 l2 : list Q) : l1 ≡ₚ l2 -> Qsum l1 == Qsum l2.
Proof.
  induction 1 as [|x l1 l2 _ IH|x y l|l1 l2 l3 _ IH1 _ IH2]; simpl.
  - reflexivity.
  - rewrite IH. reflexivity.
  - lra.
  - by rewrite IH1, IH2.
Qed.

Lemma Permutation_List_filter {A} (f : A -> bool) (l1 l2 : list A) :
  l1 ≡ₚ l2 -> List.filter f l1 ≡ₚ List.filter f l2.
Proof.
  induction 1 as [|x l1 l2 _ IH|x y l|l1 l2 l3 _ IH1 _ IH2]; simpl.
  - done.
  - destruct (f x); [by constructor|done].
  - destruct (f x), (f y); try constructor; done.
  - by etrans.
Qed.

(** ** Strings *)

(** [s.replace(old, new)] on one-character [old]: every occurrence of
    the character [a] in [s] is replaced by the string [b]. *)
Fixpoint str_replace_char (s : string) (a : Ascii.ascii) (b : string) : string :=
  match s with
  | EmptyString => EmptyString
  | String c s' =>
      if Ascii.eqb c a then b +:+ str_replace_char s' a b
      else String c (str_replace_char s' a b)
  end.

(** stdpp makes [String.append] [simpl never]: its two equations. *)
Lemma sapp_nil_l (b : string) : EmptyString +:+ b = b.
Proof. reflexivity. Qed.

Lemma sapp_cons c (a b : string) : String c a +:+ b = String c (a +:+ b).
Proof. reflexivity. Qed.

Lemma sapp_assoc (a b c : string) : (a +:+ b) +:+ c = a +:+ b +:+ c.
Proof. induction a as [|x a IH]; [done|by rewrite !sapp_cons, IH]. Qed.

Lemma sapp_nil_r (a : string) : a +:+ EmptyString = a.
Proof. induction a as [|x a IH]; [done|by rewrite sapp_cons, IH]. Qed.

Lemma slength_app (a b : string) : String.length (a +:+ b) = (String.length a + String.length b)%nat.
Proof. induction a as [|x a IH]; [done|rewrite sapp_cons; simpl; by rewrite IH]. Qed.

Lemma str_replace_char_app (s1 s2 : string) a b :
  str_replace_char (s1 +:+ s2) a b = str_replace_char s1 a b +:+ str_replace_char s2 a b.
Proof.
  induction s1 as [|c s1 IH]; [done|]. rewrite sapp_cons. simpl.
  destruct (Ascii.eqb c a); by rewrite IH, ?sapp_assoc, ?sapp_cons.
Qed.

#[export] Hint Rewrite sapp_nil_l sapp_cons sapp_assoc sapp_nil_r str_replace_char_app : pym_run.

Ltac bool_to_prop :=
  repeat match goal with
  | H : Qle_bool _ _ = true |- _ => apply Qle_bool_true in H
  | H : Qle_bool _ _ = false |- _ => apply Qle_bool_false in H
  | H : String.eqb _ _ = true |- _ => apply String.eqb_eq in H
  | H : String.eqb _ _ = false |- _ => apply String.eqb_neq in H
  end.

(** Proves [preserves P m] by following the structure of [m]: binds,
    handlers, branches, and the hints of [pym] for the primitives. *)
Ltac solve_preserves :=
  repeat first
    [ solve [eauto with pym]
    | apply preserves_bind; [|intros ?]
    | apply preserves_try_except; [|intros ?]
    | apply preserves_ret | apply preserves_raise | apply preserves_gets | apply preserves_lift
    | match goal with
      | |- preserves _ (match ?x with _ => _ end) => destruct x
      | |- preserves _ (if ?b then _ else _) => destruct b
      | |- preserves _ (let _ := _ in _) => cbv zeta
      end ].
