(* ===== verification/PyRuntime.v ===== *)
(** * Python values and the parsing builtins the service calls

    [work_with_db] and [work_with_third_party] (main.py 89-90, 110-111)
    turn request parameters into values with [float(...)] and
    [ast.literal_eval(...)] and test the result with [if]. This file holds
    the values ([pyfloat], [pyval]), Python's truthiness, the conversion
    [float(request.args.get(k, 0))], and the interface [PyParse] through
    which the rest of the development uses the two builtins; the laws the
    handlers rely on are the class [PyParseLaws]. [DecimalParse] is a
    concrete instance on decimal floats and on the literals [True],
    [False], [None], signed integers and simple quoted strings. *)

From stdpp Require Import base list strings.
From Stdlib Require Import QArith ZArith Ascii DecimalString.
From S2P Require Import Prelude.

(** A Python float: finite values are exact rationals (rounding to a
    double is not modelled), plus the two infinities and NaN. *)
Inductive pyfloat :=
| PFin (q : Q)
| PInf (neg : bool)
| PNaN.

(** The values [ast.literal_eval] returns that the model distinguishes. *)
Inductive pyval :=
| PyNone
| PyBool (b : bool)
| PyInt (z : Z)
| PyFloat (f : pyfloat)
| PyStr (s : string).

(** [bool(v)], used by [if is_error:] in [mocked_call]. *)
Definition pyfloat_truthy (f : pyfloat) : bool :=
  match f with
  | PFin q => negb (Qeq_bool q 0)
  | PInf _ | PNaN => true
  end.

Definition py_truthy (v : pyval) : bool :=
  match v with
  | PyNone => false
  | PyBool b => b
  | PyInt z => negb (Z.eqb z 0)
  | PyFloat f => pyfloat_truthy f
  | PyStr s => negb (String.eqb s EmptyString)
  end.

(** [x > 0] on a float: false for NaN and for negative infinity. *)
Definition pyfloat_gt0 (f : pyfloat) : bool :=
  match f with
  | PFin q => negb (Qle_bool q 0)
  | PInf neg => negb neg
  | PNaN => false
  end.

(** [str(n)] for an int. *)
Definition py_str_int (z : Z) : string :=
  DecimalString.NilZero.string_of_int (Z.to_int z).

(** [request.args.get(key, default)]: the first value given for [key]. *)
Fixpoint args_get (args : list (string * string)) (key : string) : option string :=
  match args with
  | [] => None
  | (k, v) :: rest => if String.eqb k key then Some v else args_get rest key
  end.

(** ** The parsing builtins *)

Class PyParse := {
  (** [float(s)] on a string; [None] is the [ValueError] it raises. *)
  py_float : string -> option pyfloat;
  (** [ast.literal_eval(s)], raising [ValueError] or [SyntaxError]. *)
  py_literal_eval : string -> outcome pyval
}.

Class PyParseLaws `{PyParse} := {
  literal_eval_True : py_literal_eval "True" = Ret (PyBool true);
  literal_eval_False : py_literal_eval "False" = Ret (PyBool false)
}.

(** [float(request.args.get(key, 0))]: the default is the int [0]. *)
Definition float_of_arg `{PyParse} (a : option string) : outcome pyfloat :=
  match a with
  | None => Ret (PFin 0)
  | Some s =>
      match py_float s with
      | Some f => Ret f
      | None => Raise (ValueError ("could not convert string to float: '" +:+ s +:+ "'"))
      end
  end.

(** [ast.literal_eval(request.args.get(key, "False"))]. *)
Definition literal_of_arg `{PyParse} (a : option string) : outcome pyval :=
  py_literal_eval (default "False" a).

(** ** A concrete instance on decimal notation *)

Module DecimalParse.

Definition is_digit (c : ascii) : bool :=
  (48 <=? nat_of_ascii c)%nat && (nat_of_ascii c <=? 57)%nat.

Definition digit_val (c : ascii) : Z := Z.of_nat (nat_of_ascii c - 48).

(** Python's [str.isspace] on ASCII: 9-13, 28-31 and 32. *)
Definition is_space (c : ascii) : bool :=
  let n := nat_of_ascii c in
  ((9 <=? n) && (n <=? 13)) || ((28 <=? n) && (n <=? 32)).

Fixpoint lstrip (p : ascii -> bool) (s : string) : string :=
  match s with
  | String c s' => if p c then lstrip p s' else s
  | EmptyString => EmptyString
  end.

Fixpoint rev_str (s : string) (acc : string) : string :=
  match s with
  | String c s' => rev_str s' (String c acc)
  | EmptyString => acc
  end.

Definition strip (s : string) : string :=
  rev_str (lstrip is_space (rev_str (lstrip is_space s) EmptyString)) EmptyString.

(** The digits after a first one: [(["_"] digit)*]. *)
Fixpoint digits_tail (s : string) : list Z * string :=
  match s with
  | String c s' =>
      if is_digit c then let '(ds, r) := digits_tail s' in (digit_val c :: ds, r)
      else if Ascii.eqb c "_" then
        match s' with
        | String c2 s2 =>
            if is_digit c2 then let '(ds, r) := digits_tail s2 in (digit_val c2 :: ds, r)
            else ([], s)
        | EmptyString => ([], s)
        end
      else ([], s)
  | EmptyString => ([], EmptyString)
  end.

(** [digitpart ::= digit (["_"] digit)*]. *)
Definition digitpart (s : string) : option (list Z * string) :=
  match s with
  | String c s' =>
      if is_digit c then let '(ds, r) := digits_tail s' in Some (digit_val c :: ds, r)
      else None
  | EmptyString => None
  end.

Definition digits_value (ds : list Z) : Z := fold_left (fun acc d => 10 * acc + d)%Z ds 0%Z.

Definition sign (s : string) : bool * string :=
  match s with
  | String "-" s' => (true, s')
  | String "+" s' => (false, s')
  | _ => (false, s)
  end.

(** [mantissa] digits, number of fraction digits, rest. *)
Definition mantissa (s : string) : option (list Z * nat * string) :=
  match digitpart s with
  | Some (ip, String "." r) =>
      match digitpart r with
      | Some (fp, r') => Some (ip ++ fp, length fp, r')
      | None => Some (ip, 0%nat, r)
      end
  | Some (ip, r) => Some (ip, 0%nat, r)
  | None =>
      match s with
      | String "." r =>
          match digitpart r with
          | Some (fp, r') => Some (fp, length fp, r')
          | None => None
          end
      | _ => None
      end
  end.

Definition exponent (s : string) : option Z :=
  match s with
  | EmptyString => Some 0%Z
  | String c r =>
      if Ascii.eqb c "e" || Ascii.eqb c "E" then
        let '(neg, r') := sign r in
        match digitpart r' with
        | Some (ds, EmptyString) =>
            let e := digits_value ds in Some (if neg then (- e)%Z else e)
        | _ => None
        end
      else None
  end.

Definition lower (c : ascii) : ascii :=
  let n := nat_of_ascii c in
  if (65 <=? n) && (n <=? 90) then ascii_of_nat (n + 32) else c.

Fixpoint lower_str (s : string) : string :=
  match s with
  | String c s' => String (lower c) (lower_str s')
  | EmptyString => EmptyString
  end.

(** A decimal number without sign, as a rational. *)
Definition decimal (s : string) : option Q :=
  match mantissa s with
  | Some (ds, nfrac, r) =>
      match exponent r with
      | Some e => Some (inject_Z (digits_value ds) * Qpower (10 # 1) (e - Z.of_nat nfrac))
      | None => None
      end
  | None => None
  end.

Definition parse_float (s : string) : option pyfloat :=
  let '(neg, body) := sign (strip s) in
  let w := lower_str body in
  if String.eqb w "inf" || String.eqb w "infinity" then Some (PInf neg)
  else if String.eqb w "nan" then Some PNaN
  else match decimal body with
       | Some q => Some (PFin (if neg then - q else q))
       | None => None
       end.

Definition malformed : exn := ValueError "malformed node or string".

(** Integers: a single optional sign and a decimal literal without
    leading zeros (["0"+] apart). *)
Definition parse_int (s : string) : option Z :=
  let '(neg, body) := sign s in
  match digitpart body with
  | Some (ds, EmptyString) =>
      match ds with
      | 0%Z :: _ :: _ => if forallb (Z.eqb 0) ds then Some 0%Z else None
      | _ => let z := digits_value ds in Some (if neg then (- z)%Z else z)
      end
  | _ => None
  end.

Fixpoint has_char (c : ascii) (s : string) : bool :=
  match s with
  | String c' s' => Ascii.eqb c c' || has_char c s'
  | EmptyString => false
  end.

(** A quoted string without backslash or inner quote. *)
Definition parse_quoted (s : string) : option string :=
  match s with
  | String q body =>
      if Ascii.eqb q "'" || Ascii.eqb q "034" then
        match rev_str body EmptyString with
        | String q' rbody =>
            let inner := rev_str rbody EmptyString in
            if Ascii.eqb q' q && negb (has_char "\" inner)
               && negb (has_char q inner)
            then Some inner else None
        | EmptyString => None
        end
      else None
  | EmptyString => None
  end.

Definition int_like (s : string) : bool :=
  match digitpart (snd (sign s)) with
  | Some (_, EmptyString) => true
  | _ => false
  end.

Definition leading_zeros : exn :=
  SyntaxError "leading zeros in decimal integer literals are not permitted".

Definition literal_eval (s : string) : outcome pyval :=
  let t := strip (lstrip (fun c => Ascii.eqb c " " || Ascii.eqb c "009") s) in
  if String.eqb t "True" then Ret (PyBool true)
  else if String.eqb t "False" then Ret (PyBool false)
  else if String.eqb t "None" then Ret PyNone
  else match parse_int t with
       | Some z => Ret (PyInt z)
       | None =>
           if int_like t then Raise leading_zeros else
           match parse_quoted t with
           | Some str => Ret (PyStr str)
           | None =>
               let '(neg, body) := sign t in
               match decimal body with
               | Some q => Ret (PyFloat (PFin (if neg then - q else q)))
               | None => Raise malformed
               end
           end
       end.

#[export] Instance decimal_parse : PyParse :=
  {| py_float := parse_float; py_literal_eval := literal_eval |}.

#[export] Instance decimal_parse_laws : PyParseLaws.
Proof. split; reflexivity. Qed.

End DecimalParse.
