(* ===== verification/Prometheus.v ===== *)
(** * The part of [prometheus_client] the service uses

    [MetricCollector] (main.py 33-44) builds two [Summary] and one
    [Histogram] with label names, and observes durations through
    [metric.labels(k=v, ...).observe(d)].  These classes are library code,
    modelled here after the client's classic implementation
    ([metrics.py], [registry.py]):

    - a labelled metric is a parent ([family]) holding a dict from the
      tuple of label values to a child ([fam_metrics], an association
      list in insertion order, since the exposition iterates the dict);
    - a Summary child keeps [_count], [_sum], [_created]; a Histogram
      child keeps one non-cumulative counter per upper bound (the last
      bound is [+Inf]), [_sum] and [_created];
    - [labels] checks that the keyword names equal the label names as
      sorted lists and takes the values in label-name order;
    - the constructors validate the bucket list, the label names and the
      metric name, then register the metric's sample names, refusing a
      name already registered.

    Values are exact: counters are [nat], sums are rationals. *)

From stdpp Require Import base list strings gmap.
From Stdlib Require Import QArith Lqa Ascii.
From S2P Require Import Prelude.

(** ** Data *)

(** An upper bound of a histogram bucket: a float or [float("inf")]. *)
Inductive bound :=
| BFin (q : Q)
| BInf.

(** [amount <= bound]. *)
Definition le_bound (x : Q) (b : bound) : bool :=
  match b with
  | BFin q => Qle_bool x q
  | BInf => true
  end.

(** [bound1 <= bound2] on two bounds. *)
Definition bound_leb (b1 b2 : bound) : bool :=
  match b1, b2 with
  | _, BInf => true
  | BInf, BFin _ => false
  | BFin p, BFin q => Qle_bool p q
  end.

Inductive kind :=
| KSummary
| KHistogram (upper_bounds : list bound).

Inductive child :=
| SummaryChild (count : nat) (sum : Q) (created : Q)
| HistogramChild (buckets : list nat) (sum : Q) (created : Q).

Record family := mkFamily {
  fam_name : string;
  fam_doc : string;
  fam_labelnames : list string;
  fam_kind : kind;
  fam_metrics : list (list string * child)
}.

(** ** Children *)

(** [_metric_init]: fresh counters, [_created = time.time()]. *)
Definition child_init (k : kind) (now : Q) : child :=
  match k with
  | KSummary => SummaryChild 0 0 now
  | KHistogram ubs => HistogramChild (repeat 0%nat (length ubs)) 0 now
  end.

(** The loop of [Histogram.observe]: increment the first bucket whose
    upper bound is [>= amount], then [break]. *)
Fixpoint bump_first (ubs : list bound) (bs : list nat) (x : Q) : list nat :=
  match ubs, bs with
  | ub :: ubs', n :: bs' =>
      if le_bound x ub then S n :: bs' else n :: bump_first ubs' bs' x
  | _, _ => bs
  end.

(** [Summary.observe]: [_count.inc(1); _sum.inc(amount)];
    [Histogram.observe]: [_sum.inc(amount)] then the bucket loop. *)
Definition child_observe (k : kind) (c : child) (x : Q) : child :=
  match c, k with
  | SummaryChild n s t, _ => SummaryChild (S n) (s + x) t
  | HistogramChild bs s t, KHistogram ubs => HistogramChild (bump_first ubs bs x) (s + x) t
  | HistogramChild bs s t, KSummary => HistogramChild bs (s + x) t
  end.

Definition child_count (c : child) : nat :=
  match c with
  | SummaryChild n _ _ => n
  | HistogramChild bs _ _ => sum_list bs
  end.

Definition child_sum (c : child) : Q :=
  match c with
  | SummaryChild _ s _ | HistogramChild _ s _ => s
  end.

(** ** The dict of children *)

Fixpoint lookup_child (key : list string) (ms : list (list string * child)) : option child :=
  match ms with
  | [] => None
  | (k, c) :: ms' => if bool_decide (k = key) then Some c else lookup_child key ms'
  end.

(** [d[key] = c]: in place when present, appended otherwise. *)
Fixpoint set_child (key : list string) (c : child) (ms : list (list string * child))
    : list (list string * child) :=
  match ms with
  | [] => [(key, c)]
  | (k, c') :: ms' =>
      if bool_decide (k = key) then (k, c) :: ms' else (k, c') :: set_child key c ms'
  end.

(** ** [labels] *)

(** [sorted(names)] on strings: insertion sort by code points. *)
Fixpoint insert_sorted (x : string) (l : list string) : list string :=
  match l with
  | [] => [x]
  | y :: l' => if String.leb x y then x :: y :: l' else y :: insert_sorted x l'
  end.

Definition sort_strings (l : list string) : list string := fold_right insert_sorted [] l.

Fixpoint kw_lookup (kw : list (string * string)) (l : string) : string :=
  match kw with
  | [] => EmptyString
  | (k, v) :: kw' => if String.eqb k l then v else kw_lookup kw' l
  end.

(** The checks and the key computation of [labels] with keyword arguments: the
    values were converted with [str()] by the caller's side of the
    model. *)
Definition labels_key (f : family) (kw : list (string * string)) : outcome (list string) :=
  if bool_decide (fam_labelnames f = []) then
    Raise (ValueError ("No label names were set when constructing " +:+ fam_name f))
  else if bool_decide (sort_strings (map fst kw) <> sort_strings (fam_labelnames f)) then
    Raise (ValueError "Incorrect label names")
  else Ret (map (kw_lookup kw) (fam_labelnames f)).

(** The get-or-create under the parent's lock, given the creation time. *)
Definition fam_ensure_child (f : family) (key : list string) (now : Q) : family :=
  match lookup_child key (fam_metrics f) with
  | Some _ => f
  | None =>
      {| fam_name := fam_name f; fam_doc := fam_doc f;
         fam_labelnames := fam_labelnames f; fam_kind := fam_kind f;
         fam_metrics := fam_metrics f ++ [(key, child_init (fam_kind f) now)] |}
  end.

(** [child.observe(amount)] on the child stored under [key]. *)
Definition fam_observe (f : family) (key : list string) (x : Q) : family :=
  match lookup_child key (fam_metrics f) with
  | Some c =>
      {| fam_name := fam_name f; fam_doc := fam_doc f;
         fam_labelnames := fam_labelnames f; fam_kind := fam_kind f;
         fam_metrics := set_child key (child_observe (fam_kind f) c x) (fam_metrics f) |}
  | None => f
  end.

(** ** Construction *)

(** [Histogram._prepare_buckets]. *)
Fixpoint bounds_sorted (bs : list bound) : bool :=
  match bs with
  | b1 :: ((b2 :: _) as bs') => bound_leb b1 b2 && bounds_sorted bs'
  | _ => true
  end.

Definition ends_with_inf (bs : list bound) : bool :=
  match last bs with Some BInf => true | _ => false end.

Definition prepare_buckets (bs : list bound) : outcome (list bound) :=
  if negb (bounds_sorted bs) then Raise (ValueError "Buckets not in sorted order")
  else
    let bs' := if bool_decide (bs <> []) && negb (ends_with_inf bs) then bs ++ [BInf] else bs in
    if bool_decide (length bs' < 2)%nat then Raise (ValueError "Must have at least two buckets")
    else Ret bs'.

Definition is_alpha (c : ascii) : bool :=
  let n := nat_of_ascii c in ((65 <=? n) && (n <=? 90)) || ((97 <=? n) && (n <=? 122)).

Definition is_digit_char (c : ascii) : bool :=
  let n := nat_of_ascii c in (48 <=? n) && (n <=? 57).

(** [re.match(r'^[first][rest]*$', s)]: Python's [$] also matches just
    before a final newline. *)
Fixpoint all_chars (p : ascii -> bool) (s : string) : bool :=
  match s with
  | EmptyString => true
  | String c EmptyString => p c || Ascii.eqb c "010"
  | String c s' => p c && all_chars p s'
  end.

Definition regex_ident (first rest : ascii -> bool) (s : string) : bool :=
  match s with
  | String c s' => first c && all_chars rest s'
  | EmptyString => false
  end.

(** [METRIC_NAME_RE = ^[a-zA-Z_:][a-zA-Z0-9_:]*$]. *)
Definition metric_name_ok : string -> bool :=
  regex_ident (fun c => is_alpha c || Ascii.eqb c "_" || Ascii.eqb c ":")
              (fun c => is_alpha c || is_digit_char c || Ascii.eqb c "_" || Ascii.eqb c ":").

(** [METRIC_LABEL_NAME_RE = ^[a-zA-Z_][a-zA-Z0-9_]*$]. *)
Definition label_name_ok : string -> bool :=
  regex_ident (fun c => is_alpha c || Ascii.eqb c "_")
              (fun c => is_alpha c || is_digit_char c || Ascii.eqb c "_").

(** [RESERVED_METRIC_LABEL_NAME_RE = ^__.*$]. *)
Definition label_name_reserved (l : string) : bool :=
  match l with
  | String "_" (String "_" _) => true
  | _ => false
  end.

Definition reserved_labelnames (k : kind) : list string :=
  match k with
  | KSummary => ["quantile"]
  | KHistogram _ => ["le"]
  end.

(** [_validate_labelnames]: the first offending name raises. *)
Fixpoint validate_labelnames (k : kind) (ls : list string) : outcome unit :=
  match ls with
  | [] => Ret tt
  | l :: ls' =>
      if negb (label_name_ok l) then Raise (ValueError ("Invalid label metric name: " +:+ l))
      else if label_name_reserved l then Raise (ValueError ("Reserved label metric name: " +:+ l))
      else if bool_decide (l ∈ reserved_labelnames k) then
        Raise (ValueError ("Reserved label metric name: " +:+ l))
      else validate_labelnames k ls'
  end.

(** The checks of [MetricWrapperBase.__init__] (after [_prepare_buckets]
    for a histogram), giving the new parent with no child. *)
Definition make_family (name doc : string) (labelnames : list string) (k : kind)
    : outcome family :=
  match k with
  | KHistogram bs =>
      match prepare_buckets bs with
      | Raise e => Raise e
      | Ret bs' =>
          match validate_labelnames k labelnames with
          | Raise e => Raise e
          | Ret _ =>
              if metric_name_ok name then Ret (mkFamily name doc labelnames (KHistogram bs') [])
              else Raise (ValueError ("Invalid metric name: " +:+ name))
          end
      end
  | KSummary =>
      match validate_labelnames k labelnames with
      | Raise e => Raise e
      | Ret _ =>
          if metric_name_ok name then Ret (mkFamily name doc labelnames KSummary [])
          else Raise (ValueError ("Invalid metric name: " +:+ name))
      end
  end.

(** ** The registry *)

Record registry := mkRegistry {
  reg_collectors : list nat;
  reg_names : gmap string nat
}.

Definition empty_registry : registry := mkRegistry [] ∅.

(** The [type_suffixes] of [CollectorRegistry._get_names]. *)
Definition type_suffixes (k : kind) : list string :=
  match k with
  | KSummary => ["_sum"; "_count"; "_created"]
  | KHistogram _ => ["_bucket"; "_sum"; "_count"; "_created"]
  end.

Definition get_names (f : family) : list string :=
  fam_name f :: map (fun suf => fam_name f +:+ suf) (type_suffixes (fam_kind f)).

Definition duplicates (r : registry) (names : list string) : list string :=
  filter (fun n => is_Some (reg_names r !! n)) names.

(** [CollectorRegistry.register] of the collector stored at [id].  The
    message lists the duplicates in name order (Python prints a set). *)
Definition register (r : registry) (id : nat) (names : list string) : outcome registry :=
  match duplicates r names with
  | [] =>
      Ret (mkRegistry (reg_collectors r ++ [id])
                      (foldl (fun m n => <[n:=id]> m) (reg_names r) names))
  | dups =>
      Raise (ValueError ("Duplicated timeseries in CollectorRegistry: "
                         +:+ String.concat ", " dups))
  end.

(** ** Exposition of a histogram child *)

(** The running sum [acc] of [Histogram._multi_samples]: the value of
    each [_bucket] sample. *)
Fixpoint cumulative_from (acc : nat) (bs : list nat) : list nat :=
  match bs with
  | [] => []
  | n :: bs' => (acc + n)%nat :: cumulative_from (acc + n)%nat bs'
  end.

Definition cumulative (bs : list nat) : list nat := cumulative_from 0%nat bs.

(** ** Well-formedness of a metric family *)

(** A histogram's bounds are sorted and end with [+Inf]. *)
Definition kind_wf (k : kind) : Prop :=
  match k with
  | KSummary => True
  | KHistogram ubs => last ubs = Some BInf /\ bounds_sorted ubs = true
  end.

(** A child has the shape of its parent's kind. *)
Definition child_wf (k : kind) (c : child) : Prop :=
  match k, c with
  | KSummary, SummaryChild _ _ _ => True
  | KHistogram ubs, HistogramChild bs _ _ => length bs = length ubs
  | _, _ => False
  end.

Definition key_child_wf (f : family) (kc : list string * child) : Prop :=
  length kc.1 = length (fam_labelnames f) /\ child_wf (fam_kind f) kc.2.

Definition family_wf (f : family) : Prop :=
  kind_wf (fam_kind f) /\ NoDup (map fst (fam_metrics f)) /\
  Forall (key_child_wf f) (fam_metrics f).

#[export] Instance bound_eq_dec : EqDecision bound.
Proof. solve_decision. Defined.

#[export] Instance kind_eq_dec : EqDecision kind.
Proof. solve_decision. Defined.

#[export] Instance kind_wf_dec k : Decision (kind_wf k).
Proof. destruct k; simpl; apply _. Defined.

#[export] Instance child_wf_dec k c : Decision (child_wf k c).
Proof. destruct k, c; simpl; apply _. Defined.

#[export] Instance key_child_wf_dec f kc : Decision (key_child_wf f kc).
Proof. unfold key_child_wf. apply _. Defined.

#[export] Instance family_wf_dec f : Decision (family_wf f).
Proof. unfold family_wf. apply _. Defined.

(** ** The dict of children *)

Section Dict.
Implicit Types (ms : list (list string * child)) (key : list string) (c : child).

Lemma lookup_set_child_eq key c ms : lookup_child key (set_child key c ms) = Some c.
Proof.
  induction ms as [|[k c'] ms IH]; simpl; [by rewrite bool_decide_true|].
  case_bool_decide; simpl; [by rewrite bool_decide_true|].
  rewrite bool_decide_false by done. done.
Qed.

Lemma lookup_set_child_ne key key' c ms :
  key' <> key -> lookup_child key' (set_child key c ms) = lookup_child key' ms.
Proof.
  intros Hne. induction ms as [|[k c'] ms IH]; simpl.
  - by rewrite bool_decide_false.
  - case_bool_decide; simpl.
    + subst. rewrite !bool_decide_false by done. done.
    + by case_bool_decide.
Qed.

Lemma lookup_child_Some key c ms : lookup_child key ms = Some c -> (key, c) ∈ ms.
Proof.
  induction ms as [|[k c'] ms IH]; simpl; [done|].
  case_bool_decide as Hk; [intros [=]; subst; left|intros Hl; right; auto].
Qed.

Lemma lookup_child_None key ms : lookup_child key ms = None -> key ∉ map fst ms.
Proof.
  induction ms as [|[k c'] ms IH]; simpl; [set_solver|].
  case_bool_decide; [done|]. intros Hl. apply not_elem_of_cons. auto.
Qed.

Lemma lookup_child_snoc key key' c ms :
  lookup_child key (ms ++ [(key', c)]) =
    match lookup_child key ms with
    | Some c' => Some c'
    | None => if bool_decide (key' = key) then Some c else None
    end.
Proof.
  induction ms as [|kc ms IH]; simpl; [done|].
  destruct kc as [k0 c0]. destruct (bool_decide (k0 = key)); [done|exact IH].
Qed.

Lemma set_child_keys key c c0 ms :
  lookup_child key ms = Some c0 -> map fst (set_child key c ms) = map fst ms.
Proof.
  induction ms as [|[k c'] ms IH]; simpl; [done|].
  case_bool_decide; simpl; [by subst|]. intros Hl. by rewrite IH.
Qed.

Lemma Forall_set_child (P : list string * child -> Prop) key c ms :
  Forall P ms -> P (key, c) -> Forall P (set_child key c ms).
Proof.
  induction 1 as [|[k c'] ms Hkc Hms IH]; simpl; [by constructor|].
  intros Hp. case_bool_decide; subst; constructor; auto.
Qed.
End Dict.

#[export] Hint Resolve lookup_set_child_eq lookup_set_child_ne Forall_set_child : pym.

(** ** The bucket loop *)

Lemma bump_first_length ubs bs x : length (bump_first ubs bs x) = length bs.
Proof.
  revert bs. induction ubs as [|ub ubs IH]; intros [|n bs]; simpl; auto.
  destruct (le_bound x ub); simpl; auto.
Qed.

(** With [+Inf] last, exactly one bucket is incremented. *)
Lemma bump_first_sum ubs bs x :
  length bs = length ubs -> last ubs = Some BInf ->
  sum_list (bump_first ubs bs x) = S (sum_list bs).
Proof.
  revert bs. induction ubs as [|ub ubs IH]; intros [|n bs] Hlen Hlast;
    simpl in *; try done.
  destruct (le_bound x ub) eqn:Hle; simpl; [done|].
  destruct ubs as [|ub' ubs']; [simplify_eq/=; discriminate|].
  rewrite IH; [lia|lia|done].
Qed.

Lemma child_observe_wf k c x : child_wf k c -> child_wf k (child_observe k c x).
Proof. destruct k, c; simpl; try done. intros <-. apply bump_first_length. Qed.

Lemma child_init_wf k t : child_wf k (child_init k t).
Proof. destruct k; simpl; [done|]. apply repeat_length. Qed.

Lemma child_observe_count k c x :
  kind_wf k -> child_wf k c -> child_count (child_observe k c x) = S (child_count c).
Proof.
  destruct k, c; simpl; try done. intros [Hlast _] Hlen. by apply bump_first_sum.
Qed.

Lemma child_observe_sum k c x : child_sum (child_observe k c x) = child_sum c + x.
Proof. by destruct k, c. Qed.

Lemma child_init_count k t : child_count (child_init k t) = 0%nat.
Proof. destruct k; simpl; [done|]. induction (length upper_bounds); simpl; auto. Qed.

Lemma child_init_sum k t : child_sum (child_init k t) = 0.
Proof. by destruct k. Qed.

(** ** Cumulative buckets *)

(** The buckets after observing [obs] on a fresh histogram child. *)
Definition observe_buckets (ubs : list bound) (obs : list Q) : list nat :=
  fold_left (fun bs x => bump_first ubs bs x) obs (repeat 0%nat (length ubs)).

(** One per bound that is [>= x]: the spec's view of one observation. *)
Definition le_indicator (ubs : list bound) (x : Q) : list nat :=
  map (fun ub => if le_bound x ub then 1%nat else 0%nat) ubs.

Lemma le_bound_trans x b1 b2 :
  le_bound x b1 = true -> bound_leb b1 b2 = true -> le_bound x b2 = true.
Proof.
  destruct b1 as [p|], b2 as [q|]; simpl; try done.
  rewrite !Qle_bool_true. intros; eapply Qle_trans; eauto.
Qed.

Lemma le_indicator_all_ones ub ubs x :
  bounds_sorted (ub :: ubs) = true -> le_bound x ub = true ->
  le_indicator ubs x = repeat 1%nat (length ubs).
Proof.
  revert ub. induction ubs as [|ub' ubs IH]; intros ub Hs Hle; [done|].
  simpl in Hs. apply andb_true_iff in Hs as [H1 H2].
  assert (le_bound x ub' = true) as Hle' by eauto using le_bound_trans.
  simpl. rewrite Hle'. f_equal. eauto.
Qed.

Lemma cumulative_from_shift k acc bs :
  cumulative_from (k + acc) bs = map (Nat.add k) (cumulative_from acc bs).
Proof.
  revert acc. induction bs as [|n bs IH]; intros acc; simpl; [done|].
  rewrite <-IH, Nat.add_assoc. done.
Qed.

Lemma length_cumulative_from acc bs : length (cumulative_from acc bs) = length bs.
Proof. revert acc. induction bs; intros; simpl; auto. Qed.

Lemma zip_add_ones (l : list nat) n :
  length l = n -> zip_with Nat.add l (repeat 1%nat n) = map (Nat.add 1) l.
Proof.
  revert n. induction l as [|a l IH]; intros [|n] Hn; simpl in *; try lia; [done|].
  rewrite IH by lia. f_equal. lia.
Qed.

(** One observation adds its indicator to the cumulative counts. *)
Lemma cumulative_bump acc ubs bs x :
  bounds_sorted ubs = true -> length bs = length ubs ->
  cumulative_from acc (bump_first ubs bs x) =
    zip_with Nat.add (cumulative_from acc bs) (le_indicator ubs x).
Proof.
  revert acc bs. induction ubs as [|ub ubs IH]; intros acc [|n bs] Hs Hlen;
    simpl in *; try done.
  destruct (le_bound x ub) eqn:Hle; simpl.
  - erewrite le_indicator_all_ones by eauto.
    rewrite zip_add_ones by (rewrite length_cumulative_from; lia).
    rewrite <-cumulative_from_shift. f_equal; [lia|]. f_equal. lia.
  - rewrite Nat.add_0_r. f_equal. apply IH; [|lia].
    destruct ubs; [done|]. by apply andb_true_iff in Hs as [_ ?].
Qed.

Lemma zip_add_assoc (l1 l2 l3 : list nat) :
  zip_with Nat.add (zip_with Nat.add l1 l2) l3 = zip_with Nat.add l1 (zip_with Nat.add l2 l3).
Proof.
  revert l2 l3. induction l1; intros [|? ?] [|? ?]; simpl; auto. f_equal; auto. lia.
Qed.

Lemma zip_add_zeros (l : list nat) n :
  length l = n -> zip_with Nat.add l (repeat 0%nat n) = l.
Proof.
  revert n. induction l as [|a l IH]; intros [|n] Hn; simpl in *; try lia; [done|].
  rewrite IH by lia. f_equal. lia.
Qed.

Lemma zip_add_map {A} (f g : A -> nat) (l : list A) :
  zip_with Nat.add (map f l) (map g l) = map (fun a => f a + g a)%nat l.
Proof. induction l; simpl; f_equal; auto. Qed.

Lemma observe_fold_cumulative ubs obs bs :
  bounds_sorted ubs = true -> length bs = length ubs ->
  cumulative (fold_left (fun bs x => bump_first ubs bs x) obs bs) =
    zip_with Nat.add (cumulative bs)
      (map (fun ub => length (List.filter (fun x => le_bound x ub) obs)) ubs).
Proof.
  revert bs. induction obs as [|x obs IH]; intros bs Hs Hlen; simpl.
  - rewrite map_const, zip_add_zeros; [done|].
    unfold cumulative. by rewrite length_cumulative_from.
  - rewrite IH by (by rewrite ?bump_first_length). unfold cumulative.
    rewrite cumulative_bump by done. rewrite zip_add_assoc. f_equal.
    unfold le_indicator. rewrite zip_add_map. apply map_ext. intros ub.
    by destruct (le_bound x ub).
Qed.

Lemma cumulative_repeat0 n : cumulative (repeat 0%nat n) = repeat 0%nat n.
Proof. unfold cumulative. induction n; simpl; f_equal; auto. Qed.

Lemma zip_zeros_add (l : list nat) n :
  length l = n -> zip_with Nat.add (repeat 0%nat n) l = l.
Proof.
  revert n. induction l as [|a l IH]; intros [|n] Hn; simpl in *; try lia; [done|].
  rewrite IH by lia. done.
Qed.

(** C22: the [_bucket] sample of bound [ub], i.e. the running sum that
    [_multi_samples] computes over the non-cumulative buckets filled by
    [observe], counts exactly the observations [<= ub]: Prometheus's
    storage implements the spec's "increment every bucket whose bound is
    at least the duration". *)
Theorem histogram_cumulative_buckets ubs obs :
  bounds_sorted ubs = true ->
  cumulative (observe_buckets ubs obs) =
    map (fun ub => length (List.filter (fun x => le_bound x ub) obs)) ubs.
Proof.
  intros Hs. unfold observe_buckets.
  rewrite observe_fold_cumulative by (rewrite ?repeat_length; done).
  rewrite cumulative_repeat0. apply zip_zeros_add. by rewrite length_map.
Qed.

Example histogram_cumulative_buckets_witness :
  bounds_sorted [BFin (1#10); BFin 1; BInf] = true /\
  cumulative (observe_buckets [BFin (1#10); BFin 1; BInf] [1#20; 1#2; 3; 1]) = [1%nat; 3%nat; 4%nat].
Proof.
  split; [reflexivity|].
  rewrite (histogram_cumulative_buckets [BFin (1#10); BFin 1; BInf] [1#20; 1#2; 3; 1]);
    reflexivity.
Defined.

(** The cumulative bucket of bound number [j], read by index. *)
Lemma observe_buckets_cumulative_lookup ubs obs j ub :
  bounds_sorted ubs = true -> ubs !! j = Some ub ->
  cumulative (observe_buckets ubs obs) !! j = Some (length (List.filter (fun x => le_bound x ub) obs)).
Proof.
  intros Hs Hj. unfold observe_buckets.
  rewrite observe_fold_cumulative by (rewrite ?repeat_length; done).
  rewrite cumulative_repeat0, zip_zeros_add by (by rewrite length_map).
  change (map ?g ubs) with (g <$> ubs). by rewrite list_lookup_fmap, Hj.
Qed.

(** ** The invariant is preserved *)

Lemma fam_ensure_child_wf f key t :
  family_wf f -> length key = length (fam_labelnames f) -> family_wf (fam_ensure_child f key t).
Proof.
  intros (Hk & Hnd & Hall) Hlen. unfold fam_ensure_child.
  destruct (lookup_child key (fam_metrics f)) eqn:E; [done|].
  split_and!; simpl; [done| |].
  - rewrite map_app. apply NoDup_app. split_and!; [done| |by apply NoDup_singleton].
    intros k Hk' Hin. apply list_elem_of_singleton in Hin as ->.
    by apply (lookup_child_None key (fam_metrics f)).
  - apply Forall_app. split; [done|]. apply Forall_singleton.
    split; [done|]. apply child_init_wf.
Qed.

Lemma fam_observe_wf f key x : family_wf f -> family_wf (fam_observe f key x).
Proof.
  intros (Hk & Hnd & Hall). unfold fam_observe.
  destruct (lookup_child key (fam_metrics f)) as [c|] eqn:E; [|done].
  split_and!; simpl; [done| |].
  - by erewrite set_child_keys.
  - apply Forall_set_child; [done|].
    apply lookup_child_Some in E. eapply Forall_forall in Hall as [Hl Hc]; [|done].
    split; [done|]. by apply child_observe_wf.
Qed.

#[export] Hint Resolve fam_ensure_child_wf fam_observe_wf : pym.

(** What [fam_ensure_child] and [fam_observe] keep. *)
Definition same_shape (f f' : family) : Prop :=
  fam_name f' = fam_name f /\ fam_labelnames f' = fam_labelnames f /\ fam_kind f' = fam_kind f.

Lemma fam_ensure_child_shape f key t : same_shape f (fam_ensure_child f key t).
Proof. unfold fam_ensure_child. by destruct (lookup_child _ _). Qed.

Lemma fam_observe_shape f key x : same_shape f (fam_observe f key x).
Proof. unfold fam_observe. by destruct (lookup_child _ _). Qed.

(** The children after [fam_ensure_child] then [fam_observe]. *)
Lemma lookup_ensure_observe f key key' t x :
  lookup_child key' (fam_metrics (fam_observe (fam_ensure_child f key t) key x)) =
    if bool_decide (key' = key) then
      Some (child_observe (fam_kind f) (default (child_init (fam_kind f) t)
                                          (lookup_child key (fam_metrics f))) x)
    else lookup_child key' (fam_metrics f).
Proof.
  unfold fam_ensure_child, fam_observe.
  destruct (lookup_child key (fam_metrics f)) as [c|] eqn:E; simpl.
  - rewrite E. simpl. case_bool_decide; subst; [apply lookup_set_child_eq|].
    by apply lookup_set_child_ne.
  - rewrite lookup_child_snoc, E, bool_decide_true by done. simpl.
    case_bool_decide; subst; [apply lookup_set_child_eq|].
    rewrite lookup_set_child_ne, lookup_child_snoc by done.
    destruct (lookup_child key' (fam_metrics f)); [done|]. by rewrite bool_decide_false.
Qed.

(** ** [labels] *)

Lemma kw_lookup_map (kw : list (string * string)) :
  NoDup (map fst kw) -> map (kw_lookup kw) (map fst kw) = map snd kw.
Proof.
  induction kw as [|[k v] kw IH]; intros Hnd; simpl; [done|].
  apply NoDup_cons in Hnd as [Hnin Hnd].
  rewrite String.eqb_refl. f_equal. rewrite <-IH by done.
  apply map_ext_in. intros l Hl. simpl.
  destruct (String.eqb_spec k l); [|done]. subst.
  exfalso. apply Hnin. by apply list_elem_of_In.
Qed.

(** Keyword names given in the order of the label names (and distinct):
    the key is the list of values. *)
Lemma labels_key_ok f kw :
  fam_labelnames f <> [] -> map fst kw = fam_labelnames f -> NoDup (map fst kw) ->
  labels_key f kw = Ret (map snd kw).
Proof.
  intros Hne Hnames Hnd. unfold labels_key.
  rewrite bool_decide_false by done.
  rewrite Hnames, bool_decide_false by (intros Hs; by apply Hs).
  rewrite <-Hnames. by rewrite kw_lookup_map.
Qed.

(** ** Construction *)

Lemma bounds_sorted_snoc_inf bs : bounds_sorted bs = true -> bounds_sorted (bs ++ [BInf]) = true.
Proof.
  induction bs as [|b bs IH]; [done|]. destruct bs as [|b' bs]; simpl; [intros; by destruct b|].
  intros Hs. apply andb_true_iff in Hs as [H1 H2]. rewrite H1. simpl. apply IH, H2.
Qed.

Lemma prepare_buckets_wf bs bs' : prepare_buckets bs = Ret bs' -> kind_wf (KHistogram bs').
Proof.
  unfold prepare_buckets. intros H.
  destruct (bounds_sorted bs) eqn:Hs; simpl in H; [|discriminate].
  destruct bs as [|b bs0]; [vm_compute in H; done|].
  rewrite (bool_decide_true (b :: bs0 ≠ [])) in H by congruence. simpl in H.
  destruct (ends_with_inf (b :: bs0)) eqn:Hinf; simpl in H;
    case_bool_decide; simplify_eq.
  - split; [|done]. unfold ends_with_inf in Hinf. by destruct (last (b :: bs0)) as [[]|].
  - split; [by rewrite app_comm_cons, last_snoc|].
    rewrite app_comm_cons. by apply bounds_sorted_snoc_inf.
Qed.

Lemma make_family_wf name doc labelnames k f :
  make_family name doc labelnames k = Ret f ->
  family_wf f /\ fam_metrics f = [] /\ fam_name f = name /\ fam_labelnames f = labelnames.
Proof.
  unfold make_family. destruct k as [|bs].
  - destruct (validate_labelnames _ _); [|done]. destruct (metric_name_ok name); [|done].
    intros [=<-]. split_and!; try done. split_and!; simpl; try done; constructor.
  - destruct (prepare_buckets bs) as [bs'|] eqn:Hp; [|done].
    destruct (validate_labelnames _ _); [|done]. destruct (metric_name_ok name); [|done].
    intros [=<-]. pose proof (prepare_buckets_wf _ _ Hp).
    split_and!; try done. split_and!; simpl; try done; constructor.
Qed.

(** ** The registry *)

Lemma foldl_insert_is_Some (m : gmap string nat) (id : nat) (names : list string) k :
  is_Some (foldl (fun m n => <[n:=id]> m) m names !! k) <-> k ∈ names \/ is_Some (m !! k).
Proof.
  revert m. induction names as [|n names IH]; intros m; simpl.
  - set_solver.
  - rewrite IH, lookup_insert. case_decide; subst; set_solver.
Qed.

Lemma duplicates_nil r names :
  duplicates r names = [] -> forall n, n ∈ names -> reg_names r !! n = None.
Proof.
  unfold duplicates. intros Hd n Hn.
  destruct (reg_names r !! n) eqn:E; [|done]. exfalso.
  assert (n ∈ filter (fun n => is_Some (reg_names r !! n)) names) as Hin.
  { apply list_elem_of_filter. rewrite E. split; [by eexists|done]. }
  rewrite Hd in Hin. set_solver.
Qed.

(** A successful registration keeps the names already there and adds
    the new ones. *)
Lemma register_Ret r i names r' :
  register r i names = Ret r' ->
  forall n, is_Some (reg_names r' !! n) <-> n ∈ names \/ is_Some (reg_names r !! n).
Proof.
  unfold register. destruct (duplicates r names) eqn:Hd; [|done].
  intros [=<-] n. simpl. apply foldl_insert_is_Some.
Qed.

(** A name already registered makes the registration raise. *)
Lemma register_Raise r i names n :
  n ∈ names -> is_Some (reg_names r !! n) ->
  exists msg, register r i names = Raise (ValueError msg).
Proof.
  intros Hn Hs. unfold register. destruct (duplicates r names) eqn:Hd; [|by eexists].
  exfalso. pose proof (duplicates_nil r names Hd n Hn) as Hnone.
  rewrite Hnone in Hs. by destruct Hs.
Qed.

Lemma name_in_get_names f : fam_name f ∈ get_names f.
Proof. unfold get_names. left. Qed.
