(* ===== verification/Collector.v ===== *)
(** * The process state and [MetricCollector] (main.py 10-54)

    [World] is what the Python process keeps between requests: the metric
    objects ([w_heap], addressed by index: the collector and the registry
    hold references to the same objects), the default registry, the wall
    clock read by [time.time()] and the environment variable
    [PROMETHEUS_MULTIPROC_DIR].  [newCollector] builds the three metrics
    and registers them; [observe_myself], [observe_db] and
    [observe_external] are [labels(...)] followed by [observe].

    [w_log] is ghost state, not a variable of the program: the list of
    observations made so far, in order.  The refinement theorem
    [aggregates_refine_log] shows that the counts and sums Prometheus keeps
    are the ones this log determines; the invariant [inv] also ties the
    buckets of every Histogram child to the log ([buckets_consistent]). *)

From stdpp Require Import base list strings gmap.
From Stdlib Require Import QArith Qround Lqa ZArith.
From S2P Require Import Prelude PyRuntime Prometheus.

(** One call of [observe] on the child [ob_key] of the metric at [ob_metric]. *)
Record observation := mkObs {
  ob_metric : nat;
  ob_key : list string;
  ob_value : Q
}.

Record World := mkWorld {
  w_clock : Q;
  (** The change of the wall clock before each coming [time.time()]:
      the time spent computing, or a negative step when it is set back. *)
  w_ticks : list Q;
  w_heap : list family;
  w_registry : registry;
  (** [PROMETHEUS_MULTIPROC_DIR] names an existing directory. *)
  w_multiproc_dir : bool;
  w_log : list observation
}.

Abbreviation M := (PyM World).

Local Open Scope pym_scope.

Definition set_clock (c : Q) (ts : list Q) (w : World) : World :=
  mkWorld c ts (w_heap w) (w_registry w) (w_multiproc_dir w) (w_log w).

Definition set_heap (h : list family) (w : World) : World :=
  mkWorld (w_clock w) (w_ticks w) h (w_registry w) (w_multiproc_dir w) (w_log w).

Definition set_registry (r : registry) (w : World) : World :=
  mkWorld (w_clock w) (w_ticks w) (w_heap w) r (w_multiproc_dir w) (w_log w).

Definition log_obs (o : observation) (w : World) : World :=
  mkWorld (w_clock w) (w_ticks w) (w_heap w) (w_registry w) (w_multiproc_dir w)
    (w_log w ++ [o]).

(** ** Time *)

(** [time.time()]. *)
Definition time_time : M Q :=
  fun w =>
    match w_ticks w with
    | [] => (Ret (w_clock w), w)
    | d :: ds => (Ret (w_clock w + d), set_clock (w_clock w + d) ds w)
    end.

(** [time.sleep(secs)]: the duration is converted to nanoseconds rounding
    up ([_PyTime_ROUND_TIMEOUT]); a value outside the 64-bit range raises
    [OverflowError], NaN and negative values [ValueError]. *)
Definition ns_per_s : Z := 1000000000.
Definition pytime_max : Z := 9223372036854775807.

Definition time_sleep (f : pyfloat) : M unit :=
  match f with
  | PNaN => raise (ValueError "Invalid value NaN (not a number)")
  | PInf _ => raise (OverflowError "timestamp too large to convert to C _PyTime_t")
  | PFin q =>
      let ns := Qceiling (q * inject_Z ns_per_s) in
      if (pytime_max <? ns)%Z || (ns <? - pytime_max - 1)%Z then
        raise (OverflowError "timestamp too large to convert to C _PyTime_t")
      else if (ns <? 0)%Z then raise (ValueError "sleep length must be non-negative")
      else fun w =>
        let c := w_clock w + inject_Z ns / inject_Z ns_per_s in
        (Ret tt, set_clock c (w_ticks w) w)
  end.

(** ** The heap of metric objects *)

Definition heap_alter (i : nat) (g : family -> family) (w : World) : World :=
  match w_heap w !! i with
  | Some f => set_heap (<[i:=g f]> (w_heap w)) w
  | None => w
  end.

(** Allocation of a new object: its reference is the next index. *)
Definition alloc (f : family) : M nat :=
  fun w => (Ret (length (w_heap w)), set_heap (w_heap w ++ [f]) w).

(** [metric.labels(k=v, ...)] then [.observe(x)] on the metric at [i]; the
    child is created (reading the clock for [_created]) on first use. *)
Definition labels_observe (i : nat) (kw : list (string * string)) (x : Q) : M unit :=
  fo <- gets (fun w => w_heap w !! i) ;;
  match fo with
  | None => ret tt
  | Some f =>
      key <- lift (labels_key f kw) ;;
      match lookup_child key (fam_metrics f) with
      | Some _ => ret tt
      | None => t <- time_time ;; modify (heap_alter i (fun f => fam_ensure_child f key t))
      end ;;
      modify (heap_alter i (fun f => fam_observe f key x)) ;;
      modify (log_obs (mkObs i key x))
  end.

(** [Summary(...)] / [Histogram(...)] with the default [registry=REGISTRY]. *)
Definition new_metric (name doc : string) (labelnames : list string) (k : kind) : M nat :=
  f <- lift (make_family name doc labelnames k) ;;
  i <- alloc f ;;
  r <- gets w_registry ;;
  r' <- lift (register r i (get_names f)) ;;
  modify (set_registry r') ;;
  ret i.

(** ** [MetricCollector] *)

Record MetricCollector := mkCollector {
  mc_me : nat;
  mc_db : nat;
  mc_external : nat
}.

Definition STATUS_CODE : string := "status_code".
Definition PATH : string := "path".
Definition HTTP_METHOD : string := "method".

Definition db_buckets : list bound :=
  [BFin (1#10); BFin (1#4); BFin (1#2); BFin (3#4); BFin (9#10); BFin 1; BFin (5#2)].

Definition newCollector (service_name : string) : M MetricCollector :=
  let prefix := str_replace_char service_name (Ascii.ascii_of_nat 45) "_" in
  about_me <- new_metric (prefix +:+ "_duration_seconds")
                (service_name +:+ " latency request distribution")
                [PATH; HTTP_METHOD; STATUS_CODE] KSummary ;;
  about_db <- new_metric (prefix +:+ "_database_duration_seconds")
                "database latency request distribution"
                [STATUS_CODE; "sql_state"] (KHistogram db_buckets) ;;
  about_her <- new_metric (prefix +:+ "_audit_duration_seconds")
                 "audit service latency request distribution"
                 [STATUS_CODE] KSummary ;;
  ret (mkCollector about_me about_db about_her).

Definition get_collector (name : string) : M MetricCollector := newCollector name.

(** The status code of a response is an [int]: [labels] applies [str]. *)
Definition observe_myself (mc : MetricCollector) (path method : string) (status_code : Z)
    (duration : Q) : M unit :=
  labels_observe (mc_me mc)
    [("path", path); ("method", method); ("status_code", py_str_int status_code)] duration.

Definition observe_db (mc : MetricCollector) (status_code sql_state : string) (duration : Q)
    : M unit :=
  labels_observe (mc_db mc) [("status_code", status_code); ("sql_state", sql_state)] duration.

Definition observe_external (mc : MetricCollector) (status_code : string) (duration : Q)
    : M unit :=
  labels_observe (mc_external mc) [("status_code", status_code)] duration.

(** ** Views of the state *)

(** The clock after one reading. *)
Definition tick (w : World) : World :=
  match w_ticks w with
  | [] => w
  | d :: ds => set_clock (w_clock w + d) ds w
  end.

Definition child_at (w : World) (i : nat) (key : list string) : option child :=
  match w_heap w !! i with
  | Some f => lookup_child key (fam_metrics f)
  | None => None
  end.

(** The [_count] and [_sum] samples of a child (0 before it exists). *)
Definition count_at (w : World) (i : nat) (key : list string) : nat :=
  match child_at w i key with Some c => child_count c | None => 0%nat end.

Definition sum_at (w : World) (i : nat) (key : list string) : Q :=
  match child_at w i key with Some c => child_sum c | None => 0 end.

Definition obs_at (i : nat) (key : list string) (o : observation) : bool :=
  Nat.eqb (ob_metric o) i && bool_decide (ob_key o = key).

Definition log_count (log : list observation) (i : nat) (key : list string) : nat :=
  length (List.filter (obs_at i key) log).

Definition log_sum (log : list observation) (i : nat) (key : list string) : Q :=
  Qsum (map ob_value (List.filter (obs_at i key) log)).

(** ** The invariant *)

Definition world_wf (w : World) : Prop :=
  Forall family_wf (w_heap w) /\ Forall (fun o => ob_metric o < length (w_heap w))%nat (w_log w).

(** The abstract state: every count and sum is the one of the log. *)
Definition log_consistent (w : World) : Prop :=
  forall i key, count_at w i key = log_count (w_log w) i key /\
                sum_at w i key == log_sum (w_log w) i key.

(** The values observed on the child [key] of the metric at [i], in order. *)
Definition log_values (log : list observation) (i : nat) (key : list string) : list Q :=
  map ob_value (List.filter (obs_at i key) log).

(** The buckets of every Histogram child are those its observations fill. *)
Definition buckets_consistent (w : World) : Prop :=
  forall i f key, w_heap w !! i = Some f ->
    match fam_kind f, lookup_child key (fam_metrics f) with
    | KHistogram ubs, Some (HistogramChild bs _ _) => bs = observe_buckets ubs (log_values (w_log w) i key)
    | _, _ => True
    end.

Definition inv (w : World) : Prop := world_wf w /\ log_consistent w /\ buckets_consistent w.

(** The process before [get_app]: no metric, empty registry. *)
Definition init_world (clock : Q) (ticks : list Q) (multiproc_dir : bool) : World :=
  mkWorld clock ticks [] empty_registry multiproc_dir [].

(** The metric objects the collector refers to exist with their labels. *)
Definition family_has (w : World) (i : nat) (labelnames : list string) (k : kind) : Prop :=
  match w_heap w !! i with
  | Some f => fam_labelnames f = labelnames /\ fam_kind f = k
  | None => False
  end.

Definition collector_wf (mc : MetricCollector) (w : World) : Prop :=
  family_has w (mc_me mc) [PATH; HTTP_METHOD; STATUS_CODE] KSummary /\
  family_has w (mc_db mc) [STATUS_CODE; "sql_state"] (KHistogram (db_buckets ++ [BInf])) /\
  family_has w (mc_external mc) [STATUS_CODE] KSummary.

#[export] Instance family_has_dec w i ls k : Decision (family_has w i ls k).
Proof. unfold family_has. destruct (w_heap w !! i); apply _. Defined.

#[export] Instance collector_wf_dec mc w : Decision (collector_wf mc w).
Proof. unfold collector_wf. apply _. Defined.

(** ** Basic run lemmas *)

Lemma time_time_tick w : time_time w = (Ret (w_clock (tick w)), tick w).
Proof. unfold time_time, tick. by destruct (w_ticks w). Qed.

Lemma tick_heap w : w_heap (tick w) = w_heap w.
Proof. unfold tick. by destruct (w_ticks w). Qed.

Lemma tick_log w : w_log (tick w) = w_log w.
Proof. unfold tick. by destruct (w_ticks w). Qed.

Lemma tick_registry w : w_registry (tick w) = w_registry w.
Proof. unfold tick. by destruct (w_ticks w). Qed.

Lemma tick_multiproc w : w_multiproc_dir (tick w) = w_multiproc_dir w.
Proof. unfold tick. by destruct (w_ticks w). Qed.

#[export] Hint Rewrite tick_heap tick_log tick_registry tick_multiproc : pym_run.

Lemma labels_key_length f kw key :
  labels_key f kw = Ret key -> length key = length (fam_labelnames f).
Proof.
  unfold labels_key. repeat case_bool_decide; intros; simplify_eq. apply length_map.
Qed.

(** [labels(...).observe(x)] on an existing metric whose label check
    passes: the heap holds the observed family, the clock was read at
    most once (for [_created]) and the observation is logged. *)
Lemma labels_observe_run i kw x w f key :
  w_heap w !! i = Some f -> labels_key f kw = Ret key ->
  exists t w1, (w1 = w \/ w1 = tick w) /\
    labels_observe i kw x w =
      (Ret tt, log_obs (mkObs i key x)
                 (set_heap (<[i:=fam_observe (fam_ensure_child f key t) key x]> (w_heap w)) w1)).
Proof.
  intros Hf Hk. unfold labels_observe, bind, gets, lift, modify, ret.
  rewrite Hf, Hk.
  destruct (lookup_child key (fam_metrics f)) as [c|] eqn:Hc.
  - exists 0, w. split; [by left|]. unfold heap_alter. rewrite Hf.
    unfold fam_ensure_child. rewrite Hc. done.
  - rewrite time_time_tick. exists (w_clock (tick w)), (tick w). split; [by right|].
    unfold heap_alter. rewrite tick_heap, Hf. simpl.
    rewrite list_lookup_insert_eq by (eapply lookup_lt_Some; eauto).
    rewrite list_insert_insert_eq. done.
Qed.

(** ** The invariant is preserved *)

Lemma inv_ext w w' : w_heap w' = w_heap w -> w_log w' = w_log w -> inv w -> inv w'.
Proof.
  unfold inv, world_wf, log_consistent, buckets_consistent, count_at, sum_at, child_at.
  intros -> ->. done.
Qed.

Lemma obs_at_true i key i' key' x :
  obs_at i' key' (mkObs i key x) = true <-> i = i' /\ key = key'.
Proof.
  unfold obs_at. simpl. rewrite andb_true_iff, Nat.eqb_eq, bool_decide_eq_true. done.
Qed.

Lemma log_count_snoc log o i key :
  log_count (log ++ [o]) i key = (log_count log i key + if obs_at i key o then 1 else 0)%nat.
Proof.
  unfold log_count. rewrite List.filter_app, length_app. simpl.
  by destruct (obs_at i key o).
Qed.

Lemma log_sum_snoc log o i key :
  log_sum (log ++ [o]) i key == log_sum log i key + if obs_at i key o then ob_value o else 0.
Proof.
  unfold log_sum. rewrite List.filter_app, map_app, Qsum_app. simpl.
  destruct (obs_at i key o); simpl; lra.
Qed.

Lemma log_values_snoc log o i key :
  log_values (log ++ [o]) i key = log_values log i key ++ if obs_at i key o then [ob_value o] else [].
Proof. unfold log_values. rewrite List.filter_app, map_app. simpl. by destruct (obs_at i key o). Qed.

Lemma log_values_nil log i key : log_count log i key = 0%nat -> log_values log i key = [].
Proof. unfold log_count, log_values. intros H%nil_length_inv. by rewrite H. Qed.

Lemma observe_buckets_snoc ubs obs x :
  observe_buckets ubs (obs ++ [x]) = bump_first ubs (observe_buckets ubs obs) x.
Proof. unfold observe_buckets. by rewrite fold_left_app. Qed.

Lemma count_default k t (oc : option child) :
  child_count (default (child_init k t) oc) = match oc with Some c => child_count c | None => 0%nat end.
Proof. destruct oc; simpl; [done|]. apply child_init_count. Qed.

Lemma sum_default k t (oc : option child) :
  child_sum (default (child_init k t) oc) = match oc with Some c => child_sum c | None => 0 end.
Proof. destruct oc; simpl; [done|]. apply child_init_sum. Qed.

Lemma default_child_wf f key t :
  family_wf f -> child_wf (fam_kind f) (default (child_init (fam_kind f) t) (lookup_child key (fam_metrics f))).
Proof.
  intros (_ & _ & Hall). destruct (lookup_child key _) as [c|] eqn:E; simpl; [|apply child_init_wf].
  apply lookup_child_Some in E. by eapply Forall_forall in Hall as [_ ?]; [|done].
Qed.

(** The observed family stays well formed, and the log stays consistent. *)
Lemma inv_observed w w1 i f key t x :
  inv w -> w_heap w !! i = Some f -> length key = length (fam_labelnames f) ->
  w_heap w1 = w_heap w -> w_log w1 = w_log w ->
  inv (log_obs (mkObs i key x)
         (set_heap (<[i:=fam_observe (fam_ensure_child f key t) key x]> (w_heap w)) w1)).
Proof.
  intros [[Hwf Hb] [Hc Hbk]] Hf Hlen Hh1 Hl1.
  assert (family_wf f) as Hff by (eapply Forall_lookup_1; eauto).
  assert (i < length (w_heap w))%nat by (eapply lookup_lt_Some; eauto).
  split; [split|split]; simpl.
  - apply Forall_insert; [done|]. auto with pym.
  - rewrite length_insert, Hl1. apply Forall_app. split; [done|]. by apply Forall_singleton.
  - intros i' key'. unfold count_at, sum_at, child_at. simpl.
    rewrite log_count_snoc, log_sum_snoc, Hl1.
    destruct (Hc i' key') as [Hcnt Hsum]. unfold count_at, sum_at, child_at in Hcnt, Hsum.
    rewrite list_lookup_insert. case_decide as Hi; [destruct Hi as [<- _]|].
    + rewrite Hf in Hcnt, Hsum. rewrite lookup_ensure_observe.
      case_bool_decide as Hk; [subst key'|].
      * assert (obs_at i key (mkObs i key x) = true) as ->
          by (apply obs_at_true; split; reflexivity).
        pose proof (proj1 Hff) as Hkind.
        rewrite child_observe_count
          by first [done | by apply default_child_wf].
        rewrite count_default, child_observe_sum, sum_default.
        split; [lia|]. rewrite <-Hsum. simpl. reflexivity.
      * assert (obs_at i key' (mkObs i key x) = false) as ->.
        { apply not_true_iff_false. rewrite obs_at_true. naive_solver. }
        split; [lia|]. rewrite Hsum. lra.
    + assert (obs_at i' key' (mkObs i key x) = false) as ->.
      { apply not_true_iff_false. rewrite obs_at_true. naive_solver lia. }
      split; [lia|]. rewrite Hsum. lra.
  - intros i' f' key' Hf'. simpl in Hf'. cbn [log_obs set_heap w_log]. rewrite log_values_snoc, Hl1.
    rewrite list_lookup_insert in Hf'. case_decide as Hi; [destruct Hi as [<- _]|].
    + injection Hf' as <-. destruct (fam_observe_shape (fam_ensure_child f key t) key x) as (_ & _ & ->).
      destruct (fam_ensure_child_shape f key t) as (_ & _ & ->).
      destruct (fam_kind f) as [|ubs] eqn:Hk; [done|].
      specialize (Hbk i f key' Hf). rewrite Hk in Hbk.
      rewrite lookup_ensure_observe, Hk. case_bool_decide as Hkey; [subst key'|].
      * rewrite (proj2 (obs_at_true i key i key x) (conj eq_refl eq_refl)).
        destruct (lookup_child key (fam_metrics f)) as [[n s t0|bs s t0]|] eqn:Hc0; simpl; [done| |].
        -- by rewrite observe_buckets_snoc, Hbk.
        -- destruct (Hc i key) as [Hcnt _]. unfold count_at, child_at in Hcnt. rewrite Hf, Hc0 in Hcnt.
           by rewrite log_values_nil by done.
      * assert (obs_at i key' (mkObs i key x) = false) as ->.
        { apply not_true_iff_false. rewrite obs_at_true. naive_solver. }
        by rewrite app_nil_r.
    + assert (obs_at i' key' (mkObs i key x) = false) as ->.
      { apply not_true_iff_false. rewrite obs_at_true. naive_solver lia. }
      rewrite app_nil_r. exact (Hbk i' f' key' Hf').
Qed.

Lemma preserves_labels_observe i kw x : preserves inv (labels_observe i kw x).
Proof.
  intros w Hinv. destruct (w_heap w !! i) as [f|] eqn:Hf.
  - destruct (labels_key f kw) as [key|e] eqn:Hk.
    + destruct (labels_observe_run i kw x w f key Hf Hk) as (t & w1 & Hw1 & ->). simpl.
      apply inv_observed; [done|done|by eapply labels_key_length|..];
        destruct Hw1 as [->| ->]; autorewrite with pym_run; done.
    + unfold labels_observe, bind, gets, lift. by rewrite Hf, Hk.
  - unfold labels_observe, bind, gets, ret. by rewrite Hf.
Qed.

Lemma preserves_time_time : preserves inv time_time.
Proof.
  intros w Hw. rewrite time_time_tick. simpl.
  eapply inv_ext; [..|exact Hw]; autorewrite with pym_run; done.
Qed.

Lemma preserves_time_sleep f : preserves inv (time_sleep f).
Proof.
  intros w Hw. unfold time_sleep.
  destruct f as [q| |]; simpl; try done. repeat case_match; simpl; try done.
Qed.

Lemma preserves_modify_registry r : preserves inv (modify (set_registry r)).
Proof. intros w Hw. by apply (inv_ext w). Qed.

#[export] Hint Resolve preserves_labels_observe preserves_time_time preserves_time_sleep
  preserves_modify_registry : pym.

(** ** Construction of the collector *)

Lemma new_metric_Ret name doc ls k w i w' :
  new_metric name doc ls k w = (Ret i, w') ->
  exists f, make_family name doc ls k = Ret f /\ i = length (w_heap w) /\
    w_heap w' = w_heap w ++ [f] /\ w_log w' = w_log w /\
    register (w_registry w) i (get_names f) = Ret (w_registry w').
Proof.
  unfold new_metric, bind, lift, alloc, gets, modify, ret.
  destruct (make_family name doc ls k) as [f|e]; [|done].
  destruct (register _ _ _) as [r'|e] eqn:Hr; intros [=<- <-]; simpl.
  by exists f.
Qed.

Lemma new_metric_dup name doc ls k w f :
  make_family name doc ls k = Ret f -> is_Some (reg_names (w_registry w) !! name) ->
  exists msg, fst (new_metric name doc ls k w) = Raise (ValueError msg).
Proof.
  intros Hf Hs. destruct (make_family_wf _ _ _ _ _ Hf) as (_ & _ & Hname & _).
  destruct (register_Raise (w_registry w) (length (w_heap w)) (get_names f) name)
    as [msg Hmsg]; [rewrite <-Hname; apply name_in_get_names|done|].
  exists msg. unfold new_metric, bind, lift, alloc, gets. rewrite Hf. simpl. by rewrite Hmsg.
Qed.

Lemma new_metric_keeps_names name doc ls k w i w' n :
  new_metric name doc ls k w = (Ret i, w') ->
  is_Some (reg_names (w_registry w) !! n) -> is_Some (reg_names (w_registry w') !! n).
Proof.
  intros (f & _ & _ & _ & _ & Hr)%new_metric_Ret Hn.
  eapply register_Ret in Hr. apply Hr. by right.
Qed.

Lemma new_metric_registers name doc ls k w i w' :
  new_metric name doc ls k w = (Ret i, w') -> is_Some (reg_names (w_registry w') !! name).
Proof.
  intros (f & Hf & _ & _ & _ & Hr)%new_metric_Ret.
  destruct (make_family_wf _ _ _ _ _ Hf) as (_ & _ & Hname & _).
  eapply register_Ret in Hr. apply Hr. left. rewrite <-Hname. apply name_in_get_names.
Qed.

(** C21: the metrics are registered in the process-wide default registry:
    once [newCollector] has succeeded, calling it again with the same
    service name in the same process raises [ValueError] (duplicated
    timeseries), so [get_app] can build the application only once per
    process. *)
Theorem newCollector_twice_raises s w mc w' :
  newCollector s w = (Ret mc, w') ->
  exists msg w'', newCollector s w' = (Raise (ValueError msg), w'').
Proof.
  unfold newCollector. intros H.
  apply bind_Ret_inv in H as (i1 & w1 & H1 & H).
  apply bind_Ret_inv in H as (i2 & w2 & H2 & H).
  apply bind_Ret_inv in H as (i3 & w3 & H3 & H). unfold ret in H. simplify_eq.
  pose proof H1 as (f & Hf & _)%new_metric_Ret.
  assert (is_Some (reg_names (w_registry w') !! (str_replace_char s (Ascii.ascii_of_nat 45) "_"
                                                   +:+ "_duration_seconds"))) as Hreg.
  { eapply new_metric_keeps_names; [exact H3|].
    eapply new_metric_keeps_names; [exact H2|]. eapply new_metric_registers; exact H1. }
  destruct (new_metric_dup _ _ _ _ w' f Hf Hreg) as [msg Hmsg].
  exists msg. unfold bind at 1. destruct (new_metric _ _ _ _ w') as [o w''].
  simpl in Hmsg. subst o. by exists w''.
Qed.

Example newCollector_twice_raises_witness :
  exists msg w'', newCollector "order-mgmt" (snd (newCollector "order-mgmt" (init_world 0 [] false)))
                  = (Raise (ValueError msg), w'').
Proof.
  apply (newCollector_twice_raises "order-mgmt" (init_world 0 [] false)
           (mkCollector 0 1 2)).
  vm_compute. reflexivity.
Defined.

(** ** How a request may change the state *)

Definition ticks_nonneg (w : World) : Prop := Forall (Qle 0) (w_ticks w).

(** The metric objects keep their names, labels and kinds, the registry
    and the environment do not change, and with non-negative clock
    adjustments the clock does not go back. *)
Definition evolves (w w' : World) : Prop :=
  Forall2 same_shape (w_heap w) (w_heap w') /\
  w_registry w' = w_registry w /\ w_multiproc_dir w' = w_multiproc_dir w /\
  (ticks_nonneg w -> ticks_nonneg w' /\ w_clock w <= w_clock w').

#[export] Instance evolves_refl : Reflexive evolves.
Proof.
  intros w. split_and!; try done; [|intros; split; [done|lra]].
  apply Forall_Forall2_diag, Forall_forall. intros f _. done.
Qed.

#[export] Instance evolves_trans : Transitive evolves.
Proof.
  intros w1 w2 w3 (H12 & Hr12 & Hm12 & Hc12) (H23 & Hr23 & Hm23 & Hc23).
  split_and!; [| congruence | congruence |].
  - eapply Forall2_trans; [|exact H12|exact H23].
    intros f1 f2 f3 (? & ? & ?) (? & ? & ?). split_and!; congruence.
  - intros Ht. destruct (Hc12 Ht) as [Ht2 Hle]. destruct (Hc23 Ht2). split; [done|lra].
Qed.

Lemma evolves_tick w : evolves w (tick w).
Proof.
  unfold tick. destruct (w_ticks w) as [|d ds] eqn:Hts; [reflexivity|].
  split_and!; try done.
  - apply Forall_Forall2_diag, Forall_forall. intros f _. done.
  - unfold ticks_nonneg. rewrite Hts. intros Hf. apply Forall_cons in Hf as [Hd Hds].
    split; [done|]. simpl. lra.
Qed.

Lemma family_has_evolves w w' i ls k : evolves w w' -> family_has w i ls k -> family_has w' i ls k.
Proof.
  intros (Hs & _) Hf. unfold family_has in *.
  destruct (w_heap w !! i) as [f|] eqn:E; [|done].
  destruct (Forall2_lookup_l _ _ _ _ _ Hs E) as (f' & -> & (_ & Hl & Hk)). naive_solver.
Qed.

Lemma collector_wf_evolves mc w w' : evolves w w' -> collector_wf mc w -> collector_wf mc w'.
Proof. intros He (H1 & H2 & H3). split_and!; eauto using family_has_evolves. Qed.

#[export] Hint Resolve evolves_tick collector_wf_evolves family_has_evolves : pym.

(** [labels(...).observe(x)] on a metric of the collector: it returns,
    logs the observation under the values in label order, and evolves
    the state. *)
Lemma labels_observe_spec w i ls k kw x :
  family_has w i ls k -> map fst kw = ls -> NoDup ls -> ls <> [] ->
  exists w', labels_observe i kw x w = (Ret tt, w') /\ evolves w w' /\
    w_log w' = w_log w ++ [mkObs i (map snd kw) x].
Proof.
  intros Hf Hkw Hnd Hne. unfold family_has in Hf.
  destruct (w_heap w !! i) as [f|] eqn:E; [|done]. destruct Hf as [Hl Hk].
  assert (labels_key f kw = Ret (map snd kw)) as Hkey
    by (apply labels_key_ok; [congruence..|by rewrite Hkw]).
  destruct (labels_observe_run i kw x w f (map snd kw) E Hkey) as (t & w1 & Hw1 & ->).
  eexists. split; [done|]. simpl. split; [|destruct Hw1 as [->| ->]; by rewrite ?tick_log].
  assert (evolves w w1) as (Hs1 & Hr1 & Hm1 & Hc1)
    by (destruct Hw1 as [->| ->]; [reflexivity|apply evolves_tick]).
  assert (w_heap w1 = w_heap w) as Hh1 by (destruct Hw1 as [->| ->]; by rewrite ?tick_heap).
  split_and!; try done.
  - simpl. apply Forall2_same_length_lookup_2; [by rewrite length_insert|].
    intros j f1 f2 Hj1 Hj2. rewrite list_lookup_insert in Hj2.
    case_decide as Hj; [destruct Hj as [<- _]; simplify_eq|by simplify_eq].
    destruct (fam_ensure_child_shape f (map snd kw) t) as (Hn1 & Hl1 & Hk1).
    destruct (fam_observe_shape (fam_ensure_child f (map snd kw) t) (map snd kw) x)
      as (Hn2 & Hl2 & Hk2).
    split_and!; congruence.
Qed.

Lemma observe_db_spec mc w status sql d :
  collector_wf mc w ->
  exists w', observe_db mc status sql d w = (Ret tt, w') /\ evolves w w' /\
    w_log w' = w_log w ++ [mkObs (mc_db mc) [status; sql] d].
Proof.
  intros (_ & Hdb & _). unfold observe_db.
  eapply labels_observe_spec; [exact Hdb|done|by repeat constructor; set_solver|done].
Qed.

Lemma observe_external_spec mc w status d :
  collector_wf mc w ->
  exists w', observe_external mc status d w = (Ret tt, w') /\ evolves w w' /\
    w_log w' = w_log w ++ [mkObs (mc_external mc) [status] d].
Proof.
  intros (_ & _ & Hext). unfold observe_external.
  eapply labels_observe_spec; [exact Hext|done|by repeat constructor; set_solver|done].
Qed.

Lemma observe_myself_spec mc w path method status d :
  collector_wf mc w ->
  exists w', observe_myself mc path method status d w = (Ret tt, w') /\ evolves w w' /\
    w_log w' = w_log w ++ [mkObs (mc_me mc) [path; method; py_str_int status] d].
Proof.
  intros (Hme & _ & _). unfold observe_myself.
  eapply labels_observe_spec; [exact Hme|done|by repeat constructor; set_solver|done].
Qed.

(** ** [time.sleep] *)

(** The durations [time.sleep] accepts without [OverflowError]. *)
Definition sleep_fits (f : pyfloat) : bool :=
  match f with
  | PFin q => Z.leb (Qceiling (q * inject_Z ns_per_s)) pytime_max
  | _ => false
  end.

Lemma time_sleep_spec q w :
  0 < q -> sleep_fits (PFin q) = true ->
  exists w', time_sleep (PFin q) w = (Ret tt, w') /\ evolves w w' /\ w_log w' = w_log w /\
    (ticks_nonneg w -> w_clock w + q <= w_clock w').
Proof.
  intros Hq Hfit. simpl in Hfit. apply Z.leb_le in Hfit.
  assert (q * inject_Z ns_per_s <= inject_Z (Qceiling (q * inject_Z ns_per_s)))
    as Hce by apply Qle_ceiling.
  set (ns := Qceiling (q * inject_Z ns_per_s)) in *.
  assert (0 <= ns)%Z as Hns.
  { rewrite Zle_Qle. eapply Qle_trans; [|exact Hce].
    apply Qmult_le_0_compat; [lra|unfold ns_per_s, Qle; simpl; lia]. }
  assert (q <= inject_Z ns / inject_Z ns_per_s) as Hge.
  { apply Qle_shift_div_l; [reflexivity|]. lra. }
  assert (0 <= inject_Z ns / inject_Z ns_per_s) as Hpos by lra.
  unfold time_sleep. fold ns.
  replace ((pytime_max <? ns)%Z || (ns <? - pytime_max - 1)%Z) with false
    by (symmetry; apply orb_false_iff; split; apply Z.ltb_ge; unfold pytime_max in *; lia).
  replace (ns <? 0)%Z with false by (symmetry; apply Z.ltb_ge; lia).
  eexists. split; [reflexivity|]. unfold evolves, ticks_nonneg. simpl. split_and!; try done.
  - apply Forall_Forall2_diag, Forall_forall. intros f _. done.
  - intros Ht. split; [done|]. lra.
  - intros _. lra.
Qed.

(** A positive sleep that does not fit in [_PyTime_t] nanoseconds
    (or an infinite one) raises [OverflowError] and leaves the state. *)
Lemma time_sleep_overflow f w :
  pyfloat_gt0 f = true -> sleep_fits f = false ->
  exists msg, time_sleep f w = (Raise (OverflowError msg), w).
Proof.
  intros Hgt Hfit. destruct f as [q|[]|]; simpl in Hgt; try discriminate; [|by eexists].
  apply negb_true_iff, Qle_bool_false in Hgt. simpl in Hfit. apply Z.leb_gt in Hfit.
  unfold time_sleep. replace (pytime_max <? Qceiling (q * inject_Z ns_per_s))%Z with true
    by (symmetry; by apply Z.ltb_lt). by eexists.
Qed.

Lemma time_sleep_evolves f w :
  evolves w (snd (time_sleep f w)) /\ w_log (snd (time_sleep f w)) = w_log w.
Proof.
  unfold time_sleep. destruct f as [q| |]; [|split; reflexivity..].
  set (ns := Qceiling (q * inject_Z ns_per_s)).
  destruct ((pytime_max <? ns)%Z || (ns <? - pytime_max - 1)%Z); [split; reflexivity|].
  destruct (ns <? 0)%Z eqn:Hns; [split; reflexivity|]. apply Z.ltb_ge in Hns.
  assert (0 <= inject_Z ns / inject_Z ns_per_s).
  { apply Qle_shift_div_l; [reflexivity|]. rewrite Qmult_0_l. change 0 with (inject_Z 0).
    rewrite <-Zle_Qle. lia. }
  split; [|done]. unfold evolves, ticks_nonneg. simpl. split_and!; try done.
  - apply Forall_Forall2_diag, Forall_forall. intros f _. done.
  - intros Ht. split; [done|]. lra.
Qed.

(** ** Observations outside the self-latency summary *)

(** The three metric objects of a well-formed collector are distinct. *)
Lemma collector_wf_distinct mc w :
  collector_wf mc w -> mc_db mc <> mc_me mc /\ mc_external mc <> mc_me mc.
Proof.
  intros (Hme & Hdb & Hext). unfold family_has in *.
  split; intros Heq.
  - rewrite Heq in Hdb. destruct (w_heap w !! mc_me mc); [|done].
    destruct Hme as [Hl _], Hdb as [Hl' _]. rewrite Hl in Hl'. discriminate.
  - rewrite Heq in Hext. destruct (w_heap w !! mc_me mc); [|done].
    destruct Hme as [Hl _], Hext as [Hl' _]. rewrite Hl in Hl'. discriminate.
Qed.

(** [w'] follows [w] by evolving and by appending observations of the
    database and audit metrics only. *)
Definition no_self_obs (mc : MetricCollector) (w w' : World) : Prop :=
  collector_wf mc w -> evolves w w' /\
  exists extra, w_log w' = w_log w ++ extra /\ Forall (fun o => ob_metric o <> mc_me mc) extra.

#[export] Instance no_self_obs_preorder mc : PreOrder (no_self_obs mc).
Proof.
  split.
  - intros w _. split; [reflexivity|]. exists []. by rewrite app_nil_r.
  - intros w1 w2 w3 H12 H23 Hwf. destruct (H12 Hwf) as (He12 & e1 & Hl1 & Hf1).
    destruct (H23 (collector_wf_evolves _ _ _ He12 Hwf)) as (He23 & e2 & Hl2 & Hf2).
    split; [by etrans|]. exists (e1 ++ e2). rewrite Hl2, Hl1, app_assoc.
    split; [done|]. by apply Forall_app.
Qed.

Lemma preserves_no_self_obs {A} mc w0 (m : M A) :
  (forall w, no_self_obs mc w (snd (m w))) -> preserves (no_self_obs mc w0) m.
Proof. intros Hm w Hw. etrans; [exact Hw|apply Hm]. Qed.

Lemma no_self_obs_same_log mc w w' :
  evolves w w' -> w_log w' = w_log w -> no_self_obs mc w w'.
Proof. intros He Hl _. split; [done|]. exists []. by rewrite app_nil_r. Qed.

Lemma no_self_obs_time_time mc w0 : preserves (no_self_obs mc w0) time_time.
Proof.
  apply preserves_no_self_obs. intros w. rewrite time_time_tick. simpl.
  apply no_self_obs_same_log; [apply evolves_tick|apply tick_log].
Qed.

Lemma no_self_obs_time_sleep mc w0 f : preserves (no_self_obs mc w0) (time_sleep f).
Proof. apply preserves_no_self_obs. intros w. apply no_self_obs_same_log; apply time_sleep_evolves. Qed.

Lemma no_self_obs_observe_db mc w0 status sql d :
  preserves (no_self_obs mc w0) (observe_db mc status sql d).
Proof.
  apply preserves_no_self_obs. intros w Hwf.
  destruct (observe_db_spec mc w status sql d Hwf) as (w' & -> & He & Hl).
  split; [done|]. eexists. split; [exact Hl|]. constructor; [|done]. apply (collector_wf_distinct mc w Hwf).
Qed.

Lemma no_self_obs_observe_external mc w0 status d :
  preserves (no_self_obs mc w0) (observe_external mc status d).
Proof.
  apply preserves_no_self_obs. intros w Hwf.
  destruct (observe_external_spec mc w status d Hwf) as (w' & -> & He & Hl).
  split; [done|]. eexists. split; [exact Hl|]. constructor; [|done]. apply (collector_wf_distinct mc w Hwf).
Qed.

#[export] Hint Resolve no_self_obs_time_time no_self_obs_time_sleep no_self_obs_observe_db
  no_self_obs_observe_external : pym.

(** ** The invariant along the construction *)

Lemma child_at_alloc w f i key :
  fam_metrics f = [] -> child_at (set_heap (w_heap w ++ [f]) w) i key = child_at w i key.
Proof.
  intros Hm. unfold child_at. simpl. rewrite lookup_app.
  destruct (w_heap w !! i); [done|].
  destruct ([f] !! (i - length (w_heap w))%nat) as [f'|] eqn:E; [|done].
  apply list_lookup_singleton_Some in E as [_ <-]. by rewrite Hm.
Qed.

Lemma preserves_alloc f : family_wf f -> fam_metrics f = [] -> preserves inv (alloc f).
Proof.
  intros Hf Hm w [[Hwf Hb] [Hc Hbk]]. simpl. split; [split|split].
  - simpl. apply Forall_app. by split; [|apply Forall_singleton].
  - simpl. eapply Forall_impl; [exact Hb|]. intros o Ho. cbv beta in Ho. rewrite length_app. lia.
  - intros i key. unfold count_at, sum_at. rewrite child_at_alloc by done. apply Hc.
  - intros i f' key Hf'. simpl in Hf'. rewrite lookup_app in Hf'.
    destruct (w_heap w !! i) as [f0|] eqn:E; [injection Hf' as <-; exact (Hbk i f0 key E)|].
    apply list_lookup_singleton_Some in Hf' as [_ <-]. rewrite Hm. by destruct (fam_kind f).
Qed.

Lemma preserves_new_metric name doc ls k : preserves inv (new_metric name doc ls k).
Proof.
  intros w Hw. unfold new_metric at 1. unfold bind at 1, lift at 1.
  destruct (make_family name doc ls k) as [f|e] eqn:E; [|done].
  destruct (make_family_wf _ _ _ _ _ E) as (Hf & Hm & _).
  revert w Hw. fold (preserves inv (i <- alloc f ;; r <- gets w_registry ;;
                                    r' <- lift (register r i (get_names f)) ;;
                                    modify (set_registry r') ;; ret i)).
  solve_preserves. by apply preserves_alloc.
Qed.

#[export] Hint Resolve preserves_new_metric : pym.

Lemma preserves_newCollector s : preserves inv (newCollector s).
Proof. unfold newCollector. solve_preserves. Qed.

Lemma inv_init_world c ts d : inv (init_world c ts d).
Proof.
  split; [split; constructor|split]; [|done].
  intros i key. unfold count_at, sum_at, child_at. simpl. done.
Qed.

(** ** Observations *)

#[export] Instance observation_eq_dec : EqDecision observation.
Proof. solve_decision. Defined.

