(* ===== verification/Exposition.v ===== *)
(** * The text exposition: [generate_latest]

    [MetricCollector.get_latest] (main.py 23-24) returns
    [generate_latest()], the Prometheus text format of the default
    registry; [get_latest_when_running_with_gunicorn] (main.py 166-169)
    calls it on a registry holding the multiprocess collector.  This file
    models [generate_latest] of the client's classic [exposition.py]:

    - the samples of a metric ([_multi_samples]): for every child in
      insertion order, the label pairs of its key, then [_count], [_sum]
      and [_created] for a Summary, and one [_bucket] per bound (label
      [le], cumulative count), [_count], [_sum], [_created] for a
      Histogram;
    - one text line per sample ([sample_line]): the name, the labels
      sorted by name with their values escaped, a space and
      [floatToGoString(value)];
    - per metric, [# HELP] and [# TYPE] lines, the samples, then the
      [_created] samples as a gauge of their own.

    The printing of a float ([floatToGoString]) is the class [GoFloat];
    [GoDecimal] is an instance exact on integers (counts), which prints
    a non-integer value as a fraction: the model's values are exact
    rationals, not doubles.

    The reference reader of the format ([split_lines], [parse_line]) is
    the specification of what a scraper sees; the round-trip theorems
    show that it reads back exactly the lines [generate_latest] wrote,
    whatever the label values (here: request paths chosen by clients). *)

From stdpp Require Import base list strings sets.
From Stdlib Require Import QArith ZArith Ascii DecimalString.
From S2P Require Import Prelude PyRuntime Prometheus Collector.

(** ** Characters *)

Definition bslash : ascii := "\".
Definition nl : ascii := "010".
Definition dquote : ascii := "034".

Definition char_str (c : ascii) : string := String c EmptyString.

(** [''.join(f(c) for c in s)]. *)
Fixpoint str_flat_map (f : ascii -> string) (s : string) : string :=
  match s with
  | EmptyString => EmptyString
  | String c s' => f c +:+ str_flat_map f s'
  end.

(** ** Escaping *)

(** [v.replace('\\', r'\\').replace('\n', r'\n').replace('"', r'\"')],
    applied to every label value by [sample_line]. *)
Definition escape_label_value (v : string) : string :=
  str_replace_char (str_replace_char (str_replace_char v bslash "\\") nl "\n")
    dquote (String bslash (char_str dquote)).

(** [documentation.replace('\\', r'\\').replace('\n', r'\n')]. *)
Definition escape_doc (d : string) : string :=
  str_replace_char (str_replace_char d bslash "\\") nl "\n".

(** The single pass the three replacements amount to. *)
Definition esc_char (c : ascii) : string :=
  if Ascii.eqb c bslash then "\\"
  else if Ascii.eqb c nl then "\n"
  else if Ascii.eqb c dquote then String bslash (char_str dquote)
  else char_str c.

(** The reader's [_replace_escaping]: a backslash followed by a
    backslash, by [n] or (in label values) by a double quote is replaced,
    left to right; any other backslash is kept. *)
Definition unesc (quotes : bool) (c : ascii) : option ascii :=
  if Ascii.eqb c bslash then Some bslash
  else if Ascii.eqb c "n" then Some nl
  else if quotes && Ascii.eqb c dquote then Some dquote
  else None.

Fixpoint unescape (quotes : bool) (s : string) : string :=
  match s with
  | String c s' =>
      if Ascii.eqb c bslash then
        match s' with
        | String d s'' =>
            match unesc quotes d with
            | Some e => String e (unescape quotes s'')
            | None => String c (unescape quotes s')
            end
        | EmptyString => s
        end
      else String c (unescape quotes s')
  | EmptyString => EmptyString
  end.

(** ** [floatToGoString] *)

(** The printing of a finite float value. *)
Class GoFloat := go_float : Q -> string.

Fixpoint str_forall (p : ascii -> bool) (s : string) : bool :=
  match s with
  | EmptyString => true
  | String c s' => p c && str_forall p s'
  end.

Definition no_nl (s : string) : bool := str_forall (fun c => negb (Ascii.eqb c nl)) s.

(** What the reader needs: a printed value is on one line. *)
Class GoFloatLaws `{GoFloat} := go_float_no_nl : forall q, no_nl (go_float q) = true.

(** [floatToGoString(bound)] for the [le] label. *)
Definition go_bound `{GoFloat} (b : bound) : string :=
  match b with
  | BFin q => go_float q
  | BInf => "+Inf"
  end.

(** ** Lines of the format *)

Inductive line :=
| LHelp (name doc : string)
| LType (name typ : string)
| LSample (name : string) (labels : list (string * string)) (value : string).

Definition label_pair (kv : string * string) : string :=
  kv.1 +:+ "=" +:+ char_str dquote +:+ escape_label_value kv.2 +:+ char_str dquote.

Definition labelstr (ls : list (string * string)) : string :=
  match ls with
  | [] => EmptyString
  | _ => "{" +:+ String.concat "," (map label_pair ls) +:+ "}"
  end.

Definition render_line (l : line) : string :=
  match l with
  | LHelp n d => "# HELP " +:+ n +:+ " " +:+ escape_doc d
  | LType n t => "# TYPE " +:+ n +:+ " " +:+ t
  | LSample n ls v => n +:+ labelstr ls +:+ " " +:+ v
  end.

(** [''.join(output)]: every line ends with a newline. *)
Definition render_text (ls : list line) : string :=
  String.concat EmptyString (map (fun l => render_line l +:+ char_str nl) ls).

(** ** Samples *)

Record sample := mkSample {
  smp_name : string;
  smp_labels : list (string * string);
  smp_value : Q
}.

(** [sorted(labels.items())]: insertion sort on the label names. *)
Fixpoint insert_label (kv : string * string) (ls : list (string * string))
    : list (string * string) :=
  match ls with
  | [] => [kv]
  | kv' :: ls' => if String.leb kv.1 kv'.1 then kv :: kv' :: ls' else kv' :: insert_label kv ls'
  end.

Definition sort_labels (ls : list (string * string)) : list (string * string) :=
  fold_right insert_label [] ls.

Section Samples.
Context `{GoFloat}.

(** [sample_line]. *)
Definition sample_line (s : sample) : line :=
  LSample (smp_name s) (sort_labels (smp_labels s)) (go_float (smp_value s)).

(** The loop of [Histogram._child_samples]: [acc += bucket] and one
    [_bucket] sample per bound; returns the final [acc]. *)
Fixpoint bucket_samples (ubs : list bound) (bs : list nat) (acc : nat)
    : list (string * list (string * string) * Q) * nat :=
  match ubs, bs with
  | ub :: ubs', n :: bs' =>
      let acc' := (acc + n)%nat in
      let '(l, a) := bucket_samples ubs' bs' acc' in
      (("_bucket", [("le", go_bound ub)], inject_Z (Z.of_nat acc')) :: l, a)
  | _, _ => ([], acc)
  end.

(** [_child_samples] of a Summary and of a Histogram. *)
Definition child_samples (k : kind) (c : child) : list (string * list (string * string) * Q) :=
  match c with
  | SummaryChild n s t =>
      [("_count", [], inject_Z (Z.of_nat n)); ("_sum", [], s); ("_created", [], t)]
  | HistogramChild bs s t =>
      let ubs := match k with KHistogram ubs => ubs | KSummary => [] end in
      let '(l, acc) := bucket_samples ubs bs 0 in
      l ++ [("_count", [], inject_Z (Z.of_nat acc)); ("_sum", [], s); ("_created", [], t)]
  end.

(** [_multi_samples] and [collect]: the children in insertion order,
    each sample named [name + suffix] with the child's label pairs
    first. *)
Definition family_samples (f : family) : list sample :=
  flat_map (fun kc =>
              map (fun '(suffix, sl, v) =>
                     mkSample (fam_name f +:+ suffix) (zip (fam_labelnames f) kc.1 ++ sl) v)
                  (child_samples (fam_kind f) kc.2))
           (fam_metrics f).

Definition type_name (k : kind) : string :=
  match k with KSummary => "summary" | KHistogram _ => "histogram" end.

(** The loop body of [generate_latest] for one metric. *)
Definition family_lines (f : family) : list line :=
  let created := fam_name f +:+ "_created" in
  let ss := family_samples f in
  let om := List.filter (fun s => String.eqb (smp_name s) created) ss in
  [LHelp (fam_name f) (fam_doc f); LType (fam_name f) (type_name (fam_kind f))] ++
  map sample_line (List.filter (fun s => negb (String.eqb (smp_name s) created)) ss) ++
  match om with
  | [] => []
  | _ => [LHelp created (fam_doc f); LType created "gauge"] ++ map sample_line om
  end.

Definition exposition (fams : list family) : list line := flat_map family_lines fams.

(** [generate_latest(registry)] on the metrics [registry.collect()]
    yields. *)
Definition generate_latest (fams : list family) : string := render_text (exposition fams).
End Samples.

(** ** The reader *)

(** The characters of metric and label names: [[a-zA-Z0-9_:]]. *)
Definition token_char (c : ascii) : bool :=
  is_alpha c || is_digit_char c || Ascii.eqb c "_" || Ascii.eqb c ":".

Definition is_token (s : string) : bool := str_forall token_char s.

Fixpoint take_token (s : string) : string * string :=
  match s with
  | String c s' =>
      if token_char c then let '(t, r) := take_token s' in (String c t, r) else (EmptyString, s)
  | EmptyString => (EmptyString, EmptyString)
  end.

Fixpoint strip_prefix (p s : string) : option string :=
  match p, s with
  | EmptyString, _ => Some s
  | String c p', String d s' => if Ascii.eqb c d then strip_prefix p' s' else None
  | String _ _, EmptyString => None
  end.

(** A quoted label value after its opening quote: its unescaped text and
    what follows the closing quote. *)
Fixpoint scan_value (s : string) : option (string * string) :=
  match s with
  | EmptyString => None
  | String c s' =>
      if Ascii.eqb c dquote then Some (EmptyString, s')
      else if Ascii.eqb c bslash then
        match s' with
        | String d s'' =>
            match unesc true d with
            | Some e => option_map (fun '(v, r) => (String e v, r)) (scan_value s'')
            | None => option_map (fun '(v, r) => (String c v, r)) (scan_value s')
            end
        | EmptyString => None
        end
      else option_map (fun '(v, r) => (String c v, r)) (scan_value s')
  end.

(** [name="value"] pairs separated by commas up to the closing brace;
    [fuel] bounds the number of pairs. *)
Fixpoint parse_labels (fuel : nat) (s : string) : option (list (string * string) * string) :=
  match fuel with
  | O => None
  | S fuel' =>
      let '(k, r) := take_token s in
      match strip_prefix (String "=" (char_str dquote)) r with
      | Some r' =>
          match scan_value r' with
          | Some (v, String c r'') =>
              if Ascii.eqb c "," then
                option_map (fun '(ls, rest) => ((k, v) :: ls, rest)) (parse_labels fuel' r'')
              else if Ascii.eqb c "}" then Some ([(k, v)], r'')
              else None
          | _ => None
          end
      | None => None
      end
  end.

Definition parse_line (s : string) : option line :=
  match strip_prefix "# HELP " s with
  | Some r =>
      let '(n, r') := take_token r in
      match r' with
      | String " " d => Some (LHelp n (unescape false d))
      | _ => None
      end
  | None =>
      match strip_prefix "# TYPE " s with
      | Some r =>
          let '(n, r') := take_token r in
          match r' with
          | String " " t => Some (LType n t)
          | _ => None
          end
      | None =>
          let '(n, r) := take_token s in
          match r with
          | String "{" r' =>
              match parse_labels (String.length r') r' with
              | Some (ls, String " " v) => Some (LSample n ls v)
              | _ => None
              end
          | String " " v => Some (LSample n [] v)
          | _ => None
          end
      end
  end.

(** The lines of a text, each without its newline. *)
Fixpoint split_lines (s : string) : list string :=
  match s with
  | EmptyString => []
  | String c s' =>
      if Ascii.eqb c nl then EmptyString :: split_lines s'
      else match split_lines s' with
           | [] => [char_str c]
           | l :: ls => String c l :: ls
           end
  end.

Definition read_text (s : string) : list (option line) := map parse_line (split_lines s).

(** ** Escaping: the single pass and its inverse *)

Lemma str_flat_map_app f (s1 s2 : string) :
  str_flat_map f (s1 +:+ s2) = str_flat_map f s1 +:+ str_flat_map f s2.
Proof. induction s1 as [|c s1 IH]; [done|]. rewrite sapp_cons. simpl. by rewrite IH, sapp_assoc. Qed.

Lemma str_replace_char_flat s a b :
  str_replace_char s a b = str_flat_map (fun c => if Ascii.eqb c a then b else char_str c) s.
Proof. induction s as [|c s IH]; [done|]. simpl. rewrite IH. by destruct (Ascii.eqb c a). Qed.

Lemma str_replace_flat_map f s a b :
  str_replace_char (str_flat_map f s) a b = str_flat_map (fun c => str_replace_char (f c) a b) s.
Proof. induction s as [|c s IH]; [done|]. simpl. by rewrite str_replace_char_app, IH. Qed.

Lemma str_flat_map_ext f g s : (forall c, f c = g c) -> str_flat_map f s = str_flat_map g s.
Proof. intros Hfg. induction s as [|c s IH]; [done|]. simpl. by rewrite Hfg, IH. Qed.

(** The three chained [replace] calls of [sample_line] are the single
    pass [esc_char]. *)
Lemma escape_label_value_flat v : escape_label_value v = str_flat_map esc_char v.
Proof.
  unfold escape_label_value. rewrite (str_replace_char_flat v), !str_replace_flat_map.
  apply str_flat_map_ext. intros c. unfold esc_char.
  destruct (Ascii.eqb c bslash) eqn:E1; [reflexivity|]. unfold char_str. simpl.
  destruct (Ascii.eqb c nl) eqn:E2; [reflexivity|]. simpl.
  destruct (Ascii.eqb c dquote); reflexivity.
Qed.

Definition esc_doc_char (c : ascii) : string :=
  if Ascii.eqb c bslash then "\\" else if Ascii.eqb c nl then "\n" else char_str c.

Lemma escape_doc_flat d : escape_doc d = str_flat_map esc_doc_char d.
Proof.
  unfold escape_doc. rewrite (str_replace_char_flat d), !str_replace_flat_map.
  apply str_flat_map_ext. intros c. unfold esc_doc_char.
  destruct (Ascii.eqb c bslash) eqn:E1; [reflexivity|]. unfold char_str. simpl.
  destruct (Ascii.eqb c nl); reflexivity.
Qed.

Ltac ascii_cases c :=
  destruct (Ascii.eqb_spec c bslash); [subst c; reflexivity|];
  destruct (Ascii.eqb_spec c nl); [subst c; reflexivity|];
  try (destruct (Ascii.eqb_spec c dquote); [subst c; reflexivity|]).

Lemma unescape_doc_char c rest :
  unescape false (esc_doc_char c +:+ rest) = String c (unescape false rest).
Proof.
  unfold esc_doc_char. destruct (Ascii.eqb_spec c bslash) as [->|Hb]; [reflexivity|].
  destruct (Ascii.eqb_spec c nl) as [->|Hn]; [reflexivity|].
  unfold char_str. rewrite sapp_cons, sapp_nil_l. simpl. apply Ascii.eqb_neq in Hb. by rewrite Hb.
Qed.

(** The reader recovers the documentation [# HELP] prints. *)
Lemma unescape_escape_doc d : unescape false (escape_doc d) = d.
Proof.
  rewrite escape_doc_flat. induction d as [|c d IH]; [done|].
  simpl. by rewrite unescape_doc_char, IH.
Qed.

Lemma scan_value_char c rest :
  scan_value (esc_char c +:+ rest) = option_map (fun '(v, r) => (String c v, r)) (scan_value rest).
Proof.
  unfold esc_char. destruct (Ascii.eqb_spec c bslash) as [->|Hb]; [reflexivity|].
  destruct (Ascii.eqb_spec c nl) as [->|Hn]; [reflexivity|].
  destruct (Ascii.eqb_spec c dquote) as [->|Hq]; [reflexivity|].
  unfold char_str. rewrite sapp_cons, sapp_nil_l. simpl.
  apply Ascii.eqb_neq in Hb, Hq. by rewrite Hq, Hb.
Qed.

(** A label value, escaped and followed by the closing quote, is read
    back exactly, whatever characters it holds. *)
Lemma scan_value_escape v r :
  scan_value (escape_label_value v +:+ String dquote r) = Some (v, r).
Proof.
  rewrite escape_label_value_flat. induction v as [|c v IH]; [reflexivity|].
  simpl. rewrite sapp_assoc, scan_value_char, IH. reflexivity.
Qed.

(** ** Character classes of the printed text *)

Lemma str_forall_app p (a b : string) : str_forall p (a +:+ b) = str_forall p a && str_forall p b.
Proof. induction a as [|c a IH]; [done|]. rewrite sapp_cons. simpl. by rewrite IH, andb_assoc. Qed.

Lemma str_forall_impl (p q : ascii -> bool) s :
  (forall c, p c = true -> q c = true) -> str_forall p s = true -> str_forall q s = true.
Proof.
  intros Hpq. induction s as [|c s IH]; [done|]. simpl.
  intros [Hc Hs]%andb_prop. by rewrite Hpq, IH.
Qed.

Lemma str_forall_flat_map p f s :
  (forall c, str_forall p (f c) = true) -> str_forall p (str_flat_map f s) = true.
Proof. intros Hf. induction s as [|c s IH]; [done|]. simpl. by rewrite str_forall_app, Hf, IH. Qed.

Lemma str_forall_concat p sep xs :
  str_forall p sep = true -> Forall (fun x => str_forall p x = true) xs ->
  str_forall p (String.concat sep xs) = true.
Proof.
  intros Hsep. induction 1 as [|x xs Hx Hxs IH]; [done|]. simpl.
  destruct xs; [done|]. by rewrite !str_forall_app, Hx, Hsep, IH.
Qed.

Lemma token_no_nl s : is_token s = true -> no_nl s = true.
Proof. apply str_forall_impl. intros c. by destruct (Ascii.eqb_spec c nl) as [->|]. Qed.

Lemma token_not_hash c : token_char c = true -> Ascii.eqb "#" c = false.
Proof. by destruct (Ascii.eqb_spec "#" c) as [<-|]. Qed.

Lemma escape_label_value_no_nl v : no_nl (escape_label_value v) = true.
Proof.
  rewrite escape_label_value_flat. apply str_forall_flat_map. intros c. unfold esc_char.
  destruct (Ascii.eqb_spec c bslash); [done|]. destruct (Ascii.eqb_spec c nl) as [->|Hn]; [done|].
  destruct (Ascii.eqb_spec c dquote); [done|]. simpl. apply Ascii.eqb_neq in Hn. by rewrite Hn.
Qed.

Lemma escape_doc_no_nl d : no_nl (escape_doc d) = true.
Proof.
  rewrite escape_doc_flat. apply str_forall_flat_map. intros c. unfold esc_doc_char.
  destruct (Ascii.eqb_spec c bslash); [done|]. destruct (Ascii.eqb_spec c nl) as [->|Hn]; [done|].
  simpl. apply Ascii.eqb_neq in Hn. by rewrite Hn.
Qed.

(** ** Reading the lines back *)

Lemma take_token_app n c r :
  is_token n = true -> token_char c = false -> take_token (n +:+ String c r) = (n, String c r).
Proof.
  intros Hn Hc. induction n as [|c' n IH]; simpl; [by rewrite Hc|].
  apply andb_prop in Hn as [Hc' Hn]. rewrite ?sapp_cons. simpl. by rewrite Hc', IH.
Qed.

Lemma length_label_pairs ls rest :
  (length ls <= String.length (String.concat "," (map label_pair ls) +:+ rest))%nat.
Proof.
  induction ls as [|[k v] ls IH]; [cbn [length]; lia|].
  assert (1 <= String.length (label_pair (k, v)))%nat.
  { unfold label_pair. rewrite !slength_app. simpl. lia. }
  destruct ls as [|kv' ls].
  - cbn [map String.concat length]. rewrite slength_app. lia.
  - change (String.concat "," (map label_pair ((k, v) :: kv' :: ls)))
      with (label_pair (k, v) +:+ "," +:+ String.concat "," (map label_pair (kv' :: ls))).
    rewrite !sapp_assoc, !slength_app. rewrite slength_app in IH.
    change (String.length ",") with 1%nat. cbn [length] in *. lia.
Qed.

(** One [name="value"] pair and the character after it. *)
Lemma parse_labels_pair fuel k v c tail :
  is_token k = true ->
  parse_labels (S fuel) (label_pair (k, v) +:+ String c tail) =
    if Ascii.eqb c "," then option_map (fun '(ls, rest) => ((k, v) :: ls, rest)) (parse_labels fuel tail)
    else if Ascii.eqb c "}" then Some ([(k, v)], tail) else None.
Proof.
  intros Hk. unfold label_pair, char_str. rewrite !sapp_assoc, !sapp_cons, !sapp_nil_l.
  cbn [parse_labels]. rewrite take_token_app by done. simpl.
  rewrite scan_value_escape. reflexivity.
Qed.

Lemma parse_labels_render fuel ls rest :
  ls <> [] -> Forall (fun kv => is_token kv.1 = true) ls -> (length ls <= fuel)%nat ->
  parse_labels fuel (String.concat "," (map label_pair ls) +:+ String "}" rest) = Some (ls, rest).
Proof.
  intros Hne Htok. revert fuel Hne.
  induction Htok as [|[k v] ls Hk Hls IH]; intros fuel Hne Hf; [done|].
  destruct fuel as [|fuel]; simpl in Hf; [lia|].
  destruct ls as [|kv' ls].
  - cbn [map String.concat]. by rewrite parse_labels_pair.
  - change (String.concat "," (map label_pair ((k, v) :: kv' :: ls)))
      with (label_pair (k, v) +:+ "," +:+ String.concat "," (map label_pair (kv' :: ls))).
    rewrite sapp_assoc, (sapp_assoc ","), (sapp_cons "," EmptyString), sapp_nil_l.
    rewrite parse_labels_pair by done. simpl.
    rewrite IH by (done || lia). reflexivity.
Qed.

(** The lines the reader can read back: names are tokens, and the type
    and the value are on one line. *)
Definition line_wf (l : line) : bool :=
  match l with
  | LHelp n _ => is_token n
  | LType n t => is_token n && no_nl t
  | LSample n ls v => is_token n && forallb (fun kv => is_token kv.1) ls && no_nl v
  end.

Lemma strip_prefix_token p c s r :
  is_token s = true -> token_char c = false -> Ascii.eqb "#" c = false ->
  strip_prefix (String "#" p) (s +:+ String c r) = None.
Proof.
  intros Hs Hc Hh. destruct s as [|c' s]; rewrite ?sapp_nil_l, ?sapp_cons; cbn [strip_prefix];
    [by rewrite Hh|].
  apply andb_prop in Hs as [Hc' _]. by rewrite token_not_hash.
Qed.

Lemma strip_prefix_app p s : strip_prefix p (p +:+ s) = Some s.
Proof.
  induction p as [|c p IH]; [done|]. rewrite sapp_cons. cbn [strip_prefix].
  by rewrite Ascii.eqb_refl.
Qed.

Lemma parse_render_line l : line_wf l = true -> parse_line (render_line l) = Some l.
Proof.
  destruct l as [n d|n t|n ls v]; simpl; intros Hwf.
  - unfold parse_line. rewrite strip_prefix_app. rewrite (sapp_cons " " EmptyString), sapp_nil_l.
    rewrite take_token_app by done. by rewrite unescape_escape_doc.
  - apply andb_prop in Hwf as [Hn _]. unfold parse_line.
    rewrite strip_prefix_app. rewrite (sapp_cons " " EmptyString), sapp_nil_l.
    by rewrite take_token_app by done.
  - apply andb_prop in Hwf as [[Hn Hls]%andb_prop _]. unfold parse_line.
    destruct ls as [|kv ls].
    + rewrite sapp_nil_l, (sapp_cons " " EmptyString), sapp_nil_l,
        strip_prefix_token, strip_prefix_token, take_token_app by done. reflexivity.
    + unfold labelstr. rewrite !sapp_assoc, (sapp_cons "{" EmptyString), sapp_nil_l,
        (sapp_cons "}" EmptyString), sapp_nil_l, (sapp_cons " " EmptyString), sapp_nil_l.
      rewrite strip_prefix_token, strip_prefix_token, take_token_app by done.
      rewrite parse_labels_render; [reflexivity|done| |apply length_label_pairs].
      apply Forall_forall. intros kv' Hin%list_elem_of_In. exact (proj1 (forallb_forall _ _) Hls kv' Hin).
Qed.

Lemma no_nl_cons c s : no_nl (String c s) = negb (Ascii.eqb c nl) && no_nl s.
Proof. reflexivity. Qed.

Lemma no_nl_app a b : no_nl (a +:+ b) = no_nl a && no_nl b.
Proof. apply str_forall_app. Qed.

Lemma label_pair_no_nl kv : is_token kv.1 = true -> no_nl (label_pair kv) = true.
Proof.
  intros Hk. unfold label_pair. rewrite !no_nl_app.
  rewrite (token_no_nl _ Hk). by rewrite (escape_label_value_no_nl kv.2).
Qed.

Lemma render_line_no_nl l : line_wf l = true -> no_nl (render_line l) = true.
Proof.
  destruct l as [n d|n t|n ls v]; simpl; intros Hwf; rewrite !no_nl_app.
  - by rewrite (token_no_nl _ Hwf), (escape_doc_no_nl d).
  - apply andb_prop in Hwf as [Hn Ht]. by rewrite (token_no_nl _ Hn), Ht.
  - apply andb_prop in Hwf as [[Hn Hls]%andb_prop Hv].
    rewrite (token_no_nl _ Hn), Hv. destruct ls as [|kv ls]; [done|].
    unfold labelstr. rewrite !no_nl_app. unfold no_nl at 2. rewrite str_forall_concat; [done|done|].
    apply Forall_forall. intros kv' Hin%list_elem_of_In%in_map_iff.
    destruct Hin as (kv'' & <- & Hin). apply label_pair_no_nl.
    exact (proj1 (forallb_forall _ _) Hls kv'' Hin).
Qed.

Lemma split_lines_app l rest : no_nl l = true -> split_lines (l +:+ String nl rest) = l :: split_lines rest.
Proof.
  induction l as [|c l IH]; [done|]. unfold no_nl. cbn [str_forall].
  intros [Hc Hl]%andb_prop. rewrite sapp_cons. cbn [split_lines].
  apply negb_true_iff in Hc. rewrite Hc, IH by done. reflexivity.
Qed.

Lemma render_text_cons l ls : render_text (l :: ls) = render_line l +:+ String nl (render_text ls).
Proof.
  unfold render_text. destruct ls as [|l' ls]; cbn [map String.concat].
  - unfold char_str. done.
  - unfold char_str. by rewrite sapp_nil_l, sapp_assoc.
Qed.

(** The reader recovers every line [render_text] writes: reading the
    text line by line gives back exactly the structured lines, in order,
    whatever the documentation and the label values contain. *)
Lemma read_text_render ls :
  Forall (fun l => line_wf l = true) ls -> read_text (render_text ls) = map Some ls.
Proof.
  induction 1 as [|l ls Hl Hls IH]; [done|].
  unfold read_text. rewrite render_text_cons, split_lines_app by (by apply render_line_no_nl).
  cbn [map]. rewrite parse_render_line by done. f_equal. exact IH.
Qed.

(** ** The lines [generate_latest] writes are readable *)

(** Metric and label names within the reader's token characters. *)
Definition fam_tokens (f : family) : bool :=
  is_token (fam_name f) && forallb is_token (fam_labelnames f).

Definition keys_token (ls : list (string * string)) : bool := forallb (fun kv => is_token kv.1) ls.

Lemma is_token_app a b : is_token (a +:+ b) = is_token a && is_token b.
Proof. apply str_forall_app. Qed.

Lemma keys_token_insert kv ls : keys_token (insert_label kv ls) = is_token kv.1 && keys_token ls.
Proof.
  induction ls as [|kv' ls IH]; simpl; [by rewrite andb_true_r|].
  destruct (String.leb kv.1 kv'.1); simpl; [done|].
  fold (keys_token (insert_label kv ls)) (keys_token ls). rewrite IH.
  by destruct (is_token kv.1), (is_token kv'.1).
Qed.

Lemma keys_token_sort ls : keys_token (sort_labels ls) = keys_token ls.
Proof.
  induction ls as [|kv ls IH]; [done|]. simpl. rewrite keys_token_insert. by fold (keys_token ls); rewrite <-IH.
Qed.

Lemma keys_token_zip names key :
  forallb is_token names = true -> keys_token (zip names key) = true.
Proof.
  revert key. induction names as [|n names IH]; intros [|k key]; simpl; try done.
  intros [Hn Hns]%andb_prop. rewrite Hn. by apply IH.
Qed.

Section Readable.
Context `{GoFloatLaws}.

Definition csample_ok (cs : string * list (string * string) * Q) : bool :=
  is_token cs.1.1 && keys_token cs.1.2.

Lemma bucket_samples_ok ubs bs acc : Forall (fun cs => csample_ok cs = true) (bucket_samples ubs bs acc).1.
Proof.
  revert bs acc. induction ubs as [|ub ubs IH]; intros [|n bs] acc; simpl; try constructor.
  destruct (bucket_samples ubs bs (acc + n)) as [l a] eqn:E. simpl. constructor; [done|].
  specialize (IH bs (acc + n)%nat). by rewrite E in IH.
Qed.

Lemma child_samples_ok k c : Forall (fun cs => csample_ok cs = true) (child_samples k c).
Proof.
  destruct c as [n s t|bs s t]; simpl; [by repeat constructor|].
  pose proof (bucket_samples_ok (match k with KHistogram ubs => ubs | KSummary => [] end) bs 0) as Hb.
  destruct (bucket_samples _ bs 0) as [l a]. simpl in Hb.
  apply Forall_app; split; [done|by repeat constructor].
Qed.

Definition sample_ok (s : sample) : bool := is_token (smp_name s) && keys_token (smp_labels s).

Lemma family_samples_ok f : fam_tokens f = true -> Forall (fun s => sample_ok s = true) (family_samples f).
Proof.
  intros [Hn Hl]%andb_prop. unfold family_samples.
  apply Forall_forall. intros s Hin%list_elem_of_In%in_flat_map.
  destruct Hin as ([key c] & _ & Hin%in_map_iff). destruct Hin as ([[suf sl] v] & <- & Hin).
  pose proof (proj1 (Forall_forall _ _) (child_samples_ok (fam_kind f) c) (suf, sl, v)
                (proj2 (list_elem_of_In _ _) Hin)) as [Hs Hsl]%andb_prop.
  simpl in Hs, Hsl.
  unfold sample_ok. simpl. rewrite is_token_app, Hn, Hs. unfold keys_token.
  rewrite forallb_app. fold (keys_token (zip (fam_labelnames f) key)) (keys_token sl).
  by rewrite keys_token_zip, Hsl.
Qed.

Lemma sample_line_wf s : sample_ok s = true -> line_wf (sample_line s) = true.
Proof.
  intros [Hn Hl]%andb_prop. simpl. rewrite Hn. fold (keys_token (sort_labels (smp_labels s))).
  by rewrite keys_token_sort, Hl, go_float_no_nl.
Qed.

Lemma Forall_map_sample_line ss :
  Forall (fun s => sample_ok s = true) ss -> Forall (fun l => line_wf l = true) (map sample_line ss).
Proof. induction 1; constructor; auto using sample_line_wf. Qed.

Lemma Forall_List_filter {A} (P : A -> Prop) (g : A -> bool) l :
  Forall P l -> Forall P (List.filter g l).
Proof. induction 1; simpl; [done|]. destruct (g x); auto. Qed.

Lemma family_lines_wf f : fam_tokens f = true -> Forall (fun l => line_wf l = true) (family_lines f).
Proof.
  intros Hf. pose proof (family_samples_ok f Hf) as Hs. apply andb_prop in Hf as [Hn _].
  unfold family_lines. apply Forall_app; split; [|apply Forall_app; split].
  - repeat constructor; simpl; rewrite ?Hn; [done|]. by destruct (fam_kind f).
  - by apply Forall_map_sample_line, Forall_List_filter.
  - destruct (List.filter _ _) as [|s ss] eqn:E; [constructor|].
    apply Forall_app; split.
    + repeat constructor; simpl; by rewrite is_token_app, Hn.
    + rewrite <-E. by apply Forall_map_sample_line, Forall_List_filter.
Qed.

Lemma exposition_wf fams :
  Forall (fun f => fam_tokens f = true) fams -> Forall (fun l => line_wf l = true) (exposition fams).
Proof.
  induction 1 as [|f fams Hf _ IH]; [constructor|]. unfold exposition in *. cbn [flat_map].
  apply Forall_app. split; [by apply family_lines_wf|exact IH].
Qed.
End Readable.

(** ** A [floatToGoString] exact on integers *)

Module GoDecimal.

(** [s.rstrip(chars)]. *)
Fixpoint rstrip (p : ascii -> bool) (s : string) : string :=
  match s with
  | EmptyString => EmptyString
  | String c s' =>
      let r := rstrip p s' in
      if String.eqb r EmptyString && p c then EmptyString else String c r
  end.

(** [floatToGoString(float(z))] for [abs(z) < 10**16], where [repr]
    prints [str(z) + '.0']: a positive value of more than six digits
    switches to Go's exponent form, [mantissa.rstrip('0.')] then
    ["e+0"] and the exponent. *)
Definition go_int (z : Z) : string :=
  let s := py_str_int z in
  if (0 <? z)%Z && (6 <? String.length s)%nat then
    match s with
    | String d0 rest =>
        rstrip (fun c => Ascii.eqb c "0" || Ascii.eqb c ".") (String d0 ("." +:+ rest +:+ "0"))
          +:+ "e+0" +:+ py_str_int (Z.of_nat (String.length s - 1))
    | EmptyString => EmptyString
    end
  else s +:+ ".0".

(** A non-integer value is printed as an exact fraction. *)
#[export] Instance go_decimal : GoFloat := fun q =>
  let q' := Qred q in
  if (Qden q' =? 1)%positive then go_int (Qnum q')
  else py_str_int (Qnum q') +:+ "/" +:+ py_str_int (Zpos (Qden q')).

Lemma no_nl_uint u : no_nl (NilEmpty.string_of_uint u) = true.
Proof. induction u; simpl; auto. Qed.

Lemma no_nl_py_str_int z : no_nl (py_str_int z) = true.
Proof.
  unfold py_str_int, NilZero.string_of_int, NilZero.string_of_uint.
  destruct (Z.to_int z) as [u|u]; [|simpl]; destruct u; try reflexivity; apply no_nl_uint.
Qed.

Lemma no_nl_rstrip p s : no_nl s = true -> no_nl (rstrip p s) = true.
Proof.
  induction s as [|c s IH]; [done|]. unfold no_nl. cbn [str_forall rstrip].
  intros [Hc Hs]%andb_prop. destruct (String.eqb _ _ && p c); [done|].
  cbn [str_forall]. rewrite Hc. by apply IH.
Qed.

#[export] Instance go_decimal_laws : GoFloatLaws.
Proof.
  intros q. unfold go_float, go_decimal. destruct (Qden (Qred q) =? 1)%positive.
  - unfold go_int. destruct (_ && _).
    + destruct (py_str_int (Qnum (Qred q))) as [|d0 rest] eqn:E; [done|].
      pose proof (no_nl_py_str_int (Qnum (Qred q))) as Hs. rewrite E, no_nl_cons in Hs.
      apply andb_prop in Hs as [Hd Hr].
      rewrite !no_nl_app, no_nl_py_str_int, no_nl_rstrip; [done|].
      by rewrite no_nl_cons, Hd, !no_nl_app, Hr.
    + by rewrite no_nl_app, no_nl_py_str_int.
  - by rewrite !no_nl_app, !no_nl_py_str_int.
Qed.

End GoDecimal.

(** ** [MetricCollector.get_latest] *)

(** The metrics of the default registry, in registration order. *)
Definition registry_families (w : World) : list family :=
  omap (fun i => w_heap w !! i) (reg_collectors (w_registry w)).

(** [get_latest]: [generate_latest()] on the default registry; [self] is
    not used. *)
Definition get_latest `{GoFloat} (mc : MetricCollector) : M string :=
  gets (fun w => generate_latest (registry_families w)).

Lemma fam_tokens_shape f f' : same_shape f f' -> fam_tokens f' = fam_tokens f.
Proof. intros (Hn & Hl & _). unfold fam_tokens. by rewrite Hn, Hl. Qed.

(** The registered metrics keep their names, label names and kinds. *)
Lemma registry_families_evolves w w' :
  evolves w w' -> Forall2 same_shape (registry_families w) (registry_families w').
Proof.
  intros (Hs & Hr & _). unfold registry_families. rewrite Hr.
  induction (reg_collectors (w_registry w)) as [|i ids IH]; simpl; [constructor|].
  destruct (w_heap w !! i) as [f|] eqn:E.
  - destruct (Forall2_lookup_l _ _ _ _ _ Hs E) as (f' & -> & Hsh). by constructor.
  - apply lookup_ge_None in E. rewrite (Forall2_length _ _ _ Hs) in E.
    by rewrite (proj2 (lookup_ge_None _ _) E).
Qed.

Lemma fam_tokens_evolves w w' :
  evolves w w' -> Forall (fun f => fam_tokens f = true) (registry_families w) ->
  Forall (fun f => fam_tokens f = true) (registry_families w').
Proof.
  intros He. induction (registry_families_evolves w w' He) as [|f f' fs fs' Hsh _ IH];
    [done|]. intros [Hf Hfs]%Forall_cons. constructor; [by rewrite (fam_tokens_shape f f' Hsh)|by apply IH].
Qed.


(** ** The exposition follows the registered schema *)

Section Schema.
Context `{GoFloat}.

Lemma insert_label_perm kv ls : insert_label kv ls ≡ₚ kv :: ls.
Proof.
  induction ls as [|kv' ls IH]; simpl; [done|].
  destruct (String.leb kv.1 kv'.1); [done|]. rewrite IH. apply Permutation_swap.
Qed.

Lemma sort_labels_perm ls : sort_labels ls ≡ₚ ls.
Proof. induction ls as [|kv ls IH]; [done|]. simpl. by rewrite insert_label_perm, IH. Qed.

(** The suffix of a child sample is one [_get_names] registers, and its
    own labels are none or [le]. *)
Definition csample_shape (k : kind) (cs : string * list (string * string) * Q) : Prop :=
  In cs.1.1 (type_suffixes k) /\ map fst cs.1.2 ∈ [[]; ["le"]].

Lemma bucket_samples_shape ubs bs acc :
  Forall (csample_shape (KHistogram ubs)) (bucket_samples ubs bs acc).1.
Proof.
  enough (forall ubs', Forall (csample_shape (KHistogram ubs')) (bucket_samples ubs bs acc).1) by done.
  intros ubs'. revert bs acc. induction ubs as [|ub ubs IH]; intros [|n bs] acc; simpl; try constructor.
  destruct (bucket_samples ubs bs (acc + n)) as [l a] eqn:E. simpl. constructor.
  - split; [simpl; tauto|]. simpl. set_solver.
  - specialize (IH bs (acc + n)%nat). by rewrite E in IH.
Qed.

Lemma tail_shape k n s t :
  Forall (csample_shape k) [("_count", [], n); ("_sum", [], s); ("_created", [], t)].
Proof.
  unfold csample_shape. destruct k; repeat apply Forall_cons_2; try apply Forall_nil_2;
    (split; [simpl; tauto|apply list_elem_of_here]).
Qed.

Lemma child_samples_shape k c : Forall (csample_shape k) (child_samples k c).
Proof.
  destruct c as [n s t|bs s t]; simpl; [apply tail_shape|].
  destruct k as [|ubs]; [apply tail_shape|].
  pose proof (bucket_samples_shape ubs bs 0) as Hb.
  destruct (bucket_samples ubs bs 0) as [l a]. simpl in Hb.
  apply Forall_app; split; [done|apply tail_shape].
Qed.

(** What a line of [family_lines f] may be: the [# HELP]/[# TYPE] lines
    of the metric or of its [_created] gauge, and samples named by
    [_get_names] whose label names are the metric's, plus [le] on a
    bucket. *)
Definition line_schema (f : family) (l : line) : Prop :=
  match l with
  | LHelp n _ | LType n _ => n = fam_name f \/ n = fam_name f +:+ "_created"
  | LSample n ls _ =>
      In n (get_names f) /\
      (map fst ls ≡ₚ fam_labelnames f \/ map fst ls ≡ₚ fam_labelnames f ++ ["le"])
  end.

Lemma family_samples_schema f s :
  Forall (fun kc => length kc.1 = length (fam_labelnames f)) (fam_metrics f) ->
  s ∈ family_samples f -> line_schema f (sample_line s).
Proof.
  intros Hlen Hin%list_elem_of_In%in_flat_map. destruct Hin as ([key c] & Hkc & Hin%in_map_iff).
  destruct Hin as ([[suf sl] v] & <- & Hin).
  destruct (proj1 (Forall_forall _ _) (child_samples_shape (fam_kind f) c) (suf, sl, v)
              (proj2 (list_elem_of_In _ _) Hin)) as [Hsuf Hsl]. simpl in Hsuf, Hsl.
  pose proof (proj1 (Forall_forall _ _) Hlen (key, c) (proj2 (list_elem_of_In _ _) Hkc)) as Hk.
  simpl in Hk. simpl. split.
  - right. apply in_map_iff. by exists suf.
  - rewrite sort_labels_perm, map_app. change (map fst (zip (fam_labelnames f) key)) with
      ((zip (fam_labelnames f) key).*1). rewrite fst_zip by lia.
    apply elem_of_cons in Hsl as [->|Hsl]; [left; by rewrite app_nil_r|].
    apply list_elem_of_singleton in Hsl as ->. by right.
Qed.

Lemma Forall_filter_map_schema f (g : sample -> bool) :
  Forall (fun kc => length kc.1 = length (fam_labelnames f)) (fam_metrics f) ->
  Forall (line_schema f) (map sample_line (List.filter g (family_samples f))).
Proof.
  intros Hlen. apply Forall_forall. intros l Hl%list_elem_of_In%in_map_iff.
  destruct Hl as (s & <- & Hs%filter_In). apply family_samples_schema; [done|].
  by apply list_elem_of_In, Hs.
Qed.

(** Every line [generate_latest] writes for a metric follows its schema. *)
Lemma family_lines_schema f :
  Forall (fun kc => length kc.1 = length (fam_labelnames f)) (fam_metrics f) ->
  Forall (line_schema f) (family_lines f).
Proof.
  intros Hlen. unfold family_lines. apply Forall_app; split; [|apply Forall_app; split].
  - repeat constructor; by left.
  - by apply Forall_filter_map_schema.
  - destruct (List.filter _ _) as [|s ss] eqn:E; [constructor|].
    apply Forall_app; split; [repeat constructor; by right|].
    rewrite <-E. by apply Forall_filter_map_schema.
Qed.
End Schema.

(** ** The [_count] line of a Summary child *)

#[export] Instance line_eq_dec : EqDecision line.
Proof. solve_decision. Defined.

Lemma sapp_inv_l (a b c : string) : a +:+ b = a +:+ c -> b = c.
Proof. induction a as [|x a IH]; [done|]. rewrite !sapp_cons. intros [= H]. by apply IH. Qed.

Section CountLine.
Context `{GoFloat}.

Lemma exposition_family f fams l : f ∈ fams -> l ∈ family_lines f -> l ∈ exposition fams.
Proof.
  intros Hf Hl. unfold exposition. apply list_elem_of_In, in_flat_map.
  exists f. split; by apply list_elem_of_In.
Qed.

(** A Summary child [(key, c)] is exposed as the sample
    [name_count{labels} count]. *)
Lemma summary_count_line f key n s t :
  (key, SummaryChild n s t) ∈ fam_metrics f ->
  sample_line (mkSample (fam_name f +:+ "_count") (zip (fam_labelnames f) key ++ [])
                 (inject_Z (Z.of_nat n))) ∈ family_lines f.
Proof.
  intros Hkc. unfold family_lines. apply elem_of_app. right. apply elem_of_app. left.
  apply list_elem_of_In, in_map, filter_In. split.
  - unfold family_samples. apply in_flat_map. exists (key, SummaryChild n s t).
    split; [by apply list_elem_of_In|]. simpl. left. reflexivity.
  - apply negb_true_iff, String.eqb_neq. intros Heq%sapp_inv_l. discriminate.
Qed.
(** The [_bucket] samples of a Histogram child are its cumulative
    buckets, one per bound. *)
Lemma bucket_samples_fst ubs bs acc :
  (bucket_samples ubs bs acc).1 =
    zip_with (fun ub n => ("_bucket", [("le", go_bound ub)], inject_Z (Z.of_nat n))) ubs (cumulative_from acc bs).
Proof.
  revert bs acc. induction ubs as [|ub ubs IH]; intros [|n bs] acc; simpl; try done.
  specialize (IH bs (acc + n)%nat). destruct (bucket_samples ubs bs (acc + n)) as [l a]. simpl in *.
  by rewrite IH.
Qed.

(** A Histogram child [(key, bs)] is exposed with the sample
    [name_bucket{labels,le=ub} n] for the [j]-th bound [ub] and the
    [j]-th cumulative bucket [n]. *)
Lemma histogram_bucket_line f key bs s t ubs j ub n :
  fam_kind f = KHistogram ubs -> (key, HistogramChild bs s t) ∈ fam_metrics f ->
  ubs !! j = Some ub -> cumulative bs !! j = Some n ->
  sample_line (mkSample (fam_name f +:+ "_bucket") (zip (fam_labelnames f) key ++ [("le", go_bound ub)])
                 (inject_Z (Z.of_nat n))) ∈ family_lines f.
Proof.
  intros Hk Hkc Hj Hn. unfold family_lines. apply elem_of_app. right. apply elem_of_app. left.
  apply list_elem_of_In, in_map, filter_In. split.
  - unfold family_samples. apply in_flat_map. exists (key, HistogramChild bs s t).
    split; [by apply list_elem_of_In|]. cbn [snd fst]. rewrite Hk. unfold child_samples.
    destruct (bucket_samples ubs bs 0) as [l a] eqn:E.
    apply in_map_iff. exists ("_bucket", [("le", go_bound ub)], inject_Z (Z.of_nat n)).
    split; [reflexivity|]. apply in_or_app. left.
    assert (l = (bucket_samples ubs bs 0).1) as -> by (by rewrite E). rewrite bucket_samples_fst.
    apply list_elem_of_In, (list_elem_of_lookup_2 _ j). rewrite lookup_zip_with, Hj. simpl.
    unfold cumulative in Hn. by rewrite Hn.
  - apply negb_true_iff, String.eqb_neq. intros Heq%sapp_inv_l. discriminate.
Qed.
End CountLine.
