(* ===== verification/Concurrency.v ===== *)
(** * Concurrent observations: the lock granularity of the client

    Flask's server handles requests in threads, and a request's
    [observe_myself], [observe_db] and [observe_external] calls
    (main.py 12-21) are [labels(...).observe(d)] on a metric shared by
    all requests.  In the client, [labels] runs its get-or-create under
    the parent's lock; [Summary.observe] is [self._count.inc(1)] then
    [self._sum.inc(amount)], and [Histogram.observe] is
    [self._sum.inc(amount)] then [self._buckets[i].inc(1)] for the first
    bound [i] at least [amount], each value ([MutexValue]) under a lock of
    its own.  The exposition's [_child_samples] reads the [_count] (for a
    Histogram the buckets, summed) and then the [_sum], each under its
    value's lock.

    This file models those critical sections as the atomic steps of an
    interleaving semantics ([cstep]) over one shared metric family, a
    list of request threads (program counter [th_pc]: 0 before [labels],
    1 before the first increment, 2 before the second, 3 done) and one
    scraper reading the [_count] and then the [_sum] of one child.  The
    scraper reads a Histogram's buckets in one step: a coarsening of the
    bucket-by-bucket reads of the client, so every interleaving of the
    model is one of the program.

    The theorems: the interleavings lose no update (an invariant proved by
    induction on the reachable states), a completed interleaving has the
    counts and sums of the sequential run, and a scraper can read a torn
    pair:
    on a Summary a [_count] that includes an observation whose amount its
    [_sum] does not, on a Histogram the reverse; no set of completed
    observations explains either. *)

From stdpp Require Import base list strings sets relations.
From Stdlib Require Import QArith Lqa ZArith.
From S2P Require Import Prelude PyRuntime Prometheus Collector.

(** ** State *)

Record thread := mkThread {
  th_key : list string;
  th_amount : Q;
  (** [time.time()] read when [labels] creates the child. *)
  th_now : Q;
  th_pc : nat
}.

Inductive scraper :=
| SIdle
| SCount (c : nat)
| SDone (c : nat) (s : Q).

Record cstate := mkCState {
  cs_fam : family;
  cs_threads : list thread;
  cs_scr_key : list string;
  cs_scr : scraper
}.

(** The thread of a request whose after hook calls
    [observe_myself(path, method, status_code, duration)]: the key
    [labels] computes from the keyword arguments, the amount. *)
Definition observe_myself_thread (f : family) (path method : string) (status_code : Z)
    (duration now : Q) : outcome thread :=
  match labels_key f [("path", path); ("method", method); ("status_code", py_str_int status_code)] with
  | Ret key => Ret (mkThread key duration now 0)
  | Raise e => Raise e
  end.

(** The thread of a request whose database call records
    [observe_db(status_code, sql_state, latency)]. *)
Definition observe_db_thread (f : family) (status_code sql_state : string) (duration now : Q)
    : outcome thread :=
  match labels_key f [("status_code", status_code); ("sql_state", sql_state)] with
  | Ret key => Ret (mkThread key duration now 0)
  | Raise e => Raise e
  end.

Fixpoint observe_myself_threads (f : family) (calls : list (string * string * Z * Q * Q))
    : outcome (list thread) :=
  match calls with
  | [] => Ret []
  | (path, method, status, d, now) :: calls' =>
      match observe_myself_thread f path method status d now, observe_myself_threads f calls' with
      | Ret t, Ret ts => Ret (t :: ts)
      | Raise e, _ | _, Raise e => Raise e
      end
  end.

(** ** The critical sections *)

(** [self._count.inc(1)] and [self._sum.inc(amount)]. *)
Definition inc_count (c : child) : child :=
  match c with
  | SummaryChild n s t => SummaryChild (S n) s t
  | HistogramChild bs s t => HistogramChild bs s t
  end.

Definition inc_sum (x : Q) (c : child) : child :=
  match c with
  | SummaryChild n s t => SummaryChild n (s + x) t
  | HistogramChild bs s t => HistogramChild bs (s + x) t
  end.

(** The bucket loop of [Histogram.observe]: [self._buckets[i].inc(1)]
    for the first bound at least [amount]. *)
Definition inc_bucket (ubs : list bound) (x : Q) (c : child) : child :=
  match c with
  | HistogramChild bs s t => HistogramChild (bump_first ubs bs x) s t
  | SummaryChild n s t => SummaryChild n s t
  end.

(** The two increments of [observe], in the order of the client. *)
Definition section1 (k : kind) (x : Q) : child -> child :=
  match k with KSummary => inc_count | KHistogram _ => inc_sum x end.

Definition section2 (k : kind) (x : Q) : child -> child :=
  match k with KSummary => inc_sum x | KHistogram ubs => inc_bucket ubs x end.

(** An update of the child stored under [key]. *)
Definition fam_alter (key : list string) (g : child -> child) (f : family) : family :=
  match lookup_child key (fam_metrics f) with
  | Some c =>
      {| fam_name := fam_name f; fam_doc := fam_doc f;
         fam_labelnames := fam_labelnames f; fam_kind := fam_kind f;
         fam_metrics := set_child key (g c) (fam_metrics f) |}
  | None => f
  end.

(** The [_count] and the [_sum] the exposition reads under [key]. *)
Definition key_count (f : family) (key : list string) : nat :=
  match lookup_child key (fam_metrics f) with Some c => child_count c | None => 0%nat end.

Definition key_sum (f : family) (key : list string) : Q :=
  match lookup_child key (fam_metrics f) with Some c => child_sum c | None => 0 end.

Definition with_pc (t : thread) (pc : nat) : thread :=
  mkThread (th_key t) (th_amount t) (th_now t) pc.

Definition set_fam_thread (s : cstate) (f : family) (i : nat) (t : thread) : cstate :=
  mkCState f (<[i:=t]> (cs_threads s)) (cs_scr_key s) (cs_scr s).

Definition set_scr (s : cstate) (sc : scraper) : cstate :=
  mkCState (cs_fam s) (cs_threads s) (cs_scr_key s) sc.

(** One atomic step of one thread or of the scraper. *)
Inductive cstep : cstate -> cstate -> Prop :=
| cstep_labels s i t :
    cs_threads s !! i = Some t -> th_pc t = 0%nat ->
    cstep s (set_fam_thread s (fam_ensure_child (cs_fam s) (th_key t) (th_now t)) i (with_pc t 1))
| cstep_first s i t :
    cs_threads s !! i = Some t -> th_pc t = 1%nat ->
    cstep s (set_fam_thread s (fam_alter (th_key t) (section1 (fam_kind (cs_fam s)) (th_amount t)) (cs_fam s))
               i (with_pc t 2))
| cstep_second s i t :
    cs_threads s !! i = Some t -> th_pc t = 2%nat ->
    cstep s (set_fam_thread s (fam_alter (th_key t) (section2 (fam_kind (cs_fam s)) (th_amount t)) (cs_fam s))
               i (with_pc t 3))
| cstep_read_count s :
    cs_scr s = SIdle -> cstep s (set_scr s (SCount (key_count (cs_fam s) (cs_scr_key s))))
| cstep_read_sum s c :
    cs_scr s = SCount c -> cstep s (set_scr s (SDone c (key_sum (cs_fam s) (cs_scr_key s)))).

(** The start: every thread before [labels], the scraper idle. *)
Definition initial (s : cstate) : Prop :=
  Forall (fun t => th_pc t = 0%nat) (cs_threads s) /\ cs_scr s = SIdle.

Definition completed (s : cstate) : Prop :=
  Forall (fun t => th_pc t = 3%nat) (cs_threads s) /\ exists c x, cs_scr s = SDone c x.

(** The sequential run: each thread's [labels(...).observe(amount)] in
    turn, as [labels_observe] does it. *)
Definition seq_run (f : family) (ts : list thread) : family :=
  foldl (fun f t => fam_observe (fam_ensure_child f (th_key t) (th_now t)) (th_key t) (th_amount t)) f ts.

(** An executable scheduler: the step of one actor, if it can move. *)
Inductive actor := AThread (i : nat) | AScraper.

Definition cexec (a : actor) (s : cstate) : option cstate :=
  match a with
  | AThread i =>
      match cs_threads s !! i with
      | Some t =>
          match th_pc t with
          | 0%nat => Some (set_fam_thread s (fam_ensure_child (cs_fam s) (th_key t) (th_now t)) i (with_pc t 1))
          | 1%nat => Some (set_fam_thread s (fam_alter (th_key t) (section1 (fam_kind (cs_fam s)) (th_amount t))
                                              (cs_fam s)) i (with_pc t 2))
          | 2%nat => Some (set_fam_thread s (fam_alter (th_key t) (section2 (fam_kind (cs_fam s)) (th_amount t))
                                              (cs_fam s)) i (with_pc t 3))
          | _ => None
          end
      | None => None
      end
  | AScraper =>
      match cs_scr s with
      | SIdle => Some (set_scr s (SCount (key_count (cs_fam s) (cs_scr_key s))))
      | SCount c => Some (set_scr s (SDone c (key_sum (cs_fam s) (cs_scr_key s))))
      | SDone _ _ => None
      end
  end.

Fixpoint cexec_all (sch : list actor) (s : cstate) : option cstate :=
  match sch with
  | [] => Some s
  | a :: sch' => match cexec a s with Some s1 => cexec_all sch' s1 | None => None end
  end.

(** The program counter after which a thread's increment of the
    [_count] (of the [_sum]) is visible. *)
Definition count_pc (k : kind) : nat := match k with KSummary => 2 | KHistogram _ => 3 end.

Definition sum_pc (k : kind) : nat := match k with KSummary => 3 | KHistogram _ => 2 end.

(** Tallies of the threads that have run a critical section. *)
Definition count_w (kd : kind) (k : list string) (t : thread) : nat :=
  if bool_decide (th_key t = k) && (count_pc kd <=? th_pc t)%nat then 1 else 0.

Definition sum_w (kd : kind) (k : list string) (t : thread) : Q :=
  if bool_decide (th_key t = k) && (sum_pc kd <=? th_pc t)%nat then th_amount t else 0.

Definition key_w (k : list string) (t : thread) : nat :=
  if bool_decide (th_key t = k) then 1 else 0.

Definition amount_w (k : list string) (t : thread) : Q :=
  if bool_decide (th_key t = k) then th_amount t else 0.

Definition forget_pc (t : thread) : thread := with_pc t 0.

(** A well-formed family: its kind is, and every child has its shape. *)
Definition fam_ok (f : family) : Prop :=
  kind_wf (fam_kind f) /\ Forall (fun kc => child_wf (fam_kind f) kc.2) (fam_metrics f).

Definition summary_fam (f : family) : Prop :=
  fam_kind f = KSummary /\ Forall (fun kc => child_wf KSummary kc.2) (fam_metrics f).

(** A pair read by a scraper that some set of completed observations
    explains. *)
Definition explained (f0 : family) (ts : list thread) (k : list string) (c : nat) (x : Q) : Prop :=
  exists sel : list bool, length sel = length ts /\
    c = (key_count f0 k + sum_list (zip_with (fun (b : bool) t => if b then key_w k t else 0%nat) sel ts))%nat /\
    x == key_sum f0 k + Qsum (zip_with (fun (b : bool) t => if b then amount_w k t else 0) sel ts).

(** ** Lists updated at one index *)

Section Insert.
Context {A : Type}.

Lemma sum_list_insert (w : A -> nat) (l : list A) i x y :
  l !! i = Some x -> (sum_list (map w (<[i:=y]> l)) + w x = sum_list (map w l) + w y)%nat.
Proof.
  revert i. induction l as [|a l IH]; intros [|i] Hi; simplify_eq/=; [lia|].
  specialize (IH i Hi). lia.
Qed.

Lemma Qsum_insert (w : A -> Q) (l : list A) i x y :
  l !! i = Some x -> Qsum (map w (<[i:=y]> l)) + w x == Qsum (map w l) + w y.
Proof.
  revert i. induction l as [|a l IH]; intros [|i] Hi; unfold Qsum in *; simplify_eq/=; [lra|].
  specialize (IH i Hi). lra.
Qed.

Lemma map_insert_same {B} (g : A -> B) (l : list A) i x y :
  l !! i = Some x -> g y = g x -> map g (<[i:=y]> l) = map g l.
Proof.
  revert i. induction l as [|a l IH]; intros [|i] Hi Hg; simplify_eq/=; [by rewrite Hg|].
  by rewrite IH.
Qed.
End Insert.

(** ** The dict under the critical sections *)

Lemma lookup_fam_alter k g f k' :
  lookup_child k' (fam_metrics (fam_alter k g f)) =
    if bool_decide (k' = k) then g <$> lookup_child k (fam_metrics f)
    else lookup_child k' (fam_metrics f).
Proof.
  unfold fam_alter. destruct (lookup_child k (fam_metrics f)) as [c|] eqn:E; simpl.
  - case_bool_decide; subst; [apply lookup_set_child_eq|by apply lookup_set_child_ne].
  - case_bool_decide; subst; done.
Qed.

Lemma lookup_fam_ensure k t f k' :
  lookup_child k' (fam_metrics (fam_ensure_child f k t)) =
    match lookup_child k' (fam_metrics f) with
    | Some c => Some c
    | None => if bool_decide (k = k') then Some (child_init (fam_kind f) t) else None
    end.
Proof.
  unfold fam_ensure_child. destruct (lookup_child k (fam_metrics f)) as [c|] eqn:E; simpl.
  - destruct (lookup_child k' _) eqn:E'; [done|]. case_bool_decide; subst; congruence.
  - apply lookup_child_snoc.
Qed.

Lemma set_child_twice k c1 c2 ms : set_child k c2 (set_child k c1 ms) = set_child k c2 ms.
Proof.
  induction ms as [|[k0 c0] ms IH]; simpl; [by rewrite bool_decide_true|].
  case_bool_decide; simpl; [by rewrite bool_decide_true|].
  rewrite bool_decide_false by done. by rewrite IH.
Qed.

Lemma fam_alter_kind k g f : fam_kind (fam_alter k g f) = fam_kind f.
Proof. unfold fam_alter. by destruct (lookup_child _ _). Qed.

Lemma fam_ensure_kind f k t : fam_kind (fam_ensure_child f k t) = fam_kind f.
Proof. apply (fam_ensure_child_shape f k t). Qed.

Lemma ok_lookup f k c : fam_ok f -> lookup_child k (fam_metrics f) = Some c -> child_wf (fam_kind f) c.
Proof. intros [_ Hall] Hc%lookup_child_Some. exact (proj1 (Forall_forall _ _) Hall _ Hc). Qed.

Lemma ok_ensure f k t : fam_ok f -> fam_ok (fam_ensure_child f k t).
Proof.
  intros [Hk Hall]. unfold fam_ensure_child. destruct (lookup_child _ _); [by split|].
  split; [done|]. simpl. apply Forall_app. split; [done|]. apply Forall_singleton. apply child_init_wf.
Qed.

Lemma ok_alter f k g :
  (forall c, child_wf (fam_kind f) c -> child_wf (fam_kind f) (g c)) ->
  fam_ok f -> fam_ok (fam_alter k g f).
Proof.
  intros Hg [Hk Hall]. unfold fam_alter. destruct (lookup_child k _) as [c|] eqn:E; [|by split].
  split; [done|]. simpl. apply Forall_set_child; [done|]. simpl. apply Hg.
  apply lookup_child_Some in E. exact (proj1 (Forall_forall _ _) Hall _ E).
Qed.

Lemma section1_wf k x c : child_wf k c -> child_wf k (section1 k x c).
Proof. by destruct k, c. Qed.

Lemma section2_wf k x c : child_wf k c -> child_wf k (section2 k x c).
Proof. destruct k, c; simpl; try done. by rewrite bump_first_length. Qed.

Lemma summary_fam_ok f : summary_fam f -> fam_ok f.
Proof. intros [Hk Hall]. unfold fam_ok. rewrite Hk. by split. Qed.

#[export] Hint Resolve ok_ensure ok_alter section1_wf section2_wf summary_fam_ok : pym.

Lemma ok_section1 f k x : fam_ok f -> fam_ok (fam_alter k (section1 (fam_kind f) x) f).
Proof. auto with pym. Qed.

Lemma ok_section2 f k x : fam_ok f -> fam_ok (fam_alter k (section2 (fam_kind f) x) f).
Proof. auto with pym. Qed.

Lemma ensure_is_Some f k t k' :
  is_Some (lookup_child k' (fam_metrics f)) ->
  is_Some (lookup_child k' (fam_metrics (fam_ensure_child f k t))).
Proof. rewrite lookup_fam_ensure. by intros [c ->]. Qed.

Lemma ensure_is_Some_self f k t : is_Some (lookup_child k (fam_metrics (fam_ensure_child f k t))).
Proof. rewrite lookup_fam_ensure. destruct (lookup_child k _); [done|]. by rewrite bool_decide_true. Qed.

Lemma alter_is_Some f k g k' :
  is_Some (lookup_child k' (fam_metrics f)) ->
  is_Some (lookup_child k' (fam_metrics (fam_alter k g f))).
Proof. rewrite lookup_fam_alter. intros [c Hc]. case_bool_decide; subst; rewrite Hc; by eexists. Qed.

Lemma key_count_ensure f k t k' : key_count (fam_ensure_child f k t) k' = key_count f k'.
Proof.
  unfold key_count. rewrite lookup_fam_ensure. destruct (lookup_child k' _); [done|].
  case_bool_decide; [apply child_init_count|done].
Qed.

Lemma key_sum_ensure f k t k' : key_sum (fam_ensure_child f k t) k' = key_sum f k'.
Proof.
  unfold key_sum. rewrite lookup_fam_ensure. destruct (lookup_child k' _); [done|].
  case_bool_decide; [apply child_init_sum|done].
Qed.

(** An update of one child that adds [n] to its [_count] ([x] to its
    [_sum]) adds it to the [_count] ([_sum]) read under its key. *)
Lemma key_count_alter f k g c k' n :
  lookup_child k (fam_metrics f) = Some c -> child_count (g c) = (child_count c + n)%nat ->
  key_count (fam_alter k g f) k' = (key_count f k' + if bool_decide (k = k') then n else 0)%nat.
Proof.
  intros Hc Hg. unfold key_count. rewrite lookup_fam_alter.
  destruct (decide (k = k')) as [<-|Hne].
  - rewrite !bool_decide_true, Hc by done. simpl. lia.
  - rewrite !bool_decide_false by congruence. lia.
Qed.

Lemma key_sum_alter f k g c k' x :
  lookup_child k (fam_metrics f) = Some c -> child_sum (g c) == child_sum c + x ->
  key_sum (fam_alter k g f) k' == key_sum f k' + if bool_decide (k = k') then x else 0.
Proof.
  intros Hc Hg. unfold key_sum. rewrite lookup_fam_alter.
  destruct (decide (k = k')) as [<-|Hne].
  - rewrite !bool_decide_true, Hc by done. exact Hg.
  - rewrite !bool_decide_false by congruence. lra.
Qed.

(** What each increment adds, on a child of the family's shape. *)
Lemma section1_count k x c :
  child_wf k c -> child_count (section1 k x c) = (child_count c + if count_pc k =? 2 then 1 else 0)%nat.
Proof. destruct k, c; simpl; intros; try done; lia. Qed.

Lemma section1_sum k x c : child_sum (section1 k x c) == child_sum c + if sum_pc k =? 2 then x else 0.
Proof. destruct k, c; simpl; lra. Qed.

Lemma section2_count k x c :
  kind_wf k -> child_wf k c -> child_count (section2 k x c) = (child_count c + if count_pc k =? 3 then 1 else 0)%nat.
Proof.
  destruct k, c; simpl; intros Hk Hc; try done; try lia.
  rewrite bump_first_sum by (done || apply Hk). lia.
Qed.

Lemma section2_sum k x c : child_sum (section2 k x c) == child_sum c + if sum_pc k =? 3 then x else 0.
Proof. destruct k, c; simpl; lra. Qed.

(** The sequential [observe] is its two increments run back to back. *)
Lemma fam_observe_steps f k x :
  fam_ok f ->
  fam_observe f k x = fam_alter k (section2 (fam_kind f) x) (fam_alter k (section1 (fam_kind f) x) f).
Proof.
  intros Hok. unfold fam_observe, fam_alter. destruct (lookup_child k (fam_metrics f)) as [c|] eqn:E.
  - simpl. rewrite lookup_set_child_eq, set_child_twice.
    pose proof (ok_lookup f k c Hok E) as Hc. by destruct (fam_kind f), c.
  - simpl. by rewrite E.
Qed.

(** ** The scheduler and the relation *)

Lemma cexec_sound a s s' : cexec a s = Some s' -> cstep s s'.
Proof.
  intros Hc. destruct a as [i|]; simpl in Hc.
  - destruct (cs_threads s !! i) as [t|] eqn:Ht; [|done].
    destruct (th_pc t) as [|[|[|]]] eqn:Hp; simplify_eq; eauto using cstep.
  - destruct (cs_scr s) eqn:Hs; simplify_eq; eauto using cstep.
Qed.

Lemma cexec_all_nsteps sch s s' : cexec_all sch s = Some s' -> nsteps cstep (length sch) s s'.
Proof.
  revert s. induction sch as [|a sch IH]; intros s; simpl; [intros [= <-]; constructor|].
  destruct (cexec a s) as [s1|] eqn:E; [|done]. intros H. eapply nsteps_l; [exact (cexec_sound a s s1 E)|auto].
Qed.

Lemma cexec_all_rtc sch s s' : cexec_all sch s = Some s' -> rtc cstep s s'.
Proof. intros H. exact (rtc_nsteps_2 _ _ _ (cexec_all_nsteps sch s s' H)). Qed.

(** ** The invariant: no update is lost *)

(** Relative to the start [s0]: the family keeps its kind and shape, the
    threads keep their keys and amounts, a thread past [labels] finds its
    child, and every [_count] and [_sum] is the start's plus the
    increments of the threads that ran them. *)
Record cinv (s0 s : cstate) : Prop := {
  ci_fam : fam_ok (cs_fam s);
  ci_kind : fam_kind (cs_fam s) = fam_kind (cs_fam s0);
  ci_key : cs_scr_key s = cs_scr_key s0;
  ci_strip : map forget_pc (cs_threads s) = map forget_pc (cs_threads s0);
  ci_pc : Forall (fun t => th_pc t <= 3)%nat (cs_threads s);
  ci_exists : Forall (fun t => 1 <= th_pc t -> is_Some (lookup_child (th_key t) (fam_metrics (cs_fam s))))%nat
                (cs_threads s);
  ci_count : forall k, key_count (cs_fam s) k =
               (key_count (cs_fam s0) k + sum_list (map (count_w (fam_kind (cs_fam s0)) k) (cs_threads s)))%nat;
  ci_sum : forall k, key_sum (cs_fam s) k ==
             key_sum (cs_fam s0) k + Qsum (map (sum_w (fam_kind (cs_fam s0)) k) (cs_threads s))
}.

Lemma cinv_thread s0 s f' i t n :
  cinv s0 s -> cs_threads s !! i = Some t -> (n <= 3)%nat -> fam_ok f' ->
  fam_kind f' = fam_kind (cs_fam s) ->
  Forall (fun t' => 1 <= th_pc t' -> is_Some (lookup_child (th_key t') (fam_metrics f')))%nat
    (<[i:=with_pc t n]> (cs_threads s)) ->
  (forall k, key_count f' k + count_w (fam_kind (cs_fam s0)) k t =
             key_count (cs_fam s) k + count_w (fam_kind (cs_fam s0)) k (with_pc t n))%nat ->
  (forall k, key_sum f' k + sum_w (fam_kind (cs_fam s0)) k t ==
             key_sum (cs_fam s) k + sum_w (fam_kind (cs_fam s0)) k (with_pc t n)) ->
  cinv s0 (set_fam_thread s f' i (with_pc t n)).
Proof.
  intros [Hf Hkd Hk Hst Hpc Hex Hc Hs] Ht Hn Hf' Hkd' Hex' Hc' Hs'. constructor; simpl; try done.
  - by rewrite Hkd'.
  - by rewrite (map_insert_same forget_pc _ i t).
  - by apply Forall_insert.
  - intros k. specialize (Hc k). specialize (Hc' k).
    pose proof (sum_list_insert (count_w (fam_kind (cs_fam s0)) k) _ i t (with_pc t n) Ht). lia.
  - intros k. specialize (Hs k). specialize (Hs' k).
    pose proof (Qsum_insert (sum_w (fam_kind (cs_fam s0)) k) _ i t (with_pc t n) Ht). lra.
Qed.

Lemma cinv_scr s0 s sc : cinv s0 s -> cinv s0 (set_scr s sc).
Proof. by intros []; constructor. Qed.

(** The threads that can have run an increment are past [labels]. *)
Lemma cinv_exists_lookup s0 s i t :
  cinv s0 s -> cs_threads s !! i = Some t -> (1 <= th_pc t)%nat ->
  is_Some (lookup_child (th_key t) (fam_metrics (cs_fam s))).
Proof. intros Hi Ht. exact (Forall_lookup_1 _ _ _ _ (ci_exists _ _ Hi) Ht). Qed.

Lemma exists_alter s0 s i t g n :
  cinv s0 s -> is_Some (lookup_child (th_key t) (fam_metrics (cs_fam s))) ->
  Forall (fun t' => 1 <= th_pc t' -> is_Some (lookup_child (th_key t') (fam_metrics (fam_alter (th_key t) g (cs_fam s)))))%nat
    (<[i:=with_pc t n]> (cs_threads s)).
Proof.
  intros Hi Hsome. apply Forall_insert; [|intros _; by apply alter_is_Some].
  eapply Forall_impl; [exact (ci_exists _ _ Hi)|]. intros t' H1 H2. by apply alter_is_Some, H1.
Qed.

(** The weights of a thread that moves from [pc] to [pc + 1]. *)
Ltac weights Hp :=
  unfold count_w, sum_w; cbn [with_pc th_key th_pc th_amount]; rewrite Hp;
  match goal with |- context [fam_kind ?f] => destruct (fam_kind f) end;
  cbn [count_pc sum_pc Nat.leb Nat.eqb]; rewrite ?andb_false_r, ?andb_true_r;
  repeat case_bool_decide; simpl; first [lia | lra].

Lemma cinv_step s0 s s' : cinv s0 s -> cstep s s' -> cinv s0 s'.
Proof.
  intros Hi Hst. pose proof (ci_fam _ _ Hi) as Hf. pose proof (ci_kind _ _ Hi) as Hkd.
  destruct Hst as [s i t Ht Hp|s i t Ht Hp|s i t Ht Hp|s Hs|s c Hs]; [| | |by apply cinv_scr..].
  - apply (cinv_thread s0 s _ i t 1); auto with pym; [apply fam_ensure_kind| | |].
    + apply Forall_insert; [|intros _; apply ensure_is_Some_self].
      eapply Forall_impl; [exact (ci_exists _ _ Hi)|]. intros t' H1 H2. by apply ensure_is_Some, H1.
    + intros k. rewrite key_count_ensure. weights Hp.
    + intros k. rewrite key_sum_ensure. weights Hp.
  - destruct (cinv_exists_lookup s0 s i t Hi Ht ltac:(lia)) as [c Hc].
    pose proof (ok_lookup _ _ _ Hf Hc) as Hcw.
    apply (cinv_thread s0 s _ i t 2); [done|done|lia|by apply ok_section1|apply fam_alter_kind|
                                       by apply (exists_alter s0)|..].
    + intros k. rewrite (key_count_alter _ _ _ c _ _ Hc (section1_count _ _ _ Hcw)), Hkd. weights Hp.
    + intros k. rewrite (key_sum_alter _ _ _ c _ _ Hc (section1_sum _ _ _)), Hkd. weights Hp.
  - destruct (cinv_exists_lookup s0 s i t Hi Ht ltac:(lia)) as [c Hc].
    pose proof (ok_lookup _ _ _ Hf Hc) as Hcw.
    apply (cinv_thread s0 s _ i t 3); [done|done|lia|by apply ok_section2|apply fam_alter_kind|
                                       by apply (exists_alter s0)|..].
    + intros k. rewrite (key_count_alter _ _ _ c _ _ Hc (section2_count _ _ _ (proj1 Hf) Hcw)), Hkd. weights Hp.
    + intros k. rewrite (key_sum_alter _ _ _ c _ _ Hc (section2_sum _ _ _)), Hkd. weights Hp.
Qed.

Lemma tally_initial kd ts k :
  Forall (fun t => th_pc t = 0%nat) ts ->
  sum_list (map (count_w kd k) ts) = 0%nat /\ Qsum (map (sum_w kd k) ts) == 0.
Proof.
  unfold Qsum. induction 1 as [|t ts Ht _ [IH1 IH2]]; [done|]. simpl.
  unfold count_w at 1, sum_w at 1. rewrite Ht.
  destruct kd; simpl; rewrite !andb_false_r; split; (lia || lra).
Qed.

Lemma cinv_initial s0 : initial s0 -> fam_ok (cs_fam s0) -> cinv s0 s0.
Proof.
  intros [Hpc Hs] Hf. constructor; try done.
  - eapply Forall_impl; [exact Hpc|]. simpl. lia.
  - eapply Forall_impl; [exact Hpc|]. simpl. lia.
  - intros k. rewrite (proj1 (tally_initial _ _ k Hpc)). lia.
  - intros k. rewrite (proj2 (tally_initial _ _ k Hpc)). lra.
Qed.

Lemma cinv_reachable s0 s : initial s0 -> fam_ok (cs_fam s0) -> rtc cstep s0 s -> cinv s0 s.
Proof.
  intros H0 Hf. apply (rtc_ind_r (cinv s0)); [by apply cinv_initial|].
  intros s1 s2 _ H12 IH. exact (cinv_step s0 s1 s2 IH H12).
Qed.

(** ** The sequential run and the completed interleavings *)

(** One [labels(...).observe(x)] adds one to the [_count] and [x] to the
    [_sum] of its key. *)
Lemma observe_one f key now x k :
  fam_ok f ->
  let f1 := fam_observe (fam_ensure_child f key now) key x in
  fam_ok f1 /\
  key_count f1 k = (key_count f k + if bool_decide (key = k) then 1 else 0)%nat /\
  key_sum f1 k == key_sum f k + if bool_decide (key = k) then x else 0.
Proof.
  intros Hf f1. pose proof (ok_ensure f key now Hf) as Hfe.
  destruct (ensure_is_Some_self f key now) as [c0 Hc0].
  pose proof (ok_lookup _ _ _ Hfe Hc0) as Hw0. pose proof (section1_wf _ x _ Hw0) as Hw1.
  set (K := fam_kind (fam_ensure_child f key now)) in *.
  assert (lookup_child key (fam_metrics (fam_alter key (section1 K x) (fam_ensure_child f key now))) =
            Some (section1 K x c0)) as Hc1 by (rewrite lookup_fam_alter, bool_decide_true, Hc0 by done; done).
  subst f1. rewrite fam_observe_steps by done. fold K. split_and!.
  - apply ok_alter; [rewrite fam_alter_kind; apply section2_wf|by apply ok_section1].
  - rewrite (key_count_alter _ _ _ _ _ _ Hc1 (section2_count K x _ (proj1 Hfe) Hw1)).
    rewrite (key_count_alter _ _ _ _ _ _ Hc0 (section1_count K x _ Hw0)), key_count_ensure.
    destruct K; simpl; case_bool_decide; lia.
  - rewrite (key_sum_alter _ _ _ _ _ _ Hc1 (section2_sum K x _)).
    rewrite (key_sum_alter _ _ _ _ _ _ Hc0 (section1_sum K x _)), key_sum_ensure.
    destruct K; simpl; case_bool_decide; lra.
Qed.

Lemma seq_run_tally f ts :
  fam_ok f ->
  fam_ok (seq_run f ts) /\
  forall k, key_count (seq_run f ts) k = (key_count f k + sum_list (map (key_w k) ts))%nat /\
            key_sum (seq_run f ts) k == key_sum f k + Qsum (map (amount_w k) ts).
Proof.
  revert f. induction ts as [|t ts IH]; intros f Hf.
  - split; [done|]. intros k. split; [simpl; lia|unfold Qsum; simpl; lra].
  - set (f1 := fam_observe (fam_ensure_child f (th_key t) (th_now t)) (th_key t) (th_amount t)).
    change (seq_run f (t :: ts)) with (seq_run f1 ts).
    destruct (IH f1 (proj1 (observe_one f (th_key t) (th_now t) (th_amount t) [] Hf))) as [Hs IHk].
    split; [done|]. intros k. destruct (IHk k) as [Hc Hx].
    destruct (observe_one f (th_key t) (th_now t) (th_amount t) k Hf) as (_ & Hc1 & Hx1).
    fold f1 in Hc1, Hx1. rewrite Hc, Hx, Hc1, Hx1. unfold key_w, amount_w, Qsum. simpl.
    split; [lia|lra].
Qed.

Lemma tally_completed kd ts k :
  Forall (fun t => th_pc t = 3%nat) ts ->
  map (count_w kd k) ts = map (key_w k) ts /\ map (sum_w kd k) ts = map (amount_w k) ts.
Proof.
  induction 1 as [|t ts Ht _ [IH1 IH2]]; [done|]. simpl. rewrite IH1, IH2.
  unfold count_w, sum_w, key_w, amount_w. rewrite Ht. by destruct kd; simpl; rewrite !andb_true_r.
Qed.

Lemma map_strip_eq {A} (g : thread -> A) ts ts0 :
  map forget_pc ts = map forget_pc ts0 -> (forall t, g (forget_pc t) = g t) -> map g ts = map g ts0.
Proof.
  intros H Hg. transitivity (map g (map forget_pc ts)).
  - rewrite map_map. apply map_ext. intros t. by rewrite Hg.
  - rewrite H, map_map. apply map_ext. apply Hg.
Qed.

Lemma observe_myself_thread_ret f path method status d now t :
  observe_myself_thread f path method status d now = Ret t ->
  labels_key f [("path", path); ("method", method); ("status_code", py_str_int status)] = Ret (th_key t) /\
  th_amount t = d /\ th_now t = now /\ th_pc t = 0%nat.
Proof. unfold observe_myself_thread. destruct (labels_key _ _); intros H; simplify_eq/=; by split_and!. Qed.

Lemma observe_db_thread_ret f status sql d now t :
  observe_db_thread f status sql d now = Ret t ->
  labels_key f [("status_code", status); ("sql_state", sql)] = Ret (th_key t) /\
  th_amount t = d /\ th_now t = now /\ th_pc t = 0%nat.
Proof. unfold observe_db_thread. destruct (labels_key _ _); intros H; simplify_eq/=; by split_and!. Qed.

Lemma observe_myself_threads_initial f calls ts :
  observe_myself_threads f calls = Ret ts -> Forall (fun t => th_pc t = 0%nat) ts.
Proof.
  revert ts. induction calls as [|[[[[p m] st] d] now] calls IH]; intros ts; simpl.
  - intros [= <-]. constructor.
  - destruct (observe_myself_thread f p m st d now) as [t|] eqn:Ht;
      destruct (observe_myself_threads f calls) as [ts'|]; intros H; simplify_eq/=.
    constructor; [exact (proj2 (proj2 (proj2 (observe_myself_thread_ret _ _ _ _ _ _ _ Ht))))|auto].
Qed.

(** ** Theorems *)

(** C6: no lost updates.  In every interleaving of concurrent requests'
    [labels(...).observe(d)] calls on one metric with a scraper, from a
    start where no thread has run, the [_count] of every label tuple is
    its start value plus the number of threads on that tuple past their
    [_count] increment, and its [_sum] is its start value plus the
    amounts of the threads past their [_sum] increment. *)
Theorem no_lost_updates s0 s :
  initial s0 -> fam_ok (cs_fam s0) -> rtc cstep s0 s ->
  forall k, key_count (cs_fam s) k =
              (key_count (cs_fam s0) k + sum_list (map (count_w (fam_kind (cs_fam s0)) k) (cs_threads s)))%nat /\
            key_sum (cs_fam s) k ==
              key_sum (cs_fam s0) k + Qsum (map (sum_w (fam_kind (cs_fam s0)) k) (cs_threads s)).
Proof.
  intros H0 Hf Hr k. pose proof (cinv_reachable s0 s H0 Hf Hr) as Hi.
  split; [apply (ci_count _ _ Hi)|apply (ci_sum _ _ Hi)].
Qed.

(** The child of a key after its [labels] and first increment. *)
Lemma first_section_child f0 key now :
  fam_ok f0 ->
  exists c0, lookup_child key (fam_metrics (fam_ensure_child f0 key now)) = Some c0 /\
    child_wf (fam_kind f0) c0 /\ child_count c0 = key_count f0 key /\ child_sum c0 = key_sum f0 key.
Proof.
  intros Hf. destruct (ensure_is_Some_self f0 key now) as [c0 Hc0]. exists c0. split_and!; [done| |..].
  - rewrite <-(fam_ensure_kind f0 key now). exact (ok_lookup _ _ _ (ok_ensure _ key now Hf) Hc0).
  - rewrite <-(key_count_ensure f0 key now). unfold key_count. by rewrite Hc0.
  - rewrite <-(key_sum_ensure f0 key now). unfold key_sum. by rewrite Hc0.
Qed.

(** Two threads' worth of a scrape: [labels], the first increment, and
    the scraper's two reads. *)
Lemma torn_run f0 t :
  th_pc t = 0%nat ->
  rtc cstep (mkCState f0 [t] (th_key t) SIdle)
    (let f := fam_alter (th_key t) (section1 (fam_kind f0) (th_amount t)) (fam_ensure_child f0 (th_key t) (th_now t)) in
     mkCState f [with_pc t 2] (th_key t) (SDone (key_count f (th_key t)) (key_sum f (th_key t)))).
Proof.
  intros Hp.
  eapply rtc_l; [apply (cstep_labels _ 0 t); done|].
  eapply rtc_l; [apply (cstep_first _ 0 (with_pc t 1)); done|].
  eapply rtc_l; [apply cstep_read_count; done|].
  eapply rtc_l; [apply cstep_read_sum; done|]. cbn. rewrite fam_ensure_kind. apply rtc_refl.
Qed.

(** C7: a scrape can read a torn pair on a Summary.  One request
    observing a nonzero duration [d] on the self-latency Summary,
    interleaved with a scrape: the scraper can read the [_count] after
    the request's [_count.inc] and the [_sum] before its [_sum.inc], a
    pair that no set of completed observations gives. *)
Theorem torn_snapshot f0 path method status d now t :
  observe_myself_thread f0 path method status d now = Ret t -> summary_fam f0 -> ~ d == 0 ->
  exists s, rtc cstep (mkCState f0 [t] (th_key t) SIdle) s /\
    cs_scr s = SDone (S (key_count f0 (th_key t))) (key_sum f0 (th_key t)) /\
    ~ explained f0 [t] (th_key t) (S (key_count f0 (th_key t))) (key_sum f0 (th_key t)).
Proof.
  intros Ht Hf Hd. destruct (observe_myself_thread_ret _ _ _ _ _ _ _ Ht) as (_ & Ha & _ & Hp).
  destruct (first_section_child f0 (th_key t) (th_now t) (summary_fam_ok _ Hf))
    as (c0 & Hc0 & Hw0 & Hcnt & Hsum).
  rewrite (proj1 Hf) in Hw0. destruct c0 as [n s0 t0|]; [|done]. simpl in Hcnt, Hsum.
  eexists. split; [exact (torn_run f0 t Hp)|split].
  - cbn [cs_scr]. rewrite (proj1 Hf). unfold key_count, key_sum.
    rewrite lookup_fam_alter, bool_decide_true, Hc0 by done. simpl. by rewrite Hcnt, Hsum.
  - intros ([|b [|]] & Hlen & Hc & Hx); simplify_eq/=.
    unfold key_w, amount_w, Qsum in Hc, Hx. rewrite bool_decide_true in Hc, Hx by done.
    destruct b; simpl in Hc, Hx; [apply Hd; lra|lia].
Qed.

(** C24: a scrape can read a torn pair on a Histogram.  One request
    whose database call observes a nonzero latency [d] on the database
    Histogram, interleaved with a scrape: the scraper can read the
    buckets before the request's bucket increment and the [_sum] after
    its [_sum.inc], a pair that no set of completed observations gives. *)
Theorem torn_snapshot_db f0 status_code sql_state d now t :
  observe_db_thread f0 status_code sql_state d now = Ret t -> fam_ok f0 ->
  (exists ubs, fam_kind f0 = KHistogram ubs) -> ~ d == 0 ->
  exists s c x, rtc cstep (mkCState f0 [t] (th_key t) SIdle) s /\ cs_scr s = SDone c x /\
    c = key_count f0 (th_key t) /\ x == key_sum f0 (th_key t) + d /\
    ~ explained f0 [t] (th_key t) c x.
Proof.
  intros Ht Hf [ubs Hk] Hd. destruct (observe_db_thread_ret _ _ _ _ _ _ Ht) as (_ & Ha & _ & Hp).
  destruct (first_section_child f0 (th_key t) (th_now t) Hf) as (c0 & Hc0 & Hw0 & Hcnt & Hsum).
  rewrite Hk in Hw0. destruct c0 as [|bs s0 t0]; [done|]. simpl in Hcnt, Hsum.
  eexists _, _, _. split; [exact (torn_run f0 t Hp)|]. split; [reflexivity|].
  rewrite Hk. unfold key_count, key_sum. rewrite lookup_fam_alter, bool_decide_true, Hc0 by done.
  simpl. rewrite Hcnt, Hsum, Ha. split_and!; [done|reflexivity|].
  intros ([|b [|]] & Hlen & Hc & Hx); simplify_eq/=.
  unfold key_w, amount_w, Qsum in Hc, Hx. rewrite bool_decide_true in Hc, Hx by done.
  destruct b; simpl in Hc, Hx; [lia|apply Hd; lra].
Qed.

(** C10: a completed interleaving is the sequential run.  Whatever the
    order in which concurrent requests' [observe_myself] critical
    sections ran, once all of them are done every label tuple has the
    [_count] and [_sum] the requests would give one after another. *)
Theorem interleaving_sequential f0 calls ts k s :
  fam_ok f0 -> observe_myself_threads f0 calls = Ret ts ->
  rtc cstep (mkCState f0 ts k SIdle) s -> completed s ->
  forall k', key_count (cs_fam s) k' = key_count (seq_run f0 ts) k' /\
             key_sum (cs_fam s) k' == key_sum (seq_run f0 ts) k'.
Proof.
  intros Hf Hts Hr [Hdone _] k'.
  assert (initial (mkCState f0 ts k SIdle)) as H0
    by (split; [exact (observe_myself_threads_initial _ _ _ Hts)|done]).
  pose proof (cinv_reachable _ _ H0 Hf Hr) as Hi.
  destruct (tally_completed (fam_kind f0) _ k' Hdone) as [Hc Hs].
  destruct (proj2 (seq_run_tally f0 ts Hf) k') as [Hsc Hss].
  rewrite (ci_count _ _ Hi k'), (ci_sum _ _ Hi k'), Hsc, Hss. cbn [cs_fam]. rewrite Hc, Hs.
  rewrite (map_strip_eq (key_w k') _ _ (ci_strip _ _ Hi)), (map_strip_eq (amount_w k') _ _ (ci_strip _ _ Hi))
    by (intros []; reflexivity).
  split; reflexivity.
Qed.

(** ** Two requests and a scrape *)

(** The self-latency summary of [newCollector('order-mgmt')] before any
    request, two [GET /hello] requests answered 200, and a schedule in
    which the scraper reads the [_count] between the first request's two
    increments and the [_sum] after both requests. *)
Definition demo_family : family :=
  mkFamily "order_mgmt_duration_seconds" "order-mgmt latency request distribution"
    ["path"; "method"; "status_code"] KSummary [].

Definition demo_calls : list (string * string * Z * Q * Q) :=
  [("/hello", "GET", 200%Z, 1 # 2, 0); ("/hello", "GET", 200%Z, 3 # 2, 0)].

Definition demo_start : cstate :=
  mkCState demo_family
    (match observe_myself_threads demo_family demo_calls with Ret ts => ts | Raise _ => [] end)
    ["/hello"; "GET"; "200"] SIdle.

Definition demo_schedule : list actor :=
  [AThread 0; AThread 1; AThread 0; AScraper; AThread 1; AThread 1; AThread 0; AScraper].

Definition demo_end : cstate := default demo_start (cexec_all demo_schedule demo_start).

Lemma demo_initial : initial demo_start.
Proof. split; [apply (bool_decide_unpack _); vm_compute|]; reflexivity. Qed.

Lemma demo_summary : summary_fam (cs_fam demo_start).
Proof. split; [reflexivity|constructor]. Qed.

Lemma demo_ok : fam_ok (cs_fam demo_start).
Proof. split; [exact I|constructor]. Qed.

Lemma demo_run : cexec_all demo_schedule demo_start = Some demo_end.
Proof. vm_compute. reflexivity. Qed.

Lemma demo_completed : completed demo_end.
Proof. split; [apply (bool_decide_unpack _); vm_compute; reflexivity|vm_compute; by eexists _, _]. Qed.

Example no_lost_updates_witness :
  key_count (cs_fam demo_end) ["/hello"; "GET"; "200"] =
    (key_count (cs_fam demo_start) ["/hello"; "GET"; "200"] +
     sum_list (map (count_w KSummary ["/hello"; "GET"; "200"]) (cs_threads demo_end)))%nat /\
  key_sum (cs_fam demo_end) ["/hello"; "GET"; "200"] ==
    key_sum (cs_fam demo_start) ["/hello"; "GET"; "200"] +
    Qsum (map (sum_w KSummary ["/hello"; "GET"; "200"]) (cs_threads demo_end)).
Proof.
  exact (no_lost_updates demo_start demo_end demo_initial demo_ok
           (cexec_all_rtc _ _ _ demo_run) ["/hello"; "GET"; "200"]).
Defined.

Example torn_snapshot_witness :
  exists s, rtc cstep (mkCState demo_family [mkThread ["/hello"; "GET"; "200"] (1 # 2) 0 0]
                                ["/hello"; "GET"; "200"] SIdle) s /\
    cs_scr s = SDone (S (key_count demo_family ["/hello"; "GET"; "200"]))
                     (key_sum demo_family ["/hello"; "GET"; "200"]) /\
    ~ explained demo_family [mkThread ["/hello"; "GET"; "200"] (1 # 2) 0 0] ["/hello"; "GET"; "200"]
        (S (key_count demo_family ["/hello"; "GET"; "200"])) (key_sum demo_family ["/hello"; "GET"; "200"]).
Proof.
  refine (torn_snapshot demo_family "/hello" "GET" 200%Z (1 # 2) 0 _ _ demo_summary _).
  - vm_compute. reflexivity.
  - intros H. vm_compute in H. discriminate.
Defined.

Example interleaving_sequential_witness :
  key_count (cs_fam demo_end) ["/hello"; "GET"; "200"] =
    key_count (seq_run demo_family (cs_threads demo_start)) ["/hello"; "GET"; "200"] /\
  key_sum (cs_fam demo_end) ["/hello"; "GET"; "200"] ==
    key_sum (seq_run demo_family (cs_threads demo_start)) ["/hello"; "GET"; "200"].
Proof.
  exact (interleaving_sequential demo_family demo_calls (cs_threads demo_start) ["/hello"; "GET"; "200"]
           demo_end demo_ok ltac:(vm_compute; reflexivity)
           (cexec_all_rtc _ _ _ demo_run) demo_completed ["/hello"; "GET"; "200"]).
Defined.

(** The database histogram of [newCollector('order-mgmt')] before any
    request, and one database call answered [('0', '0')]. *)
Definition demo_db_family : family :=
  mkFamily "order_mgmt_database_duration_seconds" "database latency request distribution"
    ["status_code"; "sql_state"] (KHistogram (db_buckets ++ [BInf])) [].

Example torn_snapshot_db_witness :
  exists s c x, rtc cstep (mkCState demo_db_family [mkThread ["0"; "0"] (1 # 2) 0 0] ["0"; "0"] SIdle) s /\
    cs_scr s = SDone c x /\ c = key_count demo_db_family ["0"; "0"] /\
    x == key_sum demo_db_family ["0"; "0"] + (1 # 2) /\
    ~ explained demo_db_family [mkThread ["0"; "0"] (1 # 2) 0 0] ["0"; "0"] c x.
Proof.
  refine (torn_snapshot_db demo_db_family "0" "0" (1 # 2) 0 _ _ _ (ex_intro _ _ eq_refl) _).
  - vm_compute. reflexivity.
  - split; [split; reflexivity|constructor].
  - intros H. vm_compute in H. discriminate.
Defined.
