(* ===== verification/Backend.v ===== *)
(** * The simulated backends (main.py 86-133)

    [mocked_call] sleeps when asked to, then raises [RuntimeError] when
    the error flag is truthy.  [work_with_db] and [work_with_third_party]
    read their two request parameters, time the call with [time.time()]
    and record the latency in the collector with the outcome's labels:
    ["0"]/["0"] or ["1001"]/["HY000"] on the database histogram, ["200"]
    or ["500"] on the audit summary; a failure is re-raised after it is
    recorded.  The request parameters are [request.args], passed here as
    an argument. *)

From stdpp Require Import base list strings.
From Stdlib Require Import QArith Lqa.
From S2P Require Import Prelude PyRuntime Prometheus Collector.

Local Open Scope pym_scope.

Section Backend.
Context `{PyParse}.

Definition mocked_call (what : string) (sleep : pyfloat) (is_error : pyval) : M unit :=
  (if pyfloat_gt0 sleep then time_sleep sleep else ret tt) ;;
  if py_truthy is_error then raise (RuntimeError (what +:+ " failed to process request"))
  else ret tt.

Definition call_db (db_sleep : pyfloat) (is_error : pyval) : M unit :=
  mocked_call "Database XYZ" db_sleep is_error.

Definition call_external (srv_sleep : pyfloat) (is_error : pyval) : M unit :=
  mocked_call "Service Audit" srv_sleep is_error.

Definition work_with_db (mc : MetricCollector) (args : list (string * string)) : M unit :=
  start_time <- time_time ;;
  db_sleep <- lift (float_of_arg (args_get args "db_sleep")) ;;
  is_db_error <- lift (literal_of_arg (args_get args "is_db_error")) ;;
  try_except is_runtime_error
    (call_db db_sleep is_db_error ;;
     t <- time_time ;;
     observe_db mc "0" "0" (t - start_time))
    (fun re =>
       t <- time_time ;;
       observe_db mc "1001" "HY000" (t - start_time) ;;
       raise re).

Definition work_with_third_party (mc : MetricCollector) (args : list (string * string))
    : M unit :=
  start_time <- time_time ;;
  srv_sleep <- lift (float_of_arg (args_get args "srv_sleep")) ;;
  is_srv_error <- lift (literal_of_arg (args_get args "is_srv_error")) ;;
  try_except is_runtime_error
    (call_external srv_sleep is_srv_error ;;
     t <- time_time ;;
     observe_external mc "200" (t - start_time))
    (fun re =>
       t <- time_time ;;
       observe_external mc "500" (t - start_time) ;;
       raise re).
End Backend.

(** ** The invariant *)

Lemma preserves_mocked_call `{PyParse} what f v : preserves inv (mocked_call what f v).
Proof. unfold mocked_call. solve_preserves. Qed.

#[export] Hint Resolve preserves_mocked_call : pym.

Lemma preserves_work_with_db `{PyParse} mc args : preserves inv (work_with_db mc args).
Proof. unfold work_with_db, call_db, observe_db. solve_preserves. Qed.

Lemma preserves_work_with_third_party `{PyParse} mc args :
  preserves inv (work_with_third_party mc args).
Proof. unfold work_with_third_party, call_external, observe_external. solve_preserves. Qed.

#[export] Hint Resolve preserves_work_with_db preserves_work_with_third_party : pym.

(** The backends record no observation in the self-latency summary. *)
Lemma no_self_obs_mocked_call `{PyParse} mc w0 what f v :
  preserves (no_self_obs mc w0) (mocked_call what f v).
Proof. unfold mocked_call. solve_preserves. Qed.

#[export] Hint Resolve no_self_obs_mocked_call : pym.

Lemma no_self_obs_work_with_db `{PyParse} mc w0 args :
  preserves (no_self_obs mc w0) (work_with_db mc args).
Proof. unfold work_with_db, call_db. solve_preserves. Qed.

Lemma no_self_obs_work_with_third_party `{PyParse} mc w0 args :
  preserves (no_self_obs mc w0) (work_with_third_party mc args).
Proof. unfold work_with_third_party, call_external. solve_preserves. Qed.

#[export] Hint Resolve no_self_obs_work_with_db no_self_obs_work_with_third_party : pym.

(** ** Running the backends *)

(** [mocked_call] does not raise from [time.sleep]. *)
Definition sleep_ok (f : pyfloat) : bool := negb (pyfloat_gt0 f) || sleep_fits f.

(** The time [mocked_call] sleeps. *)
Definition slept (f : pyfloat) : Q :=
  match f with
  | PFin q => if pyfloat_gt0 f then q else 0
  | _ => 0
  end.

Lemma mocked_call_spec `{PyParse} what f v w :
  sleep_ok f = true ->
  exists w', mocked_call what f v w =
      (if py_truthy v then Raise (RuntimeError (what +:+ " failed to process request"))
       else Ret tt, w') /\
    evolves w w' /\ w_log w' = w_log w /\ (ticks_nonneg w -> w_clock w + slept f <= w_clock w').
Proof.
  intros Hok. unfold mocked_call.
  assert (exists w1, (if pyfloat_gt0 f then time_sleep f else ret tt) w = (Ret tt, w1) /\
            evolves w w1 /\ w_log w1 = w_log w /\
            (ticks_nonneg w -> w_clock w + slept f <= w_clock w1)) as (w1 & Hs & He & Hl & Hc).
  { destruct (pyfloat_gt0 f) eqn:Hgt.
    - destruct f as [q|[]|]; simpl in Hgt; try discriminate.
      + unfold sleep_ok in Hok. simpl in Hok. rewrite Hgt in Hok. simpl in Hok.
        unfold slept. simpl. rewrite Hgt.
        apply negb_true_iff, Qle_bool_false in Hgt. by apply time_sleep_spec.
    - exists w. split; [done|]. split_and!; [reflexivity|done|].
      intros _. destruct f as [q| |]; simpl in *; [rewrite Hgt|..]; lra. }
  exists w1. rewrite (bind_Ret _ _ _ _ _ Hs). by destruct (py_truthy v).
Qed.

Lemma mocked_call_overflow `{PyParse} what f v w :
  sleep_ok f = false -> exists msg, mocked_call what f v w = (Raise (OverflowError msg), w).
Proof.
  unfold sleep_ok, mocked_call. intros [Hgt Hfit]%orb_false_iff. apply negb_false_iff in Hgt.
  destruct (time_sleep_overflow f w Hgt Hfit) as [msg Hs]. exists msg. rewrite Hgt.
  exact (bind_Raise _ _ _ _ _ Hs).
Qed.

(** The [try/except RuntimeError] block shared by the two work
    functions: the call, then the latency observed under the success
    or the failure labels, and the exception re-raised. *)
Lemma try_timed_spec mc (call : M unit) (on_ok on_err : Q -> M unit) i k_ok k_err msg
    (fail : bool) s start w :
  collector_wf mc w ->
  (forall w d, collector_wf mc w -> exists w', on_ok d w = (Ret tt, w') /\ evolves w w' /\
     w_log w' = w_log w ++ [mkObs i k_ok d]) ->
  (forall w d, collector_wf mc w -> exists w', on_err d w = (Ret tt, w') /\ evolves w w' /\
     w_log w' = w_log w ++ [mkObs i k_err d]) ->
  (exists w1, call w = (if fail then Raise (RuntimeError msg) else Ret tt, w1) /\
     evolves w w1 /\ w_log w1 = w_log w /\ (ticks_nonneg w -> w_clock w + s <= w_clock w1)) ->
  exists d w',
    try_except is_runtime_error (call ;; t <- time_time ;; on_ok (t - start))
      (fun re => t <- time_time ;; on_err (t - start) ;; raise re) w =
      (if fail then Raise (RuntimeError msg) else Ret tt, w') /\
    evolves w w' /\ w_log w' = w_log w ++ [mkObs i (if fail then k_err else k_ok) d] /\
    (ticks_nonneg w -> w_clock w + s - start <= d /\ d <= w_clock w' - start).
Proof.
  intros Hwf Hok Herr (w1 & Hc & He1 & Hl1 & Hclk).
  assert (evolves w (tick w1)) as He1' by (etrans; [exact He1|apply evolves_tick]).
  assert (collector_wf mc (tick w1)) as Hwf1 by eauto with pym.
  assert (ticks_nonneg w -> w_clock w + s - start <= w_clock (tick w1) - start /\
          ticks_nonneg (tick w1)) as Hb.
  { intros Ht. destruct (proj2 (proj2 (proj2 (evolves_tick w1)))) as [? ?];
      [by apply He1|]. specialize (Hclk Ht). split; [lra|done]. }
  destruct fail.
  - destruct (Herr (tick w1) (w_clock (tick w1) - start) Hwf1) as (w2 & H2 & He2 & Hl2).
    exists (w_clock (tick w1) - start), w2.
    rewrite (try_except_caught _ _ _ _ (RuntimeError msg) w1); [|by rewrite (bind_Raise _ _ _ _ _ Hc)|done].
    rewrite (bind_Ret _ _ _ _ _ (time_time_tick w1)), (bind_Ret _ _ _ _ _ H2).
    split; [done|]. split_and!; [by etrans|by rewrite Hl2, tick_log, Hl1|].
    intros Ht. destruct (Hb Ht) as [Hb1 Ht1]. destruct (proj2 (proj2 (proj2 He2)) Ht1). lra.
  - destruct (Hok (tick w1) (w_clock (tick w1) - start) Hwf1) as (w2 & H2 & He2 & Hl2).
    exists (w_clock (tick w1) - start), w2.
    rewrite (try_except_Ret _ _ _ _ tt w2);
      [|rewrite (bind_Ret _ _ _ _ _ Hc), (bind_Ret _ _ _ _ _ (time_time_tick w1)); exact H2].
    split; [done|]. split_and!; [by etrans|by rewrite Hl2, tick_log, Hl1|].
    intros Ht. destruct (Hb Ht) as [Hb1 Ht1]. destruct (proj2 (proj2 (proj2 He2)) Ht1). lra.
Qed.

Section Work.
Context `{PyParse}.

(** [work_with_db] with parameters that parse and a sleep [time.sleep]
    accepts: it raises the [RuntimeError] of [call_db] exactly when the
    error flag is truthy, and records one database observation with the
    outcome's labels and a latency covering the sleep. *)
Lemma work_with_db_spec mc args w f v :
  collector_wf mc w ->
  float_of_arg (args_get args "db_sleep") = Ret f ->
  literal_of_arg (args_get args "is_db_error") = Ret v ->
  sleep_ok f = true ->
  exists d w', work_with_db mc args w =
      (if py_truthy v then Raise (RuntimeError "Database XYZ failed to process request")
       else Ret tt, w') /\
    evolves w w' /\
    w_log w' = w_log w ++ [mkObs (mc_db mc)
                             (if py_truthy v then ["1001"; "HY000"] else ["0"; "0"]) d] /\
    (ticks_nonneg w -> slept f <= d /\ d <= w_clock w' - w_clock w).
Proof.
  intros Hwf Hf Hv Hok. unfold work_with_db.
  rewrite (bind_Ret _ _ _ _ _ (time_time_tick w)), Hf, bind_lift_Ret, Hv, bind_lift_Ret.
  destruct (try_timed_spec mc (call_db f v) (observe_db mc "0" "0")
              (observe_db mc "1001" "HY000") (mc_db mc) ["0"; "0"] ["1001"; "HY000"]
              "Database XYZ failed to process request" (py_truthy v) (slept f)
              (w_clock (tick w)) (tick w))
    as (d & w' & Hrun & He & Hl & Hb); eauto using observe_db_spec with pym.
  { by apply mocked_call_spec. }
  exists d, w'. split_and!; [done|by etrans; [apply evolves_tick|]|by rewrite Hl, tick_log|].
  intros Ht. destruct (proj2 (proj2 (proj2 (evolves_tick w))) Ht) as [Ht' Hc'].
  specialize (Hb Ht'). lra.
Qed.

Lemma work_with_third_party_spec mc args w f v :
  collector_wf mc w ->
  float_of_arg (args_get args "srv_sleep") = Ret f ->
  literal_of_arg (args_get args "is_srv_error") = Ret v ->
  sleep_ok f = true ->
  exists d w', work_with_third_party mc args w =
      (if py_truthy v then Raise (RuntimeError "Service Audit failed to process request")
       else Ret tt, w') /\
    evolves w w' /\
    w_log w' = w_log w ++ [mkObs (mc_external mc) (if py_truthy v then ["500"] else ["200"]) d] /\
    (ticks_nonneg w -> slept f <= d /\ d <= w_clock w' - w_clock w).
Proof.
  intros Hwf Hf Hv Hok. unfold work_with_third_party.
  rewrite (bind_Ret _ _ _ _ _ (time_time_tick w)), Hf, bind_lift_Ret, Hv, bind_lift_Ret.
  destruct (try_timed_spec mc (call_external f v) (observe_external mc "200")
              (observe_external mc "500") (mc_external mc) ["200"] ["500"]
              "Service Audit failed to process request" (py_truthy v) (slept f)
              (w_clock (tick w)) (tick w))
    as (d & w' & Hrun & He & Hl & Hb); eauto using observe_external_spec with pym.
  { by apply mocked_call_spec. }
  exists d, w'. split_and!; [done|by etrans; [apply evolves_tick|]|by rewrite Hl, tick_log|].
  intros Ht. destruct (proj2 (proj2 (proj2 (evolves_tick w))) Ht) as [Ht' Hc'].
  specialize (Hb Ht'). lra.
Qed.
(** [work_with_db] when [float(...)] rejects [db_sleep]: the
    [ValueError] escapes before the [try], and nothing is recorded. *)
Lemma work_with_db_bad_float mc args w e :
  float_of_arg (args_get args "db_sleep") = Raise e ->
  work_with_db mc args w = (Raise e, tick w).
Proof.
  intros Hf. unfold work_with_db. rewrite (bind_Ret _ _ _ _ _ (time_time_tick w)), Hf.
  reflexivity.
Qed.

(** [work_with_db] when [ast.literal_eval] rejects [is_db_error]. *)
Lemma work_with_db_bad_literal mc args w f e :
  float_of_arg (args_get args "db_sleep") = Ret f ->
  literal_of_arg (args_get args "is_db_error") = Raise e ->
  work_with_db mc args w = (Raise e, tick w).
Proof.
  intros Hf Hv. unfold work_with_db.
  rewrite (bind_Ret _ _ _ _ _ (time_time_tick w)), Hf, bind_lift_Ret, Hv. reflexivity.
Qed.

(** [work_with_db] when [time.sleep] rejects [db_sleep]: the
    [OverflowError] is not a [RuntimeError], so the [except] clause
    does not run and nothing is recorded. *)
Lemma work_with_db_overflow mc args w f v :
  float_of_arg (args_get args "db_sleep") = Ret f ->
  literal_of_arg (args_get args "is_db_error") = Ret v ->
  sleep_ok f = false ->
  exists msg, work_with_db mc args w = (Raise (OverflowError msg), tick w).
Proof.
  intros Hf Hv Hok. unfold work_with_db.
  rewrite (bind_Ret _ _ _ _ _ (time_time_tick w)), Hf, bind_lift_Ret, Hv, bind_lift_Ret.
  destruct (mocked_call_overflow "Database XYZ" f v (tick w) Hok) as [msg Hc].
  exists msg. apply try_except_uncaught; [|done]. exact (bind_Raise _ _ _ _ _ Hc).
Qed.
End Work.
