(* ===== verification/App.v ===== *)
(** * Routes, interceptor and request pipeline (main.py 57-83, 136-178)

    [add_routes] and [add_metrics_route] fill Flask's URL map
    ([url_map]); the views are [hello_route], [world_route],
    [complex_operation] and [metrics_rotue].  [instrument_requests]
    registers [before] (the start time, stored on the request) and
    [after] (the latency observation, skipped for the path ["/metrics"]).
    [handle_request] is Flask's [full_dispatch_request] with [wsgi_app]'s
    handler of unhandled exceptions around it:

    - the before hook runs, then routing: an unknown path gives 404, a
      method the rule does not allow gives 405, [OPTIONS] is answered
      automatically, [GET] and [HEAD] call the view; besides the rules of
      the application, [Flask(__name__)] (main.py 173) adds the rule
      [/static/<path:filename>], whose view answers 404 since the
      repository has no static folder; a path no rule matches but whose
      doubled slashes merged ([merge_slashes]) match one is redirected
      with 308;
    - an exception the view does not catch becomes a 500 response;
    - the after hook runs on every response; when it raises, the 500
      response goes through the after hook once more.

    The text [MultiProcessCollector] merges from the per-process files is
    left abstract ([merged_text]). *)

From stdpp Require Import base list strings.
From Stdlib Require Import QArith Lqa ZArith Ascii.
From S2P Require Import Prelude PyRuntime Prometheus Collector Backend.

Local Open Scope pym_scope.

(** [request.path] (werkzeug's ["/" + PATH_INFO.lstrip("/")], see
    [request_path]), [request.method] (upper-cased by werkzeug) and
    [request.args]. *)
Record request := mkRequest {
  rq_path : string;
  rq_method : string;
  rq_args : list (string * string)
}.

Record response := mkResponse {
  rs_status : Z;
  rs_body : string;
  rs_mimetype : string
}.

(** A view returning a [str]: status 200, Flask's default mimetype. *)
Definition str_response (body : string) : response := mkResponse 200 body "text/html".

(** [str(e)] of an exception raised with one message. *)
Definition exn_message (e : exn) : string :=
  match e with
  | ValueError m | RuntimeError m | OverflowError m | SyntaxError m => m
  end.

(** Werkzeug's error responses, with their status line as body. *)
Definition not_found : response := mkResponse 404 "404 Not Found" "text/html".
Definition method_not_allowed : response := mkResponse 405 "405 Method Not Allowed" "text/html".
Definition server_error : response := mkResponse 500 "500 Internal Server Error" "text/html".
Definition options_response : response := mkResponse 200 EmptyString "text/html".
Definition redirect_response : response := mkResponse 308 "308 Permanent Redirect" "text/html".

(** ** Views *)

Definition hello_route : M response := ret (str_response "hello").

Definition world_route : M response := ret (str_response "world").

(** The [except RuntimeError as re:] branches of [complex_operation]. *)
Definition error_503 (re : exn) : response := mkResponse 503 (exn_message re) "text/plain".

Section Views.
Context `{PyParse}.

Definition complex_operation (mc : MetricCollector) (args : list (string * string))
    : M response :=
  r1 <- try_except is_runtime_error (work_with_db mc args ;; ret None)
          (fun re => ret (Some (error_503 re))) ;;
  match r1 with
  | Some r => ret r
  | None =>
      r2 <- try_except is_runtime_error (work_with_third_party mc args ;; ret None)
              (fun re => ret (Some (error_503 re))) ;;
      match r2 with
      | Some r => ret r
      | None => ret (str_response "Success!")
      end
  end.
End Views.

(** [MultiProcessCollector(registry)] raises when the directory is not
    configured; otherwise [generate_latest(registry)] returns the text it
    merges from the files. *)
Definition get_latest_when_running_with_gunicorn (merged_text : World -> string) : M string :=
  d <- gets w_multiproc_dir ;;
  if d then gets merged_text
  else raise (ValueError "env PROMETHEUS_MULTIPROC_DIR is not set or not a directory").

Definition metrics_rotue (merged_text : World -> string) : M response :=
  txt <- get_latest_when_running_with_gunicorn merged_text ;;
  ret (mkResponse 200 txt "text/plain").

(** ** Routing *)

Inductive endpoint := EHello | EWorld | EComplex | EMetrics | EStatic.

(** [request.path]: the path info without its leading slashes, after one
    slash. *)
Fixpoint lstrip_slash (s : string) : string :=
  match s with
  | String c s' => if Ascii.eqb c "/"%char then lstrip_slash s' else s
  | EmptyString => EmptyString
  end.

Definition request_path (path_info : string) : string := String "/"%char (lstrip_slash path_info).

(** Werkzeug's [re.sub("/{2,}?", "/", path)]: from left to right, each
    pair of slashes becomes one. *)
Fixpoint merge_slashes (s : string) : string :=
  match s with
  | String c ((String c' s'') as rest) =>
      if Ascii.eqb c "/"%char && Ascii.eqb c' "/"%char then String "/"%char (merge_slashes s'')
      else String c (merge_slashes rest)
  | _ => s
  end.

(** The rule [/static/<path:filename>]: a [path] converter matches a
    nonempty file name that does not start with a slash. *)
Definition static_file (path : string) : bool :=
  match path with
  | String "/" (String "s" (String "t" (String "a" (String "t" (String "i" (String "c"
      (String "/" (String c _)))))))) => negb (Ascii.eqb c "/"%char)
  | _ => false
  end.

(** The rules of [add_routes] and [add_metrics_route], and Flask's static
    rule; the metrics rule has [strict_slashes=False], so ["/metrics/"]
    reaches it too. *)
Definition url_map (path : string) : option endpoint :=
  if String.eqb path "/hello" then Some EHello
  else if String.eqb path "/world" then Some EWorld
  else if String.eqb path "/complex" then Some EComplex
  else if String.eqb path "/metrics" || String.eqb path "/metrics/" then Some EMetrics
  else if static_file path then Some EStatic
  else None.

(** Every rule allows [GET]; Flask adds [HEAD] and [OPTIONS]. *)
Definition method_allowed (m : string) : bool :=
  String.eqb m "GET" || String.eqb m "HEAD".

Section Pipeline.
Context `{PyParse} (merged_text : World -> string).

Definition view (mc : MetricCollector) (e : endpoint) (rq : request) : M response :=
  match e with
  | EHello => hello_route
  | EWorld => world_route
  | EComplex => complex_operation mc (rq_args rq)
  | EMetrics => metrics_rotue merged_text
  | EStatic => ret not_found
  end.

(** [MapAdapter.match]: the rule of the path; otherwise, with
    [merge_slashes], a redirect to the merged path when a rule accepts
    it with the request's method. *)
Definition dispatch_request (mc : MetricCollector) (rq : request) : M response :=
  match url_map (rq_path rq) with
  | Some e =>
      if String.eqb (rq_method rq) "OPTIONS" then ret options_response
      else if method_allowed (rq_method rq) then view mc e rq
      else ret method_not_allowed
  | None =>
      match url_map (merge_slashes (rq_path rq)) with
      | None => ret not_found
      | Some _ =>
          if String.eqb (rq_method rq) "OPTIONS" || method_allowed (rq_method rq)
          then ret redirect_response else ret method_not_allowed
      end
  end.

(** [instrument_requests]: the two hooks. *)
Definition before : M Q := time_time.

Definition after (mc : MetricCollector) (rq : request) (start_time : Q) (resp : response)
    : M response :=
  (if negb (String.eqb (rq_path rq) "/metrics") then
     t <- time_time ;;
     observe_myself mc (rq_path rq) (rq_method rq) (rs_status resp) (t - start_time)
   else ret tt) ;;
  ret resp.

Definition catch_all (e : exn) : bool := true.

Definition handle_request (mc : MetricCollector) (rq : request) : M response :=
  start_time <- before ;;
  r <- try_except catch_all (resp <- dispatch_request mc rq ;; ret (resp, false))
         (fun _ => ret (server_error, true)) ;;
  let '(resp, from_error_handler) := r in
  try_except catch_all (after mc rq start_time resp)
    (fun _ =>
       if from_error_handler then ret resp
       else try_except catch_all (after mc rq start_time server_error)
              (fun _ => ret server_error)).

(** [get_app]: the collector; routes and hooks are the static tables
    above. *)
Definition get_app : M MetricCollector := get_collector "order-mgmt".

(** Requests handled one after the other by the same process. *)
Fixpoint serve (mc : MetricCollector) (rqs : list request) : M (list response) :=
  match rqs with
  | [] => ret []
  | rq :: rqs' =>
      resp <- handle_request mc rq ;;
      resps <- serve mc rqs' ;;
      ret (resp :: resps)
  end.
End Pipeline.

(** ** Running the views *)

Section ComplexSpec.
Context `{PyParse}.

Lemma complex_db_fails mc args w f v :
  collector_wf mc w ->
  float_of_arg (args_get args "db_sleep") = Ret f ->
  literal_of_arg (args_get args "is_db_error") = Ret v -> py_truthy v = true ->
  sleep_ok f = true ->
  exists d w', complex_operation mc args w =
      (Ret (error_503 (RuntimeError "Database XYZ failed to process request")), w') /\
    evolves w w' /\ w_log w' = w_log w ++ [mkObs (mc_db mc) ["1001"; "HY000"] d] /\
    (ticks_nonneg w -> slept f <= d /\ d <= w_clock w' - w_clock w).
Proof.
  intros Hwf Hf Hv Ht Hok.
  destruct (work_with_db_spec mc args w f v Hwf Hf Hv Hok) as (d & w1 & Hrun & He & Hl & Hb).
  rewrite Ht in Hrun, Hl. exists d, w1. unfold complex_operation.
  rewrite (bind_Ret _ _ _ _ _ (try_except_caught _ _ _ _ _ _ (bind_Raise _ _ _ _ _ Hrun) eq_refl)).
  done.
Qed.

Lemma complex_db_ok mc args w fdb vdb fsrv vsrv :
  collector_wf mc w ->
  float_of_arg (args_get args "db_sleep") = Ret fdb ->
  literal_of_arg (args_get args "is_db_error") = Ret vdb -> py_truthy vdb = false ->
  sleep_ok fdb = true ->
  float_of_arg (args_get args "srv_sleep") = Ret fsrv ->
  literal_of_arg (args_get args "is_srv_error") = Ret vsrv ->
  sleep_ok fsrv = true ->
  exists d1 d2 w', complex_operation mc args w =
      (Ret (if py_truthy vsrv then error_503 (RuntimeError "Service Audit failed to process request")
            else str_response "Success!"), w') /\
    evolves w w' /\
    w_log w' = w_log w ++ [mkObs (mc_db mc) ["0"; "0"] d1;
                            mkObs (mc_external mc) (if py_truthy vsrv then ["500"] else ["200"]) d2] /\
    (ticks_nonneg w -> slept fdb <= d1 /\ slept fsrv <= d2 /\ d1 + d2 <= w_clock w' - w_clock w).
Proof.
  intros Hwf Hf Hv Ht Hok Hf2 Hv2 Hok2.
  destruct (work_with_db_spec mc args w fdb vdb Hwf Hf Hv Hok) as (d1 & w1 & Hrun & He & Hl & Hb).
  rewrite Ht in Hrun, Hl.
  assert (collector_wf mc w1) as Hwf1 by eauto with pym.
  destruct (work_with_third_party_spec mc args w1 fsrv vsrv Hwf1 Hf2 Hv2 Hok2)
    as (d2 & w2 & Hrun2 & He2 & Hl2 & Hb2).
  exists d1, d2, w2. unfold complex_operation.
  rewrite (bind_Ret _ _ _ _ _ (try_except_Ret _ _ _ _ _ _ (bind_Ret _ _ _ _ _ Hrun))).
  split_and!.
  - destruct (py_truthy vsrv).
    + by rewrite (bind_Ret _ _ _ _ _ (try_except_caught _ _ _ _ _ _ (bind_Raise _ _ _ _ _ Hrun2) eq_refl)).
    + by rewrite (bind_Ret _ _ _ _ _ (try_except_Ret _ _ _ _ _ _ (bind_Ret _ _ _ _ _ Hrun2))).
  - by etrans.
  - by rewrite Hl2, Hl, <-app_assoc.
  - intros Htk. destruct (Hb Htk) as [Hb1 Hb1'].
    destruct (proj2 (proj2 (proj2 He)) Htk) as [Htk1 _].
    destruct (Hb2 Htk1) as [Hb2' Hb2'']. split_and!; [done|done|lra].
Qed.
End ComplexSpec.

(** ** The after hook *)

Section HookSpec.
Context `{PyParse} (merged_text : World -> string).

(** [handle_request] once [before] and the dispatch have run: the
    dispatch's response, or the 500 response if it raised, goes through
    [after], which observes the request's latency. *)
Lemma handle_request_after mc rq w o w1 :
  collector_wf mc w -> rq_path rq <> "/metrics" ->
  dispatch_request merged_text mc rq (tick w) = (o, w1) -> evolves (tick w) w1 ->
  let resp := match o with Ret r => r | Raise _ => server_error end in
  exists d w', handle_request merged_text mc rq w = (Ret resp, w') /\ evolves w w' /\
    w_log w' = w_log w1 ++ [mkObs (mc_me mc) [rq_path rq; rq_method rq; py_str_int (rs_status resp)] d] /\
    (ticks_nonneg w -> 0 <= d /\ w_clock w1 - w_clock (tick w) <= d) /\
    d = w_clock (tick w1) - w_clock (tick w).
Proof.
  intros Hwf Hp Hd He1 resp.
  assert (evolves w w1) as Hw1 by (etrans; [apply evolves_tick|exact He1]).
  assert (collector_wf mc (tick w1)) as Hwf1 by (eapply collector_wf_evolves; [|exact Hwf];
                                                  etrans; [exact Hw1|apply evolves_tick]).
  destruct (observe_myself_spec mc (tick w1) (rq_path rq) (rq_method rq) (rs_status resp)
              (w_clock (tick w1) - w_clock (tick w)) Hwf1) as (w2 & H2 & He2 & Hl2).
  exists (w_clock (tick w1) - w_clock (tick w)), w2.
  assert (after mc rq (w_clock (tick w)) resp w1 = (Ret resp, w2)) as Hafter.
  { unfold after. apply String.eqb_neq in Hp. rewrite Hp. cbn [negb].
    assert ((t <- time_time ;;
             observe_myself mc (rq_path rq) (rq_method rq) (rs_status resp) (t - w_clock (tick w))) w1
            = (Ret tt, w2)) as Hin.
    { rewrite (bind_Ret _ _ _ _ _ (time_time_tick w1)). exact H2. }
    by rewrite (bind_Ret _ _ _ _ _ Hin). }
  unfold handle_request, before. rewrite (bind_Ret _ _ _ _ _ (time_time_tick w)).
  split_and!.
  - destruct o as [r|e]; subst resp.
    + rewrite (bind_Ret _ _ _ _ _ (try_except_Ret _ _ _ _ (r, false) w1 (bind_Ret _ _ _ _ _ Hd))).
      by apply try_except_Ret.
    + rewrite (bind_Ret _ _ _ _ _ (try_except_caught _ _ _ _ _ _ (bind_Raise _ _ _ _ _ Hd) eq_refl)).
      by apply try_except_Ret.
  - etrans; [exact Hw1|]. etrans; [apply evolves_tick|exact He2].
  - by rewrite Hl2, tick_log.
  - intros Ht.
    destruct (proj2 (proj2 (proj2 (evolves_tick w))) Ht) as [Ht1 Hc1].
    destruct (proj2 (proj2 (proj2 He1)) Ht1) as [Ht2 Hc2].
    destruct (proj2 (proj2 (proj2 (evolves_tick w1))) Ht2) as [_ Hc3]. split; lra.
  - done.
Qed.
End HookSpec.

(** ** Requests to [/complex] *)

Section Complex.
Context `{PyParse} (merged_text : World -> string).

Lemma dispatch_complex mc args w :
  dispatch_request merged_text mc (mkRequest "/complex" "GET" args) w = complex_operation mc args w.
Proof. reflexivity. Qed.

(** [GET /complex] when the database call succeeds: the audit call
    decides the response; three observations are recorded. *)
Lemma complex_request_db_ok mc w args fdb vdb fsrv vsrv :
  collector_wf mc w ->
  float_of_arg (args_get args "db_sleep") = Ret fdb ->
  literal_of_arg (args_get args "is_db_error") = Ret vdb -> py_truthy vdb = false ->
  sleep_ok fdb = true ->
  float_of_arg (args_get args "srv_sleep") = Ret fsrv ->
  literal_of_arg (args_get args "is_srv_error") = Ret vsrv ->
  sleep_ok fsrv = true ->
  exists d1 d2 d3 w',
    handle_request merged_text mc (mkRequest "/complex" "GET" args) w =
      (Ret (if py_truthy vsrv then error_503 (RuntimeError "Service Audit failed to process request")
            else str_response "Success!"), w') /\
    w_log w' = w_log w ++ [mkObs (mc_db mc) ["0"; "0"] d1;
                            mkObs (mc_external mc) (if py_truthy vsrv then ["500"] else ["200"]) d2;
                            mkObs (mc_me mc) ["/complex"; "GET"; if py_truthy vsrv then "503" else "200"] d3] /\
    (ticks_nonneg w -> slept fdb <= d1 /\ slept fsrv <= d2 /\ d1 + d2 <= d3).
Proof.
  intros Hwf Hf Hv Ht Hok Hf2 Hv2 Hok2.
  destruct (complex_db_ok mc args (tick w) fdb vdb fsrv vsrv) as (d1 & d2 & w1 & Hrun & He & Hl & Hb);
    eauto with pym.
  rewrite <-(dispatch_complex mc) in Hrun.
  destruct (handle_request_after merged_text mc (mkRequest "/complex" "GET" args) w _ _ Hwf
              ltac:(cbn; discriminate) Hrun He) as (d3 & w' & Hreq & _ & Hl' & Hb' & _).
  exists d1, d2, d3, w'. split_and!.
  - exact Hreq.
  - rewrite Hl', Hl, tick_log, <-app_assoc. by destruct (py_truthy vsrv).
  - intros Htk. destruct (proj2 (proj2 (proj2 (evolves_tick w))) Htk) as [Htk' _].
    destruct (Hb Htk') as (? & ? & ?). destruct (Hb' Htk). split_and!; [done|done|lra].
Qed.

(** C1: a [GET /complex] whose parameters parse, with both error flags
    falsy and sleeps [time.sleep] accepts, answers ["Success!"] with
    status 200 and records exactly three observations, in this order:
    the database success (["0"], ["0"]), the audit success (["200"]) and
    the request itself (["/complex"], ["GET"], ["200"]). *)
Theorem complex_success mc w args fdb vdb fsrv vsrv :
  collector_wf mc w ->
  float_of_arg (args_get args "db_sleep") = Ret fdb ->
  literal_of_arg (args_get args "is_db_error") = Ret vdb -> py_truthy vdb = false ->
  sleep_ok fdb = true ->
  float_of_arg (args_get args "srv_sleep") = Ret fsrv ->
  literal_of_arg (args_get args "is_srv_error") = Ret vsrv -> py_truthy vsrv = false ->
  sleep_ok fsrv = true ->
  exists d1 d2 d3 w',
    handle_request merged_text mc (mkRequest "/complex" "GET" args) w =
      (Ret (str_response "Success!"), w') /\
    w_log w' = w_log w ++ [mkObs (mc_db mc) ["0"; "0"] d1; mkObs (mc_external mc) ["200"] d2;
                            mkObs (mc_me mc) ["/complex"; "GET"; "200"] d3].
Proof.
  intros Hwf Hf Hv Ht Hok Hf2 Hv2 Ht2 Hok2.
  destruct (complex_request_db_ok mc w args fdb vdb fsrv vsrv) as (d1 & d2 & d3 & w' & Hreq & Hl & _);
    try done.
  rewrite Ht2 in Hreq, Hl. by exists d1, d2, d3, w'.
Qed.

(** C2: when [is_db_error] is truthy, [GET /complex] answers 503 with
    the database's message, records the database failure (["1001"],
    ["HY000"]) and the request (status ["503"]), and never calls the
    audit service: no audit observation is recorded. *)
Theorem complex_db_failure mc w args f v :
  collector_wf mc w ->
  float_of_arg (args_get args "db_sleep") = Ret f ->
  literal_of_arg (args_get args "is_db_error") = Ret v -> py_truthy v = true ->
  sleep_ok f = true ->
  exists d1 d2 w',
    handle_request merged_text mc (mkRequest "/complex" "GET" args) w =
      (Ret (mkResponse 503 "Database XYZ failed to process request" "text/plain"), w') /\
    w_log w' = w_log w ++ [mkObs (mc_db mc) ["1001"; "HY000"] d1;
                            mkObs (mc_me mc) ["/complex"; "GET"; "503"] d2].
Proof.
  intros Hwf Hf Hv Ht Hok.
  destruct (complex_db_fails mc args (tick w) f v) as (d1 & w1 & Hrun & He & Hl & _);
    eauto with pym.
  rewrite <-(dispatch_complex mc) in Hrun.
  destruct (handle_request_after merged_text mc (mkRequest "/complex" "GET" args) w _ _ Hwf
              ltac:(cbn; discriminate) Hrun He)
    as (d2 & w' & Hreq & _ & Hl' & _).
  exists d1, d2, w'. split; [exact Hreq|]. rewrite Hl', Hl, tick_log, <-app_assoc. done.
Qed.

(** C3: when the database call succeeds and [is_srv_error] is truthy,
    [GET /complex] answers 503 with the audit service's message and
    records the database success, the audit failure (["500"]) and the
    request (status ["503"]). *)
Theorem complex_srv_failure mc w args fdb vdb fsrv vsrv :
  collector_wf mc w ->
  float_of_arg (args_get args "db_sleep") = Ret fdb ->
  literal_of_arg (args_get args "is_db_error") = Ret vdb -> py_truthy vdb = false ->
  sleep_ok fdb = true ->
  float_of_arg (args_get args "srv_sleep") = Ret fsrv ->
  literal_of_arg (args_get args "is_srv_error") = Ret vsrv -> py_truthy vsrv = true ->
  sleep_ok fsrv = true ->
  exists d1 d2 d3 w',
    handle_request merged_text mc (mkRequest "/complex" "GET" args) w =
      (Ret (mkResponse 503 "Service Audit failed to process request" "text/plain"), w') /\
    w_log w' = w_log w ++ [mkObs (mc_db mc) ["0"; "0"] d1; mkObs (mc_external mc) ["500"] d2;
                            mkObs (mc_me mc) ["/complex"; "GET"; "503"] d3].
Proof.
  intros Hwf Hf Hv Ht Hok Hf2 Hv2 Ht2 Hok2.
  destruct (complex_request_db_ok mc w args fdb vdb fsrv vsrv) as (d1 & d2 & d3 & w' & Hreq & Hl & _);
    try done.
  rewrite Ht2 in Hreq, Hl. by exists d1, d2, d3, w'.
Qed.

(** C14: with a wall clock that is never set back, the latencies of a
    successful [GET /complex] are bounded as the spec's timing tests
    expect: the database latency covers [db_sleep], the audit latency
    covers [srv_sleep], and the request's own latency covers both. *)
Theorem complex_latency_bounds mc w args fdb vdb fsrv vsrv :
  collector_wf mc w -> ticks_nonneg w ->
  float_of_arg (args_get args "db_sleep") = Ret fdb ->
  literal_of_arg (args_get args "is_db_error") = Ret vdb -> py_truthy vdb = false ->
  sleep_ok fdb = true ->
  float_of_arg (args_get args "srv_sleep") = Ret fsrv ->
  literal_of_arg (args_get args "is_srv_error") = Ret vsrv -> py_truthy vsrv = false ->
  sleep_ok fsrv = true ->
  exists d1 d2 d3 w',
    handle_request merged_text mc (mkRequest "/complex" "GET" args) w =
      (Ret (str_response "Success!"), w') /\
    w_log w' = w_log w ++ [mkObs (mc_db mc) ["0"; "0"] d1; mkObs (mc_external mc) ["200"] d2;
                            mkObs (mc_me mc) ["/complex"; "GET"; "200"] d3] /\
    slept fdb <= d1 /\ slept fsrv <= d2 /\ d1 + d2 <= d3.
Proof.
  intros Hwf Htk Hf Hv Ht Hok Hf2 Hv2 Ht2 Hok2.
  destruct (complex_request_db_ok mc w args fdb vdb fsrv vsrv) as (d1 & d2 & d3 & w' & Hreq & Hl & Hb);
    try done.
  rewrite Ht2 in Hreq, Hl. exists d1, d2, d3, w'. split_and!; try done; apply Hb, Htk.
Qed.
(** An exception of [work_with_db] other than [RuntimeError] escapes
    [complex_operation]. *)
Lemma complex_db_raises mc args w e w' :
  work_with_db mc args w = (Raise e, w') -> is_runtime_error e = false ->
  complex_operation mc args w = (Raise e, w').
Proof.
  intros Hrun Hr. unfold complex_operation. apply bind_Raise.
  apply try_except_uncaught; [|done]. exact (bind_Raise _ _ _ _ _ Hrun).
Qed.

(** C13: when [db_sleep] is not a float, or [is_db_error] is not a
    literal, or [db_sleep] is too large for [time.sleep], [GET /complex]
    answers 500 and records only the request itself: the database call
    was reached but no database observation is recorded. *)
Theorem complex_db_params_rejected mc w args :
  collector_wf mc w ->
  (exists e, float_of_arg (args_get args "db_sleep") = Raise e) \/
  (exists f e, float_of_arg (args_get args "db_sleep") = Ret f /\
     literal_of_arg (args_get args "is_db_error") = Raise e /\ is_runtime_error e = false) \/
  (exists f v, float_of_arg (args_get args "db_sleep") = Ret f /\
     literal_of_arg (args_get args "is_db_error") = Ret v /\ sleep_ok f = false) ->
  exists d w',
    handle_request merged_text mc (mkRequest "/complex" "GET" args) w = (Ret server_error, w') /\
    w_log w' = w_log w ++ [mkObs (mc_me mc) ["/complex"; "GET"; "500"] d].
Proof.
  intros Hwf Hp.
  assert (exists e, work_with_db mc args (tick w) = (Raise e, tick (tick w)) /\
            is_runtime_error e = false) as (e & Hrun & Hr).
  { destruct Hp as [[e Hf]|[(f & e & Hf & Hv & Hr)|(f & v & Hf & Hv & Hok)]].
    - exists e. split; [by apply work_with_db_bad_float|].
      destruct (args_get args "db_sleep") as [a|]; simpl in Hf; [|done].
      destruct (py_float a); [discriminate|]. by injection Hf as <-.
    - exists e. split; [by eapply work_with_db_bad_literal|done].
    - destruct (work_with_db_overflow mc args (tick w) f v Hf Hv Hok) as [msg Hrun].
      by exists (OverflowError msg). }
  apply complex_db_raises in Hrun; [|done].
  rewrite <-(dispatch_complex mc) in Hrun.
  destruct (handle_request_after merged_text mc (mkRequest "/complex" "GET" args) w _ _ Hwf
              ltac:(cbn; discriminate) Hrun ltac:(apply evolves_tick))
    as (d & w' & Hreq & _ & Hl & _).
  exists d, w'. split; [exact Hreq|]. by rewrite Hl, !tick_log.
Qed.
End Complex.

Section Clock.
Context `{PyParse} (merged_text : World -> string).

(** C17: the request latency is the difference of two [time.time()]
    readings of the wall clock: for [GET /hello] it is exactly the clock
    adjustment between the [before] and [after] hooks, so a clock set
    back in between records a negative latency. *)
Theorem hello_latency_wall_clock mc w args t1 t2 ts :
  collector_wf mc w -> w_ticks w = t1 :: t2 :: ts ->
  exists d w',
    handle_request merged_text mc (mkRequest "/hello" "GET" args) w = (Ret (str_response "hello"), w') /\
    w_log w' = w_log w ++ [mkObs (mc_me mc) ["/hello"; "GET"; "200"] d] /\ d == t2.
Proof.
  intros Hwf Ht.
  destruct (handle_request_after merged_text mc (mkRequest "/hello" "GET" args) w
              (Ret (str_response "hello")) (tick w) Hwf ltac:(cbn; discriminate) eq_refl
              ltac:(reflexivity)) as (d & w' & Hreq & _ & Hl & _ & Hd).
  exists d, w'. split_and!; [exact Hreq|by rewrite Hl, tick_log|].
  rewrite Hd. unfold tick. rewrite Ht. simpl. ring.
Qed.
End Clock.

(** ** Concrete runs *)

(** The state after [get_app] in a fresh process, and its collector. *)
Definition app_world (ticks : list Q) (multiproc_dir : bool) : World :=
  snd (get_app (init_world 0 ticks multiproc_dir)).

Definition app_collector : MetricCollector := mkCollector 0 1 2.

Definition no_merge : World -> string := fun _ => EmptyString.

Lemma get_app_run c ts d :
  exists w', get_app (init_world c ts d) = (Ret app_collector, w') /\
    collector_wf app_collector w' /\ w_log w' = [] /\ w_clock w' = c /\ w_ticks w' = ts.
Proof.
  exists (snd (get_app (init_world c ts d))). split_and!.
  - vm_compute. reflexivity.
  - apply (bool_decide_unpack _). vm_compute. reflexivity.
  - vm_compute. reflexivity.
  - vm_compute. reflexivity.
  - vm_compute. reflexivity.
Qed.

(** C20: in a fresh process [get_app] succeeds: it returns the collector
    whose three metric objects are references 0, 1 and 2, carrying the
    label names and kinds its methods use, with the invariant
    established, nothing observed and the clock untouched. *)
Theorem get_app_fresh c ts d :
  exists w', get_app (init_world c ts d) = (Ret app_collector, w') /\
    collector_wf app_collector w' /\ inv w' /\ w_log w' = [] /\
    w_clock w' = c /\ w_ticks w' = ts.
Proof.
  destruct (get_app_run c ts d) as (w' & Hrun & Hwf & Hl & Hc & Ht).
  exists w'. split_and!; [exact Hrun|exact Hwf| |exact Hl|exact Hc|exact Ht].
  change w' with (snd (Ret app_collector, w')). rewrite <-Hrun.
  apply preserves_newCollector, inv_init_world.
Qed.

Example complex_success_witness :
  exists d1 d2 d3 w',
    @handle_request DecimalParse.decimal_parse no_merge app_collector
      (mkRequest "/complex" "GET" [("db_sleep", "0.2"); ("is_srv_error", "0")])
      (app_world [] false) = (Ret (str_response "Success!"), w') /\
    w_log w' = w_log (app_world [] false) ++
      [mkObs 1 ["0"; "0"] d1; mkObs 2 ["200"] d2; mkObs 0 ["/complex"; "GET"; "200"] d3].
Proof.
  apply (@complex_success DecimalParse.decimal_parse no_merge app_collector (app_world [] false)
           [("db_sleep", "0.2"); ("is_srv_error", "0")]
           (PFin (2 # 10)) (PyBool false) (PFin 0) (PyInt 0));
    try reflexivity.
  apply (bool_decide_unpack _). vm_compute. reflexivity.
Defined.

Example complex_db_failure_witness :
  exists d1 d2 w',
    @handle_request DecimalParse.decimal_parse no_merge app_collector
      (mkRequest "/complex" "GET" [("is_db_error", "True")]) (app_world [] false) =
      (Ret (mkResponse 503 "Database XYZ failed to process request" "text/plain"), w') /\
    w_log w' = w_log (app_world [] false) ++
      [mkObs 1 ["1001"; "HY000"] d1; mkObs 0 ["/complex"; "GET"; "503"] d2].
Proof.
  apply (@complex_db_failure DecimalParse.decimal_parse no_merge app_collector (app_world [] false)
           [("is_db_error", "True")] (PFin 0) (PyBool true));
    try reflexivity.
  apply (bool_decide_unpack _). vm_compute. reflexivity.
Defined.

Example complex_srv_failure_witness :
  exists d1 d2 d3 w',
    @handle_request DecimalParse.decimal_parse no_merge app_collector
      (mkRequest "/complex" "GET" [("is_srv_error", "1")]) (app_world [] false) =
      (Ret (mkResponse 503 "Service Audit failed to process request" "text/plain"), w') /\
    w_log w' = w_log (app_world [] false) ++
      [mkObs 1 ["0"; "0"] d1; mkObs 2 ["500"] d2; mkObs 0 ["/complex"; "GET"; "503"] d3].
Proof.
  apply (@complex_srv_failure DecimalParse.decimal_parse no_merge app_collector (app_world [] false)
           [("is_srv_error", "1")] (PFin 0) (PyBool false) (PFin 0) (PyInt 1));
    try reflexivity.
  apply (bool_decide_unpack _). vm_compute. reflexivity.
Defined.

(** ** Other routes *)

Section Routes.
Context `{PyParse} (merged_text : World -> string).

Lemma metrics_rotue_state w : snd (metrics_rotue merged_text w) = w.
Proof.
  unfold metrics_rotue, get_latest_when_running_with_gunicorn, bind, gets, raise, ret.
  by destruct (w_multiproc_dir w).
Qed.

Lemma dispatch_metrics_state mc rq w :
  rq_path rq = "/metrics" -> snd (dispatch_request merged_text mc rq w) = w.
Proof.
  intros Hp. unfold dispatch_request. rewrite Hp. simpl.
  destruct (String.eqb (rq_method rq) "OPTIONS"); [done|].
  destruct (method_allowed (rq_method rq)); [apply metrics_rotue_state|done].
Qed.

Lemma after_metrics mc rq s resp w :
  rq_path rq = "/metrics" -> after mc rq s resp w = (Ret resp, w).
Proof. intros Hp. unfold after. by rewrite Hp. Qed.

Lemma handle_request_metrics_state mc rq w :
  rq_path rq = "/metrics" -> exists resp, handle_request merged_text mc rq w = (Ret resp, tick w).
Proof.
  intros Hp. unfold handle_request, before. rewrite (bind_Ret _ _ _ _ _ (time_time_tick w)).
  pose proof (dispatch_metrics_state mc rq (tick w) Hp) as Hs.
  destruct (dispatch_request merged_text mc rq (tick w)) as [[r|e] w1] eqn:Hd;
    simpl in Hs; subst w1; eexists.
  - rewrite (bind_Ret _ _ _ _ _ (try_except_Ret _ _ _ _ _ _ (bind_Ret _ _ _ _ _ Hd))).
    by rewrite (try_except_Ret _ _ _ _ _ _ (after_metrics mc rq _ r _ Hp)).
  - rewrite (bind_Ret _ _ _ _ _ (try_except_caught _ _ _ _ _ _ (bind_Raise _ _ _ _ _ Hd) eq_refl)).
    by rewrite (try_except_Ret _ _ _ _ _ _ (after_metrics mc rq _ _ _ Hp)).
Qed.

(** C4: a request whose path is exactly ["/metrics"], whatever its
    method and whatever the exposition does, records no observation and
    changes no metric: the log and the metric objects are those before
    the request. *)
Theorem metrics_path_unobserved mc rq w :
  rq_path rq = "/metrics" ->
  w_log (snd (handle_request merged_text mc rq w)) = w_log w /\
  w_heap (snd (handle_request merged_text mc rq w)) = w_heap w.
Proof.
  intros Hp. destruct (handle_request_metrics_state mc rq w Hp) as [resp ->]. simpl.
  by rewrite tick_log, tick_heap.
Qed.

(** C15: the metrics rule has [strict_slashes=False], so ["/metrics/"] is
    served by the metrics view too, but the after hook only skips the
    exact path ["/metrics"]: the scrape of ["/metrics/"] is recorded as
    a request of the service, with status 500 when the multiprocess
    directory is not configured and 200 when it is. *)
Theorem metrics_slash_observed mc w :
  collector_wf mc w ->
  exists d w',
    handle_request merged_text mc (mkRequest "/metrics/" "GET" []) w =
      (Ret (if w_multiproc_dir w then mkResponse 200 (merged_text (tick w)) "text/plain"
            else server_error), w') /\
    w_log w' = w_log w ++ [mkObs (mc_me mc) ["/metrics/"; "GET";
                                             if w_multiproc_dir w then "200" else "500"] d].
Proof.
  intros Hwf.
  set (o := if w_multiproc_dir w then Ret (mkResponse 200 (merged_text (tick w)) "text/plain")
            else Raise (ValueError "env PROMETHEUS_MULTIPROC_DIR is not set or not a directory")).
  assert (dispatch_request merged_text mc (mkRequest "/metrics/" "GET" []) (tick w) = (o, tick w))
    as Hd.
  { unfold o. cbn. unfold metrics_rotue, get_latest_when_running_with_gunicorn, bind, gets.
    rewrite tick_multiproc. by destruct (w_multiproc_dir w). }
  destruct (handle_request_after merged_text mc (mkRequest "/metrics/" "GET" []) w o (tick w) Hwf
              ltac:(cbn; discriminate) Hd ltac:(reflexivity)) as (d & w' & Hreq & _ & Hl & _).
  exists d, w'. unfold o in *. rewrite tick_log in Hl.
  destruct (w_multiproc_dir w); split; done.
Qed.

(** C16: in the single-process deployment ([PROMETHEUS_MULTIPROC_DIR]
    not configured), [GET /metrics] fails: [MultiProcessCollector]
    raises [ValueError] and the client gets a 500, not the exposition
    of the recorded metrics. *)
Theorem metrics_without_multiproc_dir mc w :
  w_multiproc_dir w = false ->
  fst (handle_request merged_text mc (mkRequest "/metrics" "GET" []) w) = Ret server_error.
Proof.
  intros Hd. unfold handle_request, before. rewrite (bind_Ret _ _ _ _ _ (time_time_tick w)).
  assert (dispatch_request merged_text mc (mkRequest "/metrics" "GET" []) (tick w) =
          (Raise (ValueError "env PROMETHEUS_MULTIPROC_DIR is not set or not a directory"), tick w))
    as Hdisp.
  { cbn. unfold metrics_rotue, get_latest_when_running_with_gunicorn, bind, gets.
    by rewrite tick_multiproc, Hd. }
  rewrite (bind_Ret _ _ _ _ _ (try_except_caught _ _ _ _ _ _ (bind_Raise _ _ _ _ _ Hdisp) eq_refl)).
  by rewrite (try_except_Ret _ _ _ _ _ _ (after_metrics mc (mkRequest "/metrics" "GET" []) _ _ _ eq_refl)).
Qed.

(** C19: [GET /hello] and [GET /world] answer their fixed literal with
    status 200 and record only the request's own latency. *)
Theorem static_routes mc w :
  collector_wf mc w ->
  (exists d w', handle_request merged_text mc (mkRequest "/hello" "GET" []) w =
                  (Ret (str_response "hello"), w') /\
                w_log w' = w_log w ++ [mkObs (mc_me mc) ["/hello"; "GET"; "200"] d]) /\
  (exists d w', handle_request merged_text mc (mkRequest "/world" "GET" []) w =
                  (Ret (str_response "world"), w') /\
                w_log w' = w_log w ++ [mkObs (mc_me mc) ["/world"; "GET"; "200"] d]).
Proof.
  intros Hwf. split.
  - destruct (handle_request_after merged_text mc (mkRequest "/hello" "GET" []) w
                (Ret (str_response "hello")) (tick w) Hwf ltac:(cbn; discriminate)
                eq_refl ltac:(reflexivity)) as (d & w' & Hreq & _ & Hl & _).
    exists d, w'. by rewrite Hl, tick_log.
  - destruct (handle_request_after merged_text mc (mkRequest "/world" "GET" []) w
                (Ret (str_response "world")) (tick w) Hwf ltac:(cbn; discriminate)
                eq_refl ltac:(reflexivity)) as (d & w' & Hreq & _ & Hl & _).
    exists d, w'. by rewrite Hl, tick_log.
Qed.

(** C18: a request whose path no rule matches, even with its doubled
    slashes merged (so neither an application route nor Flask's static
    rule nor a [merge_slashes] redirect applies), answers 404 and is
    still recorded under its own path label, whatever its method: the
    label values of the self-latency summary are not bounded by the
    routes. *)
Theorem unknown_path_observed mc w path_info method args :
  collector_wf mc w -> url_map (request_path path_info) = None ->
  url_map (merge_slashes (request_path path_info)) = None ->
  exists d w',
    handle_request merged_text mc (mkRequest (request_path path_info) method args) w = (Ret not_found, w') /\
    w_log w' = w_log w ++ [mkObs (mc_me mc) [request_path path_info; method; "404"] d].
Proof.
  intros Hwf Hu Hm.
  assert (request_path path_info <> "/metrics") as Hp by (intros Heq; rewrite Heq in Hu; discriminate).
  assert (dispatch_request merged_text mc (mkRequest (request_path path_info) method args) (tick w) =
            (Ret not_found, tick w))
    as Hd by (unfold dispatch_request; cbn [rq_path]; by rewrite Hu, Hm).
  destruct (handle_request_after merged_text mc (mkRequest (request_path path_info) method args) w _ _ Hwf Hp Hd
              ltac:(reflexivity)) as (d & w' & Hreq & _ & Hl & _).
  exists d, w'. by rewrite Hl, tick_log.
Qed.
End Routes.

Example metrics_path_unobserved_witness :
  w_log (snd (@handle_request DecimalParse.decimal_parse no_merge app_collector
                (mkRequest "/metrics" "POST" []) (app_world [] true))) = w_log (app_world [] true) /\
  w_heap (snd (@handle_request DecimalParse.decimal_parse no_merge app_collector
                 (mkRequest "/metrics" "POST" []) (app_world [] true))) = w_heap (app_world [] true).
Proof.
  apply (@metrics_path_unobserved DecimalParse.decimal_parse no_merge app_collector
           (mkRequest "/metrics" "POST" []) (app_world [] true)).
  reflexivity.
Defined.

Example metrics_slash_observed_witness :
  exists d w',
    @handle_request DecimalParse.decimal_parse no_merge app_collector
      (mkRequest "/metrics/" "GET" []) (app_world [1#100] false) = (Ret server_error, w') /\
    w_log w' = w_log (app_world [1#100] false) ++ [mkObs 0 ["/metrics/"; "GET"; "500"] d].
Proof.
  apply (@metrics_slash_observed DecimalParse.decimal_parse no_merge app_collector
           (app_world [1#100] false)).
  apply (bool_decide_unpack _). vm_compute. reflexivity.
Defined.

Example metrics_without_multiproc_dir_witness :
  fst (@handle_request DecimalParse.decimal_parse no_merge app_collector
         (mkRequest "/metrics" "GET" []) (app_world [] false)) = Ret server_error.
Proof.
  apply (@metrics_without_multiproc_dir DecimalParse.decimal_parse no_merge app_collector
           (app_world [] false)).
  reflexivity.
Defined.

Example static_routes_witness :
  (exists d w', @handle_request DecimalParse.decimal_parse no_merge app_collector
                  (mkRequest "/hello" "GET" []) (app_world [] false) =
                  (Ret (str_response "hello"), w') /\
                w_log w' = w_log (app_world [] false) ++ [mkObs 0 ["/hello"; "GET"; "200"] d]) /\
  (exists d w', @handle_request DecimalParse.decimal_parse no_merge app_collector
                  (mkRequest "/world" "GET" []) (app_world [] false) =
                  (Ret (str_response "world"), w') /\
                w_log w' = w_log (app_world [] false) ++ [mkObs 0 ["/world"; "GET"; "200"] d]).
Proof.
  apply (@static_routes DecimalParse.decimal_parse no_merge app_collector (app_world [] false)).
  apply (bool_decide_unpack _). vm_compute. reflexivity.
Defined.

Example unknown_path_observed_witness :
  exists d w',
    @handle_request DecimalParse.decimal_parse no_merge app_collector
      (mkRequest (request_path "//admin") "POST" []) (app_world [] false) = (Ret not_found, w') /\
    w_log w' = w_log (app_world [] false) ++ [mkObs 0 [request_path "//admin"; "POST"; "404"] d].
Proof.
  apply (@unknown_path_observed DecimalParse.decimal_parse no_merge app_collector
           (app_world [] false) "//admin" "POST" []).
  - apply (bool_decide_unpack _). vm_compute. reflexivity.
  - reflexivity.
  - reflexivity.
Defined.

(** ** The aggregates along any run *)

Section Refinement.
Context `{PyParse} (merged_text : World -> string).

Lemma preserves_handle_request mc rq : preserves inv (handle_request merged_text mc rq).
Proof.
  unfold handle_request, dispatch_request, view, after, before, hello_route, world_route,
    complex_operation, metrics_rotue, get_latest_when_running_with_gunicorn, observe_myself.
  solve_preserves.
Qed.

#[local] Hint Resolve preserves_handle_request : pym.

Lemma preserves_serve mc rqs : preserves inv (serve merged_text mc rqs).
Proof. induction rqs as [|rq rqs IH]; simpl; solve_preserves. Qed.

(** A run of the service: [get_app] in a fresh process, then requests. *)
Definition run_service (c : Q) (ts : list Q) (d : bool) (rqs : list request)
    : outcome (list response) * World :=
  (mc <- get_app ;; serve merged_text mc rqs) (init_world c ts d).

Lemma inv_run_service c ts d rqs : inv (snd (run_service c ts d rqs)).
Proof.
  apply (preserves_bind inv); [apply preserves_newCollector|intros mc; apply preserves_serve|].
  apply inv_init_world.
Qed.

(** C12: the refinement of the metric state by the observation log.  In
    a fresh process, after [get_app] and any sequence of requests, the
    [_count] of every child of every metric is the number of observations
    made under its labels and its [_sum] is their total: Prometheus's
    counters, including the histogram's buckets, lose no observation. *)
Theorem aggregates_refine_log c ts d rqs i key :
  let w := snd (run_service c ts d rqs) in
  count_at w i key = log_count (w_log w) i key /\ sum_at w i key == log_sum (w_log w) i key.
Proof. intros w. apply (inv_run_service c ts d rqs). Qed.

End Refinement.

(** ** Every request is counted once *)

(** The label values the after hook records for a request and its
    response: none for the path ["/metrics"]. *)
Definition self_observed (rq : request) (resp : response) : list (list string) :=
  if String.eqb (rq_path rq) "/metrics" then []
  else [[rq_path rq; rq_method rq; py_str_int (rs_status resp)]].

(** The label values of the observations of the self-latency summary. *)
Definition self_keys (mc : MetricCollector) (obs : list observation) : list (list string) :=
  map ob_key (List.filter (fun o => Nat.eqb (ob_metric o) (mc_me mc)) obs).

Lemma self_keys_app mc l1 l2 : self_keys mc (l1 ++ l2) = self_keys mc l1 ++ self_keys mc l2.
Proof. unfold self_keys. by rewrite List.filter_app, map_app. Qed.

Lemma self_keys_none mc l :
  Forall (fun o => ob_metric o <> mc_me mc) l -> self_keys mc l = [].
Proof.
  unfold self_keys. induction 1 as [|o l Ho _ IH]; [done|]. simpl.
  by rewrite (proj2 (Nat.eqb_neq _ _) Ho).
Qed.

Lemma log_count_self_keys mc log key :
  log_count log (mc_me mc) key = length (List.filter (fun k => bool_decide (k = key)) (self_keys mc log)).
Proof.
  unfold log_count, self_keys, obs_at. induction log as [|o log IH]; [done|]. simpl.
  destruct (Nat.eqb (ob_metric o) (mc_me mc)); simpl; [|done].
  destruct (bool_decide (ob_key o = key)); simpl; congruence.
Qed.

Section Counting.
Context `{PyParse} (merged_text : World -> string).

Lemma no_self_obs_dispatch mc rq w0 :
  preserves (no_self_obs mc w0) (dispatch_request merged_text mc rq).
Proof.
  unfold dispatch_request, view, complex_operation, hello_route, world_route, metrics_rotue,
    get_latest_when_running_with_gunicorn.
  solve_preserves.
Qed.

(** [handle_request] always answers, and adds to the self-latency
    summary exactly the observation [self_observed] names. *)
Lemma handle_request_total mc rq w :
  collector_wf mc w ->
  exists resp w' extra, handle_request merged_text mc rq w = (Ret resp, w') /\ evolves w w' /\
    w_log w' = w_log w ++ extra /\ self_keys mc extra = self_observed rq resp.
Proof.
  intros Hwf. unfold self_observed. destruct (String.eqb (rq_path rq) "/metrics") eqn:Hp.
  - apply String.eqb_eq in Hp. destruct (handle_request_metrics_state merged_text mc rq w Hp)
      as [resp Hh].
    exists resp, (tick w), []. split_and!; [done|apply evolves_tick|by rewrite tick_log, app_nil_r|done].
  - apply String.eqb_neq in Hp.
    destruct (dispatch_request merged_text mc rq (tick w)) as [o w1] eqn:Hd.
    assert (no_self_obs mc (tick w) w1) as Hn.
    { change w1 with (snd (o, w1)). rewrite <-Hd. by apply (no_self_obs_dispatch mc rq (tick w)). }
    destruct (Hn ltac:(eauto with pym)) as (He1 & extra0 & Hl1 & Hf1).
    destruct (handle_request_after merged_text mc rq w o w1 Hwf Hp Hd He1)
      as (d & w' & Hreq & He & Hl & _).
    eexists _, w', (extra0 ++ [_]). split_and!; [exact Hreq|exact He| |].
    + by rewrite Hl, Hl1, tick_log, app_assoc.
    + rewrite self_keys_app, self_keys_none by done. unfold self_keys. simpl.
      by rewrite Nat.eqb_refl.
Qed.

(** Serving any sequence of requests never raises and answers each of
    them; the self-latency summary receives exactly one observation per
    request whose path is not ["/metrics"], in order, labelled with its
    path, its method and the status of its own response. *)
Lemma serve_self_keys mc rqs w :
  collector_wf mc w ->
  exists resps w' extra, serve merged_text mc rqs w = (Ret resps, w') /\ evolves w w' /\
    length resps = length rqs /\ w_log w' = w_log w ++ extra /\
    self_keys mc extra = mjoin (zip_with self_observed rqs resps).
Proof.
  revert w. induction rqs as [|rq rqs IH]; intros w Hwf.
  - exists [], w, []. by rewrite app_nil_r.
  - destruct (handle_request_total mc rq w Hwf) as (resp & w1 & e1 & Hreq & He1 & Hl1 & Hk1).
    destruct (IH w1 ltac:(eauto with pym)) as (resps & w' & e2 & Hs & He2 & Hlen & Hl2 & Hk2).
    exists (resp :: resps), w', (e1 ++ e2). simpl.
    rewrite (bind_Ret _ _ _ _ _ Hreq), (bind_Ret _ _ _ _ _ Hs). split_and!; [done|by etrans|by f_equal| |].
    + by rewrite Hl2, Hl1, app_assoc.
    + by rewrite self_keys_app, Hk1, Hk2.
Qed.

(** A run of the service: [get_app] builds the collector in [w1], then
    the requests are answered in order; the self summary receives the
    observations [self_observed] names. *)
Lemma run_service_spec c ts d rqs :
  exists resps w1 w' extra,
    get_app (init_world c ts d) = (Ret app_collector, w1) /\ collector_wf app_collector w1 /\
    run_service merged_text c ts d rqs = (Ret resps, w') /\ evolves w1 w' /\
    length resps = length rqs /\ w_log w' = extra /\
    self_keys app_collector extra = mjoin (zip_with self_observed rqs resps).
Proof.
  destruct (get_app_run c ts d) as (w1 & Hrun & Hwf & Hl & _).
  destruct (serve_self_keys app_collector rqs w1 Hwf) as (resps & w' & e & Hs & He & Hlen & Hl' & Hk).
  exists resps, w1, w', e. split_and!; try done.
  - unfold run_service. by rewrite (bind_Ret _ _ _ _ _ Hrun).
  - by rewrite Hl', Hl.
Qed.

(** C5: the rate and errors of RED.  In a fresh process, after
    [get_app] and any sequence of requests, the service has answered
    every request, and the [_count] of the self-latency summary under
    the labels [key] is the number of requests, other than those to
    ["/metrics"], whose path, method and response status are [key]. *)
Theorem red_request_counts c ts d rqs key :
  exists resps, fst (run_service merged_text c ts d rqs) = Ret resps /\ length resps = length rqs /\
    count_at (snd (run_service merged_text c ts d rqs)) (mc_me app_collector) key =
    length (List.filter (fun k => bool_decide (k = key)) (mjoin (zip_with self_observed rqs resps))).
Proof.
  destruct (run_service_spec c ts d rqs) as (resps & w1 & w' & e & _ & _ & Hr & _ & Hlen & Hl & Hk).
  exists resps. pose proof (inv_run_service merged_text c ts d rqs) as (_ & Hc & _).
  rewrite Hr in Hc |- *. cbn [fst snd] in Hc |- *. split_and!; [done|done|].
  by rewrite (proj1 (Hc (mc_me app_collector) key)), log_count_self_keys, Hl, Hk.
Qed.
End Counting.

Example complex_latency_bounds_witness :
  exists d1 d2 d3 w',
    @handle_request DecimalParse.decimal_parse no_merge app_collector
      (mkRequest "/complex" "GET" [("db_sleep", "0.2"); ("srv_sleep", "0.05")])
      (app_world [1#1000; 1#1000; 1#1000; 1#1000; 1#1000; 1#1000; 1#1000; 1#1000] false) =
      (Ret (str_response "Success!"), w') /\
    w_log w' = w_log (app_world [1#1000; 1#1000; 1#1000; 1#1000; 1#1000; 1#1000; 1#1000; 1#1000] false) ++
      [mkObs 1 ["0"; "0"] d1; mkObs 2 ["200"] d2; mkObs 0 ["/complex"; "GET"; "200"] d3] /\
    2 # 10 <= d1 /\ 5 # 100 <= d2 /\ d1 + d2 <= d3.
Proof.
  apply (@complex_latency_bounds DecimalParse.decimal_parse no_merge app_collector
           (app_world [1#1000; 1#1000; 1#1000; 1#1000; 1#1000; 1#1000; 1#1000; 1#1000] false)
           [("db_sleep", "0.2"); ("srv_sleep", "0.05")]
           (PFin (2 # 10)) (PyBool false) (PFin (5 # 100)) (PyBool false));
    try reflexivity; apply (bool_decide_unpack _); vm_compute; reflexivity.
Defined.

Example complex_db_params_rejected_witness :
  exists d w',
    @handle_request DecimalParse.decimal_parse no_merge app_collector
      (mkRequest "/complex" "GET" [("db_sleep", "1e10")]) (app_world [] false) =
      (Ret server_error, w') /\
    w_log w' = w_log (app_world [] false) ++ [mkObs 0 ["/complex"; "GET"; "500"] d].
Proof.
  apply (@complex_db_params_rejected DecimalParse.decimal_parse no_merge app_collector
           (app_world [] false) [("db_sleep", "1e10")]).
  - apply (bool_decide_unpack _). vm_compute. reflexivity.
  - right. right. exists (PFin (10000000000 # 1)), (PyBool false). split_and!; reflexivity.
Defined.

Example hello_latency_wall_clock_witness :
  exists d w',
    @handle_request DecimalParse.decimal_parse no_merge app_collector
      (mkRequest "/hello" "GET" []) (app_world [0; -1] false) = (Ret (str_response "hello"), w') /\
    w_log w' = w_log (app_world [0; -1] false) ++ [mkObs 0 ["/hello"; "GET"; "200"] d] /\
    d == -1.
Proof.
  apply (@hello_latency_wall_clock DecimalParse.decimal_parse no_merge app_collector
           (app_world [0; -1] false) [] 0 (-1) []).
  - apply (bool_decide_unpack _). vm_compute. reflexivity.
  - reflexivity.
Defined.
