(* ===== verification/Scrape.v ===== *)
(** * Scraping the service: [get_latest] after a run

    The composition of the service ([App]) with the exposition
    ([Exposition]): after [get_app] and any sequence of requests, the
    text [MetricCollector.get_latest] returns (main.py 23-24) is read
    back line by line exactly as [generate_latest] wrote it, every
    sample it holds is named by a name the registry registered and
    carries the metric's label names, and the self-latency summary shows
    one [_count] line per label tuple the requests produced, whose value
    is the number of those requests. *)

From stdpp Require Import base list strings sets.
From Stdlib Require Import QArith ZArith.
From S2P Require Import Prelude PyRuntime Prometheus Collector Exposition Backend App.

(** ** The registry [get_app] builds *)

(** Every registered metric: its names and label names are tokens, and
    the registry maps each name [_get_names] gives for it to it. *)
Definition registered_ok (w : World) : bool :=
  forallb (fun i => match w_heap w !! i with
                    | Some f => fam_tokens f &&
                        forallb (fun n => bool_decide (reg_names (w_registry w) !! n = Some i)) (get_names f)
                    | None => true
                    end)
          (reg_collectors (w_registry w)).

Lemma get_names_shape f f' : same_shape f f' -> get_names f' = get_names f.
Proof. intros (Hn & _ & Hk). unfold get_names. by rewrite Hn, Hk. Qed.

Lemma registered_ok_evolves w w' : evolves w w' -> registered_ok w = true -> registered_ok w' = true.
Proof.
  intros He Hok. unfold registered_ok in *. rewrite (proj1 (proj2 He)).
  apply forallb_forall. intros i Hi. pose proof (proj1 (forallb_forall _ _) Hok i Hi) as Hf.
  cbv beta in Hf |- *. destruct (w_heap w' !! i) as [f'|] eqn:E'; [|done].
  destruct (Forall2_lookup_r _ _ _ _ _ (proj1 He) E') as (f & E & Hsh). rewrite E in Hf.
  by rewrite (fam_tokens_shape f f' Hsh), (get_names_shape f f' Hsh).
Qed.

(** A registered metric is at the reference the registry gives its names. *)
Lemma registered_ok_index w f :
  registered_ok w = true -> f ∈ registry_families w ->
  exists i, w_heap w !! i = Some f /\ fam_tokens f = true /\
    forall n, In n (get_names f) -> reg_names (w_registry w) !! n = Some i.
Proof.
  intros Hok (i & Hi%list_elem_of_In & Hf)%list_elem_of_omap.
  pose proof (proj1 (forallb_forall _ _) Hok i Hi) as Hb. cbv beta in Hb. rewrite Hf in Hb.
  apply andb_prop in Hb as [Ht Hns]. exists i. split_and!; [done|done|].
  intros n Hn. exact (bool_decide_eq_true_1 _ (proj1 (forallb_forall _ _) Hns n Hn)).
Qed.

Lemma registered_ok_tokens w :
  registered_ok w = true -> Forall (fun f => fam_tokens f = true) (registry_families w).
Proof.
  intros Hok. apply Forall_forall. intros f Hf.
  by destruct (registered_ok_index w f Hok Hf) as (_ & _ & ? & _).
Qed.

Lemma inv_registry_family w f : inv w -> f ∈ registry_families w -> family_wf f.
Proof.
  intros [[Hwf _] _] (i & _ & Hi)%list_elem_of_omap.
  exact (proj1 (Forall_forall _ _) Hwf f (list_elem_of_lookup_2 _ _ _ Hi)).
Qed.

Lemma family_wf_key_lengths f :
  family_wf f -> Forall (fun kc => length kc.1 = length (fam_labelnames f)) (fam_metrics f).
Proof.
  intros (_ & _ & Hks). apply Forall_forall. intros kc Hkc.
  exact (proj1 (proj1 (Forall_forall _ _) Hks kc Hkc)).
Qed.

(** The self-latency summary of [get_app], at reference 0. *)
Definition self_summary_shape (f : family) : Prop :=
  fam_name f = "order_mgmt_duration_seconds" /\
  fam_labelnames f = ["path"; "method"; "status_code"] /\ fam_kind f = KSummary.

Lemma get_app_built c ts d :
  registered_ok (snd (get_app (init_world c ts d))) = true /\
  reg_collectors (w_registry (snd (get_app (init_world c ts d)))) = [0; 1; 2]%nat /\
  exists f, w_heap (snd (get_app (init_world c ts d))) !! 0%nat = Some f /\ self_summary_shape f.
Proof.
  split_and!; [vm_compute; reflexivity|vm_compute; reflexivity|].
  eexists. split; [vm_compute; reflexivity|]. split_and!; reflexivity.
Qed.

(** The database histogram of [get_app], at reference 1. *)
Definition db_histogram_shape (f : family) : Prop :=
  fam_name f = "order_mgmt_database_duration_seconds" /\
  fam_labelnames f = ["status_code"; "sql_state"] /\ fam_kind f = KHistogram (db_buckets ++ [BInf]).

Lemma get_app_db c ts d :
  exists f, w_heap (snd (get_app (init_world c ts d))) !! 1%nat = Some f /\ db_histogram_shape f.
Proof. eexists. split; [vm_compute; reflexivity|]. split_and!; reflexivity. Qed.

Section Scrape.
Context `{PyParse} `{GoFloatLaws} (merged_text : World -> string).

Lemma run_service_registered c ts d rqs :
  registered_ok (snd (run_service merged_text c ts d rqs)) = true.
Proof.
  destruct (run_service_spec merged_text c ts d rqs) as (resps & w1 & w' & e & Hg & _ & Hr & He & _).
  rewrite Hr. apply (registered_ok_evolves w1); [done|].
  pose proof (proj1 (get_app_built c ts d)) as Hok. by rewrite Hg in Hok.
Qed.

(** C9: whatever requests the service answered (paths holding quotes,
    backslashes or newlines included), the text [get_latest] returns
    reads back, line by line, as exactly the lines [generate_latest]
    wrote. *)
Theorem scrape_reads_back c ts d rqs :
  let w := snd (run_service merged_text c ts d rqs) in
  exists txt, get_latest app_collector w = (Ret txt, w) /\
    read_text txt = map Some (exposition (registry_families w)).
Proof.
  intros w. exists (generate_latest (registry_families w)). split; [done|].
  apply read_text_render, exposition_wf, registered_ok_tokens, run_service_registered.
Qed.

(** C11: every sample of a scrape belongs to its own metric: the
    registry maps the sample's name to a metric object, the sample's name
    is one of that metric's [_get_names], and the sample's label names
    are that metric's, plus [le] on a histogram bucket. *)
Theorem scrape_schema c ts d rqs n ls v :
  let w := snd (run_service merged_text c ts d rqs) in
  LSample n ls v ∈ exposition (registry_families w) ->
  exists i f, reg_names (w_registry w) !! n = Some i /\ w_heap w !! i = Some f /\ In n (get_names f) /\
    (map fst ls ≡ₚ fam_labelnames f \/ map fst ls ≡ₚ fam_labelnames f ++ ["le"]).
Proof.
  intros w Hin%list_elem_of_In%in_flat_map. destruct Hin as (f & Hf%list_elem_of_In & Hl).
  pose proof (family_wf_key_lengths f (inv_registry_family w f (inv_run_service merged_text c ts d rqs) Hf))
    as Hlen.
  destruct (proj1 (Forall_forall _ _) (family_lines_schema f Hlen) (LSample n ls v)
              (proj2 (list_elem_of_In _ _) Hl)) as [Hn Hls].
  destruct (registered_ok_index w f (run_service_registered c ts d rqs) Hf) as (i & Hi & _ & Hnames).
  exists i, f. split_and!; [exact (Hnames n Hn)|done|done|done].
Qed.
Lemma filter_eq_pos (l : list (list string)) key :
  key ∈ l -> (0 < length (List.filter (fun k => bool_decide (k = key)) l))%nat.
Proof.
  induction l as [|k l IH]; [by intros ?%elem_of_nil|].
  intros [->|Hin]%elem_of_cons; simpl; [rewrite bool_decide_true by done; simpl; lia|].
  destruct (bool_decide (k = key)); simpl; [lia|auto].
Qed.

(** C8: the scrape shows the request rate: for every label tuple the
    requests produced, the text of [get_latest] holds the line
    [order_mgmt_duration_seconds_count{method=..,path=..,status_code=..}]
    whose value is the number of requests (those to ["/metrics"] apart)
    with that path, method and response status. *)
Theorem scrape_counts c ts d rqs :
  exists resps, fst (run_service merged_text c ts d rqs) = Ret resps /\
    forall key, key ∈ mjoin (zip_with self_observed rqs resps) ->
      LSample "order_mgmt_duration_seconds_count"
        (sort_labels (zip ["path"; "method"; "status_code"] key))
        (go_float (inject_Z (Z.of_nat
           (length (List.filter (fun k => bool_decide (k = key))
                      (mjoin (zip_with self_observed rqs resps)))))))
      ∈ exposition (registry_families (snd (run_service merged_text c ts d rqs))).
Proof.
  destruct (run_service_spec merged_text c ts d rqs)
    as (resps & w1 & w' & e & Hg & _ & Hr & He & _ & Hl & Hk).
  pose proof (inv_run_service merged_text c ts d rqs) as Hinv. rewrite Hr in Hinv |- *.
  exists resps. split; [done|]. intros key Hkey. cbn [snd] in Hinv |- *.
  destruct (get_app_built c ts d) as (_ & Hcoll & f1 & Hf1 & Hn1 & Hl1 & Hk1). rewrite Hg in Hcoll, Hf1. cbn [snd] in Hcoll, Hf1.
  destruct (Forall2_lookup_l _ _ _ _ _ (proj1 He) Hf1) as (f & Hf & Hn & Hlbl & Hkind).
  assert (count_at w' 0 key =
            length (List.filter (fun k => bool_decide (k = key)) (mjoin (zip_with self_observed rqs resps))))
    as Hcount.
  { rewrite (proj1 (proj1 (proj2 Hinv) 0%nat key)). change 0%nat with (mc_me app_collector).
    by rewrite log_count_self_keys, Hl, Hk. }
  pose proof (filter_eq_pos _ key Hkey) as Hpos. rewrite <-Hcount in Hpos |- *.
  unfold count_at, child_at in Hpos |- *. rewrite Hf in Hpos |- *.
  destruct (lookup_child key (fam_metrics f)) as [ch|] eqn:Hch; [|simpl in Hpos; lia].
  apply lookup_child_Some in Hch.
  destruct (proj1 Hinv) as [Hwfs _].
  destruct (proj1 (Forall_forall _ _) Hwfs f (list_elem_of_lookup_2 _ _ _ Hf)) as (_ & _ & Hks).
  destruct (proj1 (Forall_forall _ _) Hks _ Hch) as [_ Hchwf]. simpl in Hchwf.
  rewrite Hkind, Hk1 in Hchwf. destruct ch as [n s t|]; [|done].
  assert (f ∈ registry_families w') as Hfreg.
  { apply list_elem_of_omap. exists 0%nat. split; [|done].
    rewrite (proj1 (proj2 He)), Hcoll. apply elem_of_cons. by left. }
  pose proof (exposition_family f _ _ Hfreg (summary_count_line f key n s t Hch)) as Hline.
  rewrite Hn, Hlbl, Hn1, Hl1, app_nil_r in Hline. exact Hline.
Qed.

(** The metric objects of [get_app] stay registered, with their shape. *)
Lemma run_service_heap c ts d rqs i f1 :
  w_heap (snd (get_app (init_world c ts d))) !! i = Some f1 -> In i [0; 1; 2]%nat ->
  exists f, w_heap (snd (run_service merged_text c ts d rqs)) !! i = Some f /\ same_shape f1 f /\
    f ∈ registry_families (snd (run_service merged_text c ts d rqs)).
Proof.
  intros Hf1 Hi. destruct (run_service_spec merged_text c ts d rqs) as (resps & w1 & w' & e & Hg & _ & Hr & He & _).
  destruct (get_app_built c ts d) as (_ & Hcoll & _). rewrite Hg in Hf1, Hcoll. cbn [snd] in Hf1, Hcoll.
  rewrite Hr. cbn [snd]. destruct (Forall2_lookup_l _ _ _ _ _ (proj1 He) Hf1) as (f & Hf & Hsh).
  exists f. split_and!; [done|done|]. apply list_elem_of_omap. exists i. split; [|done].
  rewrite (proj1 (proj2 He)), Hcoll. by apply list_elem_of_In.
Qed.

(** C23: the scrape shows the database latency distribution: for every
    label tuple the database calls were observed under and every bound
    [ub] of the histogram (0.1 .. 2.5 and +Inf), the text of
    [get_latest] holds the line
    [order_mgmt_database_duration_seconds_bucket{le=ub,..}] whose value
    is the number of the tuple's recorded database latencies that are at
    most [ub]. *)
Theorem scrape_db_buckets c ts d rqs key (j : nat) (ub : bound) :
  let w := snd (run_service merged_text c ts d rqs) in
  (0 < log_count (w_log w) (mc_db app_collector) key)%nat ->
  (db_buckets ++ [BInf]) !! j = Some ub ->
  LSample "order_mgmt_database_duration_seconds_bucket"
    (sort_labels (zip ["status_code"; "sql_state"] key ++ [("le", go_bound ub)]))
    (go_float (inject_Z (Z.of_nat (length (List.filter (fun x => le_bound x ub)
                                             (log_values (w_log w) (mc_db app_collector) key))))))
  ∈ exposition (registry_families w).
Proof.
  intros w Hpos Hj. change (mc_db app_collector) with 1%nat in Hpos |- *.
  destruct (get_app_db c ts d) as (f1 & Hf1 & Hn1 & Hl1 & Hk1).
  destruct (run_service_heap c ts d rqs 1 f1 Hf1 ltac:(simpl; tauto)) as (f & Hf & (Hn & Hl & Hk) & Hreg).
  pose proof (inv_run_service merged_text c ts d rqs) as ([Hwfs _] & Hc & Hbk).
  fold w in Hwfs, Hc, Hbk, Hf, Hreg. clearbody w.
  rewrite <-(proj1 (Hc 1%nat key)) in Hpos. unfold count_at, child_at in Hpos. rewrite Hf in Hpos.
  specialize (Hbk 1%nat f key Hf). rewrite Hk, Hk1 in Hbk.
  destruct (lookup_child key (fam_metrics f)) as [ch|] eqn:Hch; [|simpl in Hpos; lia].
  destruct (proj1 (Forall_forall _ _) Hwfs f (list_elem_of_lookup_2 _ _ _ Hf)) as (_ & _ & Hks).
  apply lookup_child_Some in Hch.
  destruct (proj1 (Forall_forall _ _) Hks _ Hch) as [_ Hchwf]. simpl in Hchwf. rewrite Hk, Hk1 in Hchwf.
  destruct ch as [|bs s t]; [done|]. subst bs.
  pose proof (observe_buckets_cumulative_lookup (db_buckets ++ [BInf]) (log_values (w_log w) 1 key) j ub
                ltac:(vm_compute; reflexivity) Hj) as Hcum.
  pose proof (histogram_bucket_line f key _ s t _ j ub _ (eq_trans Hk Hk1) Hch Hj Hcum) as Hline.
  pose proof (exposition_family f _ _ Hreg Hline) as Hin.
  rewrite Hn, Hl, Hn1, Hl1 in Hin. exact Hin.
Qed.
End Scrape.

Example scrape_schema_witness :
  let w := snd (@run_service DecimalParse.decimal_parse no_merge 0 [] false
                  [mkRequest "/hello" "GET" []]) in
  LSample "order_mgmt_duration_seconds_count"
    [("method", "GET"); ("path", "/hello"); ("status_code", "200")] "1.0"
    ∈ @exposition GoDecimal.go_decimal (registry_families w) /\
  exists i f, reg_names (w_registry w) !! "order_mgmt_duration_seconds_count" = Some i /\
    w_heap w !! i = Some f /\ In "order_mgmt_duration_seconds_count" (get_names f) /\
    (map fst [("method", "GET"); ("path", "/hello"); ("status_code", "200")] ≡ₚ fam_labelnames f \/
     map fst [("method", "GET"); ("path", "/hello"); ("status_code", "200")] ≡ₚ
       fam_labelnames f ++ ["le"]).
Proof.
  assert (LSample "order_mgmt_duration_seconds_count"
            [("method", "GET"); ("path", "/hello"); ("status_code", "200")] "1.0"
          ∈ @exposition GoDecimal.go_decimal
              (registry_families (snd (@run_service DecimalParse.decimal_parse no_merge 0 [] false
                                         [mkRequest "/hello" "GET" []])))) as Hin.
  { apply (bool_decide_unpack _). vm_compute. reflexivity. }
  split; [exact Hin|].
  exact (@scrape_schema DecimalParse.decimal_parse GoDecimal.go_decimal
           no_merge 0 [] false [mkRequest "/hello" "GET" []] _ _ _ Hin).
Defined.

Example scrape_reads_back_witness :
  let w := snd (@run_service DecimalParse.decimal_parse no_merge 0 [] false
                  [mkRequest "/hello" "GET" []; mkRequest ("/a" +:+ char_str dquote) "GET" []]) in
  exists txt, @get_latest GoDecimal.go_decimal app_collector w = (Ret txt, w) /\
    read_text txt = map Some (@exposition GoDecimal.go_decimal (registry_families w)).
Proof.
  exact (@scrape_reads_back DecimalParse.decimal_parse GoDecimal.go_decimal GoDecimal.go_decimal_laws
           no_merge 0 [] false [mkRequest "/hello" "GET" []; mkRequest ("/a" +:+ char_str dquote) "GET" []]).
Defined.

Example scrape_db_buckets_witness :
  let w := snd (@run_service DecimalParse.decimal_parse no_merge 0 [] false [mkRequest "/complex" "GET" []]) in
  (0 < log_count (w_log w) (mc_db app_collector) ["0"; "0"])%nat /\
  (db_buckets ++ [BInf]) !! 0%nat = Some (BFin (1 # 10)) /\
  LSample "order_mgmt_database_duration_seconds_bucket"
    (sort_labels (zip ["status_code"; "sql_state"] ["0"; "0"] ++ [("le", @go_bound GoDecimal.go_decimal (BFin (1 # 10)))]))
    (@go_float GoDecimal.go_decimal (inject_Z (Z.of_nat (length (List.filter (fun x => le_bound x (BFin (1 # 10)))
                                             (log_values (w_log w) (mc_db app_collector) ["0"; "0"]))))))
  ∈ @exposition GoDecimal.go_decimal (registry_families w).
Proof.
  assert ((0 < log_count (w_log (snd (@run_service DecimalParse.decimal_parse no_merge 0 [] false
                                          [mkRequest "/complex" "GET" []])))
                 (mc_db app_collector) ["0"; "0"])%nat) as Hpos by (vm_compute; lia).
  split_and!; [exact Hpos|reflexivity|].
  exact (@scrape_db_buckets DecimalParse.decimal_parse GoDecimal.go_decimal no_merge 0 [] false
           [mkRequest "/complex" "GET" []] ["0"; "0"] 0%nat (BFin (1 # 10)) Hpos eq_refl).
Defined.
